(** * EnergyGrid aggregator: batch planner, telemetry client, rate limiter
      and orchestrator, embedded from the JavaScript sources.

    JavaScript numbers that the program only uses as integers are [Z]
    (or [nat] where the source counts up from zero), arrays are lists,
    strings are [string].  Loops whose termination depends on the input are
    written with an explicit iteration budget. *)

From Stdlib Require Import ZArith List String Ascii Bool Arith Lia.
From Stdlib Require Import Decimal DecimalNat DecimalZ DecimalString FinFun.
Import ListNotations.

Local Open Scope string_scope.
Local Open Scope list_scope.

(** ** src/config.js *)

Record Config : Type := mkConfig {
  API_BASE_URL : string;
  API_ENDPOINT : string;
  SECRET_TOKEN : string;
  RATE_LIMIT_MS : Z;
  BATCH_SIZE : Z;
  TOTAL_DEVICES : nat;
  MAX_RETRIES : Z;
  INITIAL_RETRY_DELAY_MS : Z
}.

Definition config : Config := {|
  API_BASE_URL := "http://localhost:3001";
  API_ENDPOINT := "/device/real/query";
  SECRET_TOKEN := "interview_token_123";
  RATE_LIMIT_MS := 1100;
  BATCH_SIZE := 10;
  TOTAL_DEVICES := 500;
  MAX_RETRIES := 3;
  INITIAL_RETRY_DELAY_MS := 1500
|}.

(** ** JavaScript string and array primitives used by the sources *)

(** [Number.prototype.toString] on a non-negative integer: its decimal
    digits, without leading zeros. *)
Definition toString (i : nat) : string :=
  NilEmpty.string_of_uint (Nat.to_uint i).

(** Reading a run of decimal digits back as a number, leading zeros
    allowed (what [Number.parseInt] does on digits). *)
Definition parseDigits (s : string) : option nat :=
  option_map Nat.of_uint (NilEmpty.uint_of_string s).

(** The filler of [padStart]: [n] characters taken from [padString]
    repeated as often as needed ([rest] is what is left of the current
    copy). *)
Fixpoint fill (n : nat) (padString rest : string) : string :=
  match n with
  | O => EmptyString
  | S n' =>
      match rest with
      | String c r => String c (fill n' padString r)
      | EmptyString =>
          match padString with
          | String c r => String c (fill n' padString r)
          | EmptyString => EmptyString
          end
      end
  end.

(** [String.prototype.padStart(targetLength, padString)]: a string at
    least as long as the target is returned unchanged. *)
Definition padStart (targetLength : nat) (padString s : string) : string :=
  if (String.length s <? targetLength)%nat
  then (fill (targetLength - String.length s) padString padString ++ s)%string
  else s.

(** [Array.prototype.slice(start, end)], negative indices counting from
    the end of the array. *)
Definition slice {A : Type} (items : list A) (start stop : Z) : list A :=
  let len := Z.of_nat (List.length items) in
  let k := if (start <? 0)%Z then Z.max (len + start) 0 else Z.min start len in
  let final := if (stop <? 0)%Z then Z.max (len + stop) 0 else Z.min stop len in
  firstn (Z.to_nat (final - k)) (skipn (Z.to_nat k) items).

(** ** src/lib/batchProcessor.js *)

Module BatchProcessor.

(** The template literal of [generateSerialNumbers]:
    [SN-] followed by [i.toString().padStart(3, '0')]. *)
Definition serialNumber (i : nat) : string :=
  ("SN-" ++ padStart 3 "0" (toString i))%string.

(** [for (let i = 0; i < count; i++) serialNumbers.push(...)]; the first
    argument is the number of iterations still to run, [count - i]. *)
Fixpoint generateSerialNumbers_loop (todo i : nat) (serialNumbers : list string)
  : list string :=
  match todo with
  | O => serialNumbers
  | S todo' =>
      generateSerialNumbers_loop todo' (S i) (serialNumbers ++ [serialNumber i])
  end.

Definition generateSerialNumbers (count : nat) : list string :=
  generateSerialNumbers_loop count 0 [].

(** [for (let i = 0; i < items.length; i += batchSize)
       batches.push(items.slice(i, i + batchSize))].
    The loop has no bound of its own when [batchSize <= 0], so it runs on
    an iteration budget: [None] means the budget ran out before the loop
    condition became false. *)
Fixpoint createBatches_loop {A : Type} (fuel : nat) (items : list A)
    (batchSize i : Z) (batches : list (list A)) : option (list (list A)) :=
  match fuel with
  | O => None
  | S fuel' =>
      if (i <? Z.of_nat (List.length items))%Z
      then createBatches_loop fuel' items batchSize (i + batchSize)%Z
             (batches ++ [slice items i (i + batchSize)%Z])
      else Some batches
  end.

(** One more iteration than there are items is enough for every positive
    batch size ([createBatches_loop_terminates]); for the other sizes no
    budget is ([createBatches_loop_diverges]). *)
Definition createBatches {A : Type} (items : list A) (batchSize : Z)
  : option (list (list A)) :=
  createBatches_loop (S (List.length items)) items batchSize 0%Z [].

Record BatchPlan : Type := mkBatchPlan {
  serialNumbers : list string;
  batches : list (list string);
  totalDevices : nat;
  batchSize : Z;
  totalBatches : nat
}.

Definition prepareBatches (totalDevices : nat) (batchSize : Z)
  : option BatchPlan :=
  let serialNumbers := generateSerialNumbers totalDevices in
  match createBatches serialNumbers batchSize with
  | Some batches =>
      Some {| serialNumbers := serialNumbers;
              batches := batches;
              totalDevices := totalDevices;
              batchSize := batchSize;
              totalBatches := List.length batches |}
  | None => None
  end.

(** [prepareBatches()] with both defaults taken from the configuration. *)
Definition prepareBatches_default (cfg : Config) : option BatchPlan :=
  prepareBatches (TOTAL_DEVICES cfg) (BATCH_SIZE cfg).

End BatchProcessor.

(** ** JavaScript values that cross the wire *)

(** A thrown value: an [Error] object with its [name] and [message]. *)
Record JsError : Type := mkError {
  name : string;
  message : string
}.

Definition Error_ (msg : string) : JsError :=
  {| name := "Error"; message := msg |}.
Definition TypeError (msg : string) : JsError :=
  {| name := "TypeError"; message := msg |}.
Definition SyntaxError (msg : string) : JsError :=
  {| name := "SyntaxError"; message := msg |}.
Definition RangeError (msg : string) : JsError :=
  {| name := "RangeError"; message := msg |}.

(** How an [async] call ends. *)
Inductive Outcome (A : Type) : Type :=
| Returned (a : A)
| Threw (e : JsError).
Arguments Returned {A} a.
Arguments Threw {A} e.

(** A parsed JSON document.  A number is kept as the text [String(n)]
    prints for it: the program never computes with one. *)
#[warnings="-register-all"]
Inductive json : Type :=
| JNull
| JBool (b : bool)
| JNum (text : string)
| JStr (s : string)
| JArr (elems : list json)
| JObj (fields : list (string * json)).

(** [JSON.parse] keeps the last of several members with the same key. *)
Fixpoint lookup (key : string) (fields : list (string * json)) : option json :=
  match fields with
  | [] => None
  | (k, v) :: rest =>
      match lookup key rest with
      | Some v' => Some v'
      | None => if String.eqb k key then Some v else None
      end
  end.

(** [v.key] for the keys the program reads ([data], [error], [status]):
    [None] is [undefined]; reading a property of [null] throws. *)
Definition getProp (v : json) (key : string) : Outcome (option json) :=
  match v with
  | JNull =>
      Threw (TypeError ("Cannot read properties of null (reading '" ++ key ++ "')")%string)
  | JObj fields => Returned (lookup key fields)
  | _ => Returned None
  end.

(** The results of steps done one after the other: all of them, or what
    the first one that throws has thrown. *)
Fixpoint allReturned {A : Type} (steps : list (Outcome A)) : Outcome (list A) :=
  match steps with
  | [] => Returned []
  | Threw err :: _ => Threw err
  | Returned a :: rest =>
      match allReturned rest with
      | Threw err => Threw err
      | Returned results => Returned (a :: results)
      end
  end.

(** [String(v)], as a template literal applies it.  An object prints
    through [Object.prototype.toString], unless it has a member [toString]
    of its own: parsed from JSON that is never a function, the conversion
    finds no primitive value, and it throws.  An array joins the strings
    of its elements, and throws where one of them does. *)
Fixpoint jsString (v : json) : Outcome string :=
  match v with
  | JNull => Returned "null"
  | JBool true => Returned "true"
  | JBool false => Returned "false"
  | JNum text => Returned text
  | JStr s => Returned s
  | JArr elems =>
      match allReturned
              (map (fun e => match e with
                             | JNull => Returned EmptyString
                             | _ => jsString e
                             end) elems) with
      | Threw err => Threw err
      | Returned parts => Returned (String.concat "," parts)
      end
  | JObj fields =>
      match lookup "toString" fields with
      | Some _ => Threw (TypeError "Cannot convert object to primitive value")
      | None => Returned "[object Object]"
      end
  end.

(** [${v}] in a template literal. *)
Definition templateString (v : option json) : Outcome string :=
  match v with
  | None => Returned "undefined"
  | Some v => jsString v
  end.

(** Truthiness, for [errorData.error || 'Unknown error']. *)
Definition truthy (v : option json) : bool :=
  match v with
  | None | Some JNull => false
  | Some (JBool b) => b
  | Some (JNum text) => negb (String.eqb text "0") && negb (String.eqb text "NaN")
  | Some (JStr s) => negb (String.eqb s EmptyString)
  | Some (JArr _) | Some (JObj _) => true
  end.

(** [s.includes(searchString)]. *)
Fixpoint includes (s searchString : string) : bool :=
  String.prefix searchString s ||
  match s with
  | EmptyString => false
  | String _ rest => includes rest searchString
  end.

(** [Number.prototype.toString] on an integer. *)
Definition ZtoString (z : Z) : string :=
  NilZero.string_of_int (Z.to_int z).

(** ** src/lib/signatureGenerator.js and src/lib/apiClient.js *)

Module ApiClient.

Record AuthHeaders : Type := mkAuthHeaders {
  timestamp : string;
  signature : string
}.

(** The options object handed to [fetch]; the body is kept as the list
    that [JSON.stringify({ sn_list: snList })] serialises. *)
Record Request : Type := mkRequest {
  fullUrl : string;
  method : string;
  contentType : string;
  headers : AuthHeaders;
  sn_list : list string
}.

(** What [response.json()] yields: the parsed body, or a rejection with a
    [SyntaxError] whose text is the engine's. *)
Inductive Body : Type :=
| Unparseable (why : string)
| Parsed (v : json).

Record Response : Type := mkResponse {
  status : Z;
  body : Body
}.

(** [response.ok]. *)
Definition ok (r : Response) : bool :=
  (200 <=? status r)%Z && (status r <=? 299)%Z.

Inductive FetchResult : Type :=
| FetchRejects (e : JsError)
| FetchResolves (r : Response).

(** What the client does to the outside world, in order. *)
Inductive Effect : Type :=
| Fetch (req : Request)
| Sleep (ms : Z).

Definition History : Type := list Effect.

(** The outside world: the digest function, the clock and the remote
    endpoint, each free to depend on everything that happened before; and
    the most arguments the JavaScript engine passes in one call (a call
    that spreads a longer array throws a [RangeError]). *)
Record Env : Type := mkEnv {
  md5 : string -> string;
  Date_now : History -> Z;
  remote : History -> Request -> FetchResult;
  maxArguments : Z
}.

Section Client.

Variable env : Env.
Variable cfg : Config.

Definition generateSignature (url token timestamp : string) : string :=
  let payload := (url ++ token ++ timestamp)%string in
  md5 env payload.

Definition generateAuthHeaders (url token : string) (h : History) : AuthHeaders :=
  let timestamp := ZtoString (Date_now env h) in
  let signature := generateSignature url token timestamp in
  {| timestamp := timestamp; signature := signature |}.

(** The options of the request that a call builds when the history is
    [h], with headers generated afresh. *)
Definition requestAt (snList : list string) (h : History) : Request :=
  let url := API_ENDPOINT cfg in
  let fullUrl := (API_BASE_URL cfg ++ url)%string in
  let authHeaders := generateAuthHeaders url (SECRET_TOKEN cfg) h in
  {| fullUrl := fullUrl;
     method := "POST";
     contentType := "application/json";
     headers := authHeaders;
     sn_list := snList |}.

(** How the [try] block of one call ends. *)
Inductive Attempt : Type :=
| Returns (data : json)
| RetriesAfter (delay : Z)
| Throws (error : JsError).

Definition backoff (retryCount : nat) : Z :=
  (INITIAL_RETRY_DELAY_MS cfg * 2 ^ Z.of_nat retryCount)%Z.

(** The body of [try], after [fetch] has settled. *)
Definition classify (result : FetchResult) (retryCount : nat) : Attempt :=
  match result with
  | FetchRejects error => Throws error
  | FetchResolves response =>
      if (status response =? 429)%Z then
        if (Z.of_nat retryCount <? MAX_RETRIES cfg)%Z
        then RetriesAfter (backoff retryCount)
        else Throws (Error_ ("Rate limit exceeded after "
                             ++ ZtoString (MAX_RETRIES cfg) ++ " retries")%string)
      else if (status response =? 401)%Z then
        match body response with
        | Unparseable why => Throws (SyntaxError why)
        | Parsed errorData =>
            match getProp errorData "error" with
            | Threw e => Throws e
            | Returned v =>
                match templateString v with
                | Threw e => Throws e
                | Returned text =>
                    Throws (Error_ ("Authentication failed: " ++ text)%string)
                end
            end
        end
      else if negb (ok response) then
        let errorData :=
          match body response with
          | Unparseable _ => JObj []
          | Parsed v => v
          end in
        match getProp errorData "error" with
        | Threw e => Throws e
        | Returned v =>
            match (if truthy v then templateString v else Returned "Unknown error") with
            | Threw e => Throws e
            | Returned text =>
                Throws (Error_ ("API Error " ++ ZtoString (status response) ++ ": "
                                ++ text)%string)
            end
        end
      else
        match body response with
        | Unparseable why => Throws (SyntaxError why)
        | Parsed data => Returns data
        end
  end.

(** [fetchDeviceData(snList, retryCount)].  A retry is a call of the
    function on itself, returned without [await]: what the inner call
    throws leaves the outer one as it is, past its [catch].  The budget
    counts the calls still allowed; [None] means it ran out. *)
Fixpoint fetchDeviceData_rec (fuel : nat) (snList : list string)
    (retryCount : nat) (h : History) : option (Outcome json * History) :=
  match fuel with
  | O => None
  | S fuel' =>
      let requestOptions := requestAt snList h in
      let h1 := h ++ [Fetch requestOptions] in
      match classify (remote env h requestOptions) retryCount with
      | Returns data => Some (Returned data, h1)
      | RetriesAfter delay =>
          fetchDeviceData_rec fuel' snList (S retryCount) (h1 ++ [Sleep delay])
      | Throws error =>
          if String.eqb (name error) "TypeError" && includes (message error) "fetch"
          then
            if (Z.of_nat retryCount <? MAX_RETRIES cfg)%Z
            then
              let delay := backoff retryCount in
              fetchDeviceData_rec fuel' snList (S retryCount) (h1 ++ [Sleep delay])
            else Some (Threw error, h1)
          else Some (Threw error, h1)
      end
  end.

(** Every call but the last raises [retryCount], and none is made once it
    has reached [MAX_RETRIES]: this many calls are always enough
    ([fetchDeviceData_total]). *)
Definition fetchDeviceData (snList : list string) (retryCount : nat) (h : History)
  : option (Outcome json * History) :=
  fetchDeviceData_rec (S (Z.to_nat (MAX_RETRIES cfg - Z.of_nat retryCount)))
    snList retryCount h.

(** The endpoint answers every request with status 429. *)
Definition always_429 : Prop :=
  forall h req, exists r, remote env h req = FetchResolves r /\ status r = 429%Z.

End Client.

(** The requests of a history, and its waits. *)
Definition attempts (h : History) : list Request :=
  flat_map (fun e => match e with Fetch req => [req] | Sleep _ => [] end) h.

Definition delays (h : History) : list Z :=
  flat_map (fun e => match e with Fetch _ => [] | Sleep ms => [ms] end) h.

(** The answers after which a call tries again: status 429, and a
    rejection of [fetch] with a [TypeError] whose message speaks of
    [fetch]. *)
Definition retryable (result : FetchResult) : bool :=
  match result with
  | FetchRejects e => String.eqb (name e) "TypeError" && includes (message e) "fetch"
  | FetchResolves r => (status r =? 429)%Z
  end.

Section Retries.

Variable env : Env.
Variable cfg : Config.

(** What a call throws on such an answer when no retry is left. *)
Definition lastWord (result : FetchResult) : JsError :=
  match result with
  | FetchRejects e => e
  | FetchResolves _ =>
      Error_ ("Rate limit exceeded after " ++ ZtoString (MAX_RETRIES cfg) ++ " retries")%string
  end.

(** What a call makes of an answer when it does not try again. *)
Definition verdict (result : FetchResult) : Outcome json :=
  match classify cfg result 0 with
  | Returns data => Returned data
  | Throws e => Threw e
  | RetriesAfter _ => Threw (lastWord result)
  end.

(** The history after [n] attempts that were each followed by a wait,
    the first of them made with retry count [retryCount] on history [h]. *)
Fixpoint retried (snList : list string) (retryCount n : nat) (h : History) : History :=
  match n with
  | O => h
  | S n' =>
      retried snList (S retryCount) n'
        (h ++ [Fetch (requestAt env cfg snList h); Sleep (backoff cfg retryCount)])
  end.

(** An endpoint that answers by a script: its [k]-th answer, counting
    every request made so far, is [script k]. *)
Definition scripted (script : nat -> FetchResult) : Prop :=
  forall h req, remote env h req = script (List.length (attempts h)).

(** An endpoint that answers every request with a success status and a
    body whose [data] holds one record for each identifier asked for, in
    the order asked, each under its [sn], as the mock API does. *)
Definition answersAll : Prop :=
  forall h req,
  exists r v data,
    remote env h req = FetchResolves r
    /\ ok r = true
    /\ body r = Parsed v
    /\ getProp v "data" = Returned (Some (JArr data))
    /\ map (fun device => getProp device "sn") data
       = map (fun sn => Returned (Some (JStr sn))) (sn_list req).

End Retries.

End ApiClient.

(** ** Order and spacing of events *)

(** Consecutive times are at least [gap] apart. *)
Definition spaced (gap : Z) (times : list Z) : Prop :=
  forall n t1 t2,
    nth_error times n = Some t1 ->
    nth_error times (S n) = Some t2 ->
    (t1 + gap <= t2)%Z.

(** [l1] is [l2] with some elements left out, the others in their order. *)
Inductive Subsequence {A : Type} : list A -> list A -> Prop :=
| Subsequence_nil : Subsequence [] []
| Subsequence_skip x l1 l2 : Subsequence l1 l2 -> Subsequence l1 (x :: l2)
| Subsequence_take x l1 l2 : Subsequence l1 l2 -> Subsequence (x :: l1) (x :: l2).

(** ** src/lib/rateLimiter.js *)

Module RateLimiter.

Section Limiter.

(** The functions callers submit and the values their promises carry. *)
Context {Task Value : Type}.

(** How the promise returned by a task settles. *)
Inductive Settlement : Type :=
| Resolved (result : Value)
| Rejected (error : JsError).

(** A queue entry [{ fn, resolve, reject }]: [resolve] and [reject] settle
    the promise that this call of [execute] created, named by [handle]. *)
Record Item : Type := mkItem {
  fn : Task;
  handle : nat
}.

(** Where the one running activation of [processQueue] stands: not
    running; suspended in [await this.sleep(waitTime)] on a timer due at
    [deadline]; between the wait and the statements of [try]; suspended in
    [await fn()]. *)
Inductive Worker : Type :=
| Idle
| Sleeping (item : Item) (deadline : Z)
| Ready (item : Item)
| Running (item : Item).

(** The fields of the object, the continuation of its worker, the clock
    that [Date.now()] reads, and a record of what has happened: the
    submissions, the executions begun with their start times, and the
    promises settled. *)
Record State : Type := mkState {
  intervalMs : Z;
  lastRequestTime : Z;
  queue : list Item;
  processing : bool;
  worker : Worker;
  clock : Z;
  nextHandle : nat;
  submitted : list Item;
  started : list (Item * Z);
  settled : list (nat * Settlement)
}.

(** [new RateLimiter(intervalMs)], created when the clock reads [now]. *)
Definition new_RateLimiter (intervalMs now : Z) : State :=
  {| intervalMs := intervalMs;
     lastRequestTime := 0;
     queue := [];
     processing := false;
     worker := Idle;
     clock := now;
     nextHandle := 0;
     submitted := [];
     started := [];
     settled := [] |}.

Definition set_queue (q : list Item) (s : State) : State :=
  mkState (intervalMs s) (lastRequestTime s) q (processing s) (worker s)
          (clock s) (nextHandle s) (submitted s) (started s) (settled s).

Definition set_processing (b : bool) (s : State) : State :=
  mkState (intervalMs s) (lastRequestTime s) (queue s) b (worker s)
          (clock s) (nextHandle s) (submitted s) (started s) (settled s).

Definition set_worker (w : Worker) (s : State) : State :=
  mkState (intervalMs s) (lastRequestTime s) (queue s) (processing s) w
          (clock s) (nextHandle s) (submitted s) (started s) (settled s).

Definition set_clock (t : Z) (s : State) : State :=
  mkState (intervalMs s) (lastRequestTime s) (queue s) (processing s) (worker s)
          t (nextHandle s) (submitted s) (started s) (settled s).

Definition set_lastRequestTime (t : Z) (s : State) : State :=
  mkState (intervalMs s) t (queue s) (processing s) (worker s)
          (clock s) (nextHandle s) (submitted s) (started s) (settled s).

(** [new Promise(...)] in [execute]: a fresh handle, and the submission
    goes on record. *)
Definition new_Promise (f : Task) (s : State) : Item * State :=
  let item := {| fn := f; handle := nextHandle s |} in
  (item,
   mkState (intervalMs s) (lastRequestTime s) (queue s) (processing s) (worker s)
           (clock s) (S (nextHandle s)) (submitted s ++ [item]) (started s)
           (settled s)).

Definition record_start (item : Item) (s : State) : State :=
  mkState (intervalMs s) (lastRequestTime s) (queue s) (processing s) (worker s)
          (clock s) (nextHandle s) (submitted s) (started s ++ [(item, clock s)])
          (settled s).

Definition record_settled (item : Item) (r : Settlement) (s : State) : State :=
  mkState (intervalMs s) (lastRequestTime s) (queue s) (processing s) (worker s)
          (clock s) (nextHandle s) (submitted s) (started s)
          (settled s ++ [(handle item, r)]).

(** The [while] loop of [processQueue] from its test to the next [await]:
    with the queue empty the worker ends and clears [processing];
    otherwise it shifts the head and either goes to sleep for [waitTime]
    or, when there is nothing to wait for, moves on to the [try]. *)
Definition processQueue_loop (s : State) : State :=
  match queue s with
  | [] => set_worker Idle (set_processing false s)
  | item :: rest =>
      let s := set_queue rest s in
      let now := clock s in
      let elapsed := (now - lastRequestTime s)%Z in
      let waitTime := Z.max 0 (intervalMs s - elapsed) in
      if (0 <? waitTime)%Z
      then set_worker (Sleeping item (now + waitTime)%Z) s
      else set_worker (Ready item) s
  end.

(** [processQueue()] as [execute] calls it. *)
Definition processQueue (s : State) : State :=
  if processing s || (List.length (queue s) =? 0)%nat
  then s
  else processQueue_loop (set_processing true s).

(** [this.lastRequestTime = Date.now(); ... fn()]: execution begins. *)
Definition begin (item : Item) (s : State) : State :=
  let s := set_lastRequestTime (clock s) s in
  set_worker (Running item) (record_start item s).

(** What can happen to a limiter.  JavaScript runs each turn to its next
    [await] without interruption, so a call of [execute] or [clear] cannot
    fall between the worker's last reading of the clock and the start of
    the task; time can pass anywhere.  The clock never runs backwards.
    The worker does not read the clock again after [sleep]: it goes on
    whenever the runtime wakes it, which can be when [Date.now()] has
    reached the deadline ([TimerFires]) or while it is still [short] or
    fewer milliseconds away ([TimerFiresEarly]; [setTimeout] counts on a
    clock of its own, and replaces a delay above 2^31 - 1 by 1). *)
Inductive Event : Type :=
| Execute (f : Task)          (* a caller invokes [execute(f)] *)
| Clear                       (* a caller invokes [clear()] *)
| Elapse (ms : nat)           (* [ms] milliseconds pass *)
| TimerFires                  (* the timer of [sleep] wakes the worker, on time *)
| Begin                       (* the worker enters [try] *)
| Settles (r : Settlement)    (* the promise of the running task settles *)
| TimerFiresEarly (short : Z). (* the timer wakes the worker before it is due *)

Definition step (e : Event) (s : State) : option State :=
  match e with
  | Execute f =>
      match worker s with
      | Ready _ => None
      | _ =>
          let (item, s) := new_Promise f s in
          let s := set_queue (queue s ++ [item]) s in
          Some (processQueue s)
      end
  | Clear =>
      match worker s with
      | Ready _ => None
      | _ => Some (set_queue [] s)
      end
  | Elapse ms => Some (set_clock (clock s + Z.of_nat ms)%Z s)
  | TimerFires =>
      match worker s with
      | Sleeping item deadline =>
          if (deadline <=? clock s)%Z then Some (set_worker (Ready item) s) else None
      | _ => None
      end
  | Begin =>
      match worker s with
      | Ready item => Some (begin item s)
      | _ => None
      end
  | Settles r =>
      match worker s with
      | Running item => Some (processQueue_loop (record_settled item r s))
      | _ => None
      end
  | TimerFiresEarly short =>
      match worker s with
      | Sleeping item deadline =>
          if (clock s <? deadline)%Z && (deadline <=? clock s + short)%Z
          then Some (set_worker (Ready item) s) else None
      | _ => None
      end
  end.

(** By how much an event has the worker go on before its deadline. *)
Definition earliness (e : Event) : Z :=
  match e with
  | TimerFiresEarly short => short
  | _ => 0%Z
  end.

(** A whole history of events, from the first. *)
Fixpoint run (events : list Event) (s : State) : option State :=
  match events with
  | [] => Some s
  | e :: rest =>
      match step e s with
      | Some s' => run rest s'
      | None => None
      end
  end.

(** The functions handed to [execute] in a history of events, in the
    order of the calls. *)
Definition submissions (events : list Event) : list Task :=
  flat_map (fun e => match e with Execute f => [f] | _ => [] end) events.

(** The recorded start times, in order of execution. *)
Definition startTimes (s : State) : list Z := map snd (started s).

(** The items in the order in which their execution began. *)
Definition executionOrder (s : State) : list Item := map fst (started s).

Definition settledHandles (s : State) : list nat := map fst (settled s).

(** The item the worker has taken from the queue and not yet begun to
    execute. *)
Definition waiting (s : State) : list Item :=
  match worker s with
  | Sleeping item _ | Ready item => [item]
  | Idle | Running _ => []
  end.

(** Everything submitted that has begun or can still begin to execute. *)
Definition lineup (s : State) : list Item :=
  executionOrder s ++ waiting s ++ queue s.

(** A promise no part of the limiter holds any more: its item was
    submitted, has not begun to execute, and is neither in the worker's
    hand nor in the queue. *)
Definition abandoned (h : nat) (s : State) : Prop :=
  h < nextHandle s /\ ~ In h (map handle (lineup s)).

(** A limiter with nothing to do. *)
Definition atRest (s : State) : Prop :=
  worker s = Idle /\ queue s = [] /\ processing s = false.

(** What happens to a limiter at rest when a caller submits [f] and awaits
    the result before it does anything else, as the orchestrator's loop
    does with each batch: the worker takes the task at once; if something
    is left of the interval it sleeps until the runtime wakes it, [ms]
    milliseconds later, be that on time or early; it begins the task, and
    the task settles with [r]. *)
Definition awaited (f : Task) (r : Settlement) (ms : nat) (s : State) : list Event :=
  let waitTime := Z.max 0 (intervalMs s - (clock s - lastRequestTime s)) in
  [Execute f]
  ++ (if (0 <? waitTime)%Z
      then [Elapse ms;
            if (waitTime <=? Z.of_nat ms)%Z then TimerFires
            else TimerFiresEarly (waitTime - Z.of_nat ms)]
      else [])
  ++ [Begin; Settles r].

(** The item the worker has taken from the queue and not finished. *)
Definition inHand (s : State) : list Item :=
  match worker s with
  | Idle => []
  | Sleeping item _ | Ready item | Running item => [item]
  end.

(** [getQueueLength()]. *)
Definition getQueueLength (s : State) : nat := List.length (queue s).

(** The handle of the task the worker is awaiting, if it awaits one. *)
Definition runningHandle (s : State) : list nat :=
  match worker s with
  | Running item => [handle item]
  | Idle | Sleeping _ _ | Ready _ => []
  end.

(** The events in which no caller takes part. *)
Definition internal (e : Event) : Prop :=
  match e with
  | Execute _ | Clear => False
  | Elapse _ | TimerFires | Begin | Settles _ | TimerFiresEarly _ => True
  end.

(** What else the worker maintains: an idle worker has left nothing in
    the queue; [lastRequestTime] is the latest start on record; a sleeping
    worker is due exactly one interval after it; every task that began has
    had its promise settled, in the order of execution, but the one being
    awaited. *)
Definition tidy (s : State) : Prop :=
  (worker s = Idle -> queue s = [] /\ processing s = false)
  /\ lastRequestTime s = last (startTimes s) 0%Z
  /\ (forall item deadline,
        worker s = Sleeping item deadline ->
        deadline = (lastRequestTime s + intervalMs s)%Z)
  /\ map handle (executionOrder s) = settledHandles s ++ runningHandle s.

(** When no timer wakes the worker more than [early] milliseconds before
    its deadline, and the interval is at least that long: no task starts
    sooner than the interval less [early] after time 0, where
    [lastRequestTime] starts; a sleeping worker is due one interval after
    [lastRequestTime], and a worker about to start a task has that much,
    less [early], behind it. *)
Definition onTime (early : Z) (s : State) : Prop :=
  (early <= intervalMs s)%Z
  /\ (0 <= lastRequestTime s)%Z
  /\ Forall (fun t => (intervalMs s - early <= t)%Z) (startTimes s)
  /\ match worker s with
     | Sleeping _ deadline => (lastRequestTime s + intervalMs s <= deadline)%Z
     | Ready _ => (lastRequestTime s + intervalMs s - early <= clock s)%Z
     | Idle | Running _ => True
     end.

(** The spacing the worker maintains when no timer wakes it more than
    [early] milliseconds before its deadline: the starts on record keep
    the interval less [early], none is later than [lastRequestTime] or the
    clock, a sleeping worker is due no sooner than one interval after
    every start, and a worker about to start a task does so no sooner than
    that, less [early]. *)
Definition paced (early : Z) (s : State) : Prop :=
  spaced (intervalMs s - early) (startTimes s)
  /\ Forall (fun t => (t <= lastRequestTime s <= clock s)%Z) (startTimes s)
  /\ match worker s with
     | Sleeping _ deadline =>
         Forall (fun t => (t + intervalMs s <= deadline)%Z) (startTimes s)
     | Ready _ =>
         Forall (fun t => (t + intervalMs s - early <= clock s)%Z) (startTimes s)
     | Idle | Running _ => True
     end.

(** The bookkeeping the worker maintains: it is idle whenever
    [processing] is off; handles number the submissions; what has run or
    can still run is in submission order; only promises of tasks that
    began to execute are settled; the task awaited is one of those. *)
Definition ordered (s : State) : Prop :=
  (processing s = false -> worker s = Idle)
  /\ map handle (submitted s) = seq 0 (nextHandle s)
  /\ Subsequence (lineup s) (submitted s)
  /\ incl (settledHandles s) (map handle (executionOrder s))
  /\ match worker s with
     | Running item => In item (executionOrder s)
     | _ => True
     end.

End Limiter.

End RateLimiter.

(** ** src/services/aggregator.js *)

Module Aggregator.

(** An entry of [errors]. *)
Record BatchError : Type := mkBatchError {
  batch : nat;
  serialNumbers : list string;
  error : string
}.

(** The argument of [onProgress].  [progress] is kept as the fraction
    [(i + 1) / totalBatches] that the source prints as a percentage. *)
Module ProgressEvent.
Record t : Type := mk {
  batchIndex : nat;
  totalBatches : nat;
  batchResults : list json;
  progress : nat * nat;
  successCount : Z;
  onlineCount : Z;
  offlineCount : Z
}.
End ProgressEvent.

(** [report.summary], without the fields read off the wall clock
    ([durationSeconds], [averageRequestTime], [timestamp]). *)
Record Summary : Type := mkSummary {
  totalDevices : Z;
  successfulFetches : Z;
  failedFetches : Z;
  onlineDevices : Z;
  offlineDevices : Z;
  totalBatches : nat;
  errorsCount : nat
}.

(** [errors] is [None] where the source leaves [undefined]. *)
Record Report : Type := mkReport {
  summary : Summary;
  devices : list json;
  errors : option (list BatchError)
}.

(** The variables of [aggregateDeviceData] that its loop updates, with a
    record of the batches handed to the rate limiter, of the progress
    events delivered, and of the client's traffic. *)
Record Run : Type := mkRun {
  allResults : list json;
  errorList : list BatchError;
  successCount : Z;
  onlineCount : Z;
  offlineCount : Z;
  submittedBatches : list (list string);
  delivered : list ProgressEvent.t;
  history : ApiClient.History
}.

Definition Callback : Type := ProgressEvent.t -> option JsError.

(** The counts a progress event carries. *)
Definition tally (event : ProgressEvent.t) : Z * Z * Z :=
  (ProgressEvent.successCount event, ProgressEvent.onlineCount event,
   ProgressEvent.offlineCount event).

Section Orchestrator.

Variable env : ApiClient.Env.
Variable cfg : Config.

(** [onProgress]: absent, or a callback that returns ([None]) or throws. *)
Variable onProgress : option Callback.

(** [response.data.forEach(device => ...)]: counting stops where reading
    [device.status] throws. *)
Fixpoint forEach_status (data : list json) (online offline : Z)
  : Z * Z * option JsError :=
  match data with
  | [] => (online, offline, None)
  | device :: rest =>
      match getProp device "status" with
      | Threw e => (online, offline, Some e)
      | Returned (Some (JStr s)) =>
          if String.eqb s "Online"
          then forEach_status rest (online + 1)%Z offline
          else forEach_status rest online (offline + 1)%Z
      | Returned _ => forEach_status rest online (offline + 1)%Z
      end
  end.

(** The [catch] block of the loop body. *)
Definition catch (i : nat) (batch : list string) (e : JsError) (r : Run) : Run :=
  mkRun (allResults r)
        (errorList r ++ [{| batch := i + 1; serialNumbers := batch; error := message e |}])
        (successCount r) (onlineCount r) (offlineCount r)
        (submittedBatches r) (delivered r) (history r).

(** The [try] block after [await rateLimiter.execute(...)] has returned
    [response].  [allResults.push(...response.data)] passes every record
    as an argument of one call, which the engine refuses for an array
    longer than it can pass, before anything is pushed. *)
Definition onResponse (i totalBatches : nat) (batch : list string)
    (response : json) (r : Run) : Run :=
  match getProp response "data" with
  | Threw e => catch i batch e r
  | Returned (Some (JArr data)) =>
      if (ApiClient.maxArguments env <? Z.of_nat (List.length data))%Z
      then catch i batch (RangeError "Maximum call stack size exceeded") r
      else
      let allResults := allResults r ++ data in
      let successCount := (successCount r + Z.of_nat (List.length data))%Z in
      let '(onlineCount, offlineCount, thrown) :=
        forEach_status data (onlineCount r) (offlineCount r) in
      let r := mkRun allResults (errorList r) successCount onlineCount offlineCount
                     (submittedBatches r) (delivered r) (history r) in
      match thrown with
      | Some e => catch i batch e r
      | None =>
          match onProgress with
          | Some callback =>
              let event :=
                {| ProgressEvent.batchIndex := i;
                   ProgressEvent.totalBatches := totalBatches;
                   ProgressEvent.batchResults := data;
                   ProgressEvent.progress := (i + 1, totalBatches);
                   ProgressEvent.successCount := successCount;
                   ProgressEvent.onlineCount := onlineCount;
                   ProgressEvent.offlineCount := offlineCount |} in
              let r := mkRun allResults (errorList r) successCount onlineCount
                             offlineCount (submittedBatches r)
                             (delivered r ++ [event]) (history r) in
              match callback event with
              | Some e => catch i batch e r
              | None => r
              end
          | None => r
          end
      end
  | Returned _ => r
  end.

(** One turn of the loop.  The limiter's worker settles every promise
    with the outcome of its own task (see [RateLimiter.step] and
    [RateLimiter.awaited]), so what [await rateLimiter.execute(...)] yields
    is what [fetchDeviceData(batch)] does; the submission is put on
    record. *)
Definition processBatch (i totalBatches : nat) (batch : list string) (r : Run)
  : option Run :=
  let r := mkRun (allResults r) (errorList r) (successCount r) (onlineCount r)
                 (offlineCount r) (submittedBatches r ++ [batch]) (delivered r)
                 (history r) in
  match ApiClient.fetchDeviceData env cfg batch 0 (history r) with
  | None => None
  | Some (outcome, h) =>
      let r := mkRun (allResults r) (errorList r) (successCount r) (onlineCount r)
                     (offlineCount r) (submittedBatches r) (delivered r) h in
      Some match outcome with
           | Returned response => onResponse i totalBatches batch response r
           | Threw e => catch i batch e r
           end
  end.

(** [for (let i = 0; i < batches.length; i++)], from index [i] on. *)
Fixpoint loop (i totalBatches : nat) (batches : list (list string)) (r : Run)
  : option Run :=
  match batches with
  | [] => Some r
  | batch :: rest =>
      match processBatch i totalBatches batch r with
      | Some r' => loop (S i) totalBatches rest r'
      | None => None
      end
  end.

Definition makeReport (totalDevices totalBatches : nat) (r : Run) : Report :=
  {| summary :=
       {| totalDevices := Z.of_nat totalDevices;
          successfulFetches := successCount r;
          failedFetches := (Z.of_nat totalDevices - successCount r)%Z;
          onlineDevices := onlineCount r;
          offlineDevices := offlineCount r;
          totalBatches := totalBatches;
          errorsCount := List.length (errorList r) |};
     devices := allResults r;
     errors := if (0 <? List.length (errorList r))%nat
               then Some (errorList r) else None |}.

Definition start (h : ApiClient.History) : Run :=
  {| allResults := [];
     errorList := [];
     successCount := 0;
     onlineCount := 0;
     offlineCount := 0;
     submittedBatches := [];
     delivered := [];
     history := h |}.

(** [aggregateDeviceData(onProgress)]: the report, and the final state of
    the run for what the report does not show. *)
Definition aggregateDeviceData (h : ApiClient.History) : option (Report * Run) :=
  match BatchProcessor.prepareBatches_default cfg with
  | None => None
  | Some plan =>
      let batches := BatchProcessor.batches plan in
      let totalDevices := BatchProcessor.totalDevices plan in
      let totalBatches := BatchProcessor.totalBatches plan in
      match loop 0 totalBatches batches (start h) with
      | None => None
      | Some r => Some (makeReport totalDevices totalBatches r, r)
      end
  end.

(** The run as it stands when the loop arrives at batch [i]. *)
Definition reach (i : nat) (h : ApiClient.History) : option Run :=
  match BatchProcessor.prepareBatches_default cfg with
  | None => None
  | Some plan =>
      loop 0 (BatchProcessor.totalBatches plan)
           (firstn i (BatchProcessor.batches plan)) (start h)
  end.

(** In the spec's words, the DeviceRecords obtained from a batch: those
    of the [data] array of the answer when the fetch of the batch returns
    one that [allResults] takes; none from any other batch. *)
Definition recordsObtained (outcome : Outcome json) : list json :=
  match outcome with
  | Returned response =>
      match getProp response "data" with
      | Returned (Some (JArr data)) =>
          if (ApiClient.maxArguments env <? Z.of_nat (List.length data))%Z
          then [] else data
      | _ => []
      end
  | Threw _ => []
  end.

(** In the spec's words, the cumulative DeviceRecords of the batches,
    each fetched when the one before is done, from history [h] on; with
    the history at the end. *)
Fixpoint cumulativeRecords (batches : list (list string)) (h : ApiClient.History)
  : option (list json * ApiClient.History) :=
  match batches with
  | [] => Some ([], h)
  | batch :: rest =>
      match ApiClient.fetchDeviceData env cfg batch 0 h with
      | None => None
      | Some (outcome, h') =>
          match cumulativeRecords rest h' with
          | None => None
          | Some (records, final) => Some (recordsObtained outcome ++ records, final)
          end
      end
  end.

End Orchestrator.

End Aggregator.

(** ** src/production.js: the mock API mounted at [/device]

    [cors], [express.json()] and [express.static] are mounted before the
    handlers of [/device] and answer some requests themselves (a
    preflight; a body that does not parse, with 400; a body over the
    parser's limit, with 413; a file).  Such a request reaches none of the
    handlers below and leaves [lastRequestTime] as it is. *)

Module MockApi.

Import ApiClient.

Definition SECRET_TOKEN : string := "interview_token_123".

(** Where Express takes a request once the two middlewares of [/device]
    have let it through: to [POST /device/real/query], or past every
    route, where its final handler answers 404. *)
Inductive Route : Type :=
| QueryEndpoint
| Unmatched.

(** [req.body] as the parsers left it: an object, of which the endpoint
    reads [sn_list] ([None] where it has none; a request that no parser
    took has the empty object in Express 4), or [undefined] (what Express 5
    leaves to a request that no parser took). *)
Inductive RequestBody : Type :=
| Members (sn_list : option json)
| NoBody.

(** A request under [/device] as the handlers see it: the URL as it was
    requested, the two headers ([None] is [undefined]), [req.body], the
    route Express matches, and the page with which Express's final
    handler answers what no route takes or what a handler throws, as
    [response.json()] takes it. *)
Record Incoming : Type := mkIncoming {
  originalUrl : string;
  signatureHeader : option string;
  timestampHeader : option string;
  req_body : RequestBody;
  route : Route;
  page : Body
}.

(** What [Math.random()] and [new Date()] come to for one device:
    [(Math.random() * 5).toFixed(2)], [Math.random() > 0.1] and
    [new Date().toISOString()]. *)
Record Draw : Type := mkDraw {
  power : string;
  online : bool;
  last_updated : string
}.

(** [res.status(code).json({ error: text })]. *)
Definition refuse (code : Z) (text : string) : Response :=
  {| status := code; body := Parsed (JObj [("error", JStr text)]) |}.

(** [!header]: the header is absent or empty. *)
Definition isFalsy (header : option string) : bool :=
  match header with
  | None => true
  | Some s => String.eqb s ""
  end.

(** A header as string concatenation and [!==] take it. *)
Definition headerText (header : option string) : string :=
  match header with
  | None => "undefined"
  | Some s => s
  end.

Section Server.

Variable md5 : string -> string.

(** The rate-limiter middleware on a request that arrives at [now]: the
    response that ends the request, or [None] for [next()]; and
    [lastRequestTime] as it leaves it. *)
Definition rateLimiter (now lastRequestTime : Z) : option Response * Z :=
  if (now - lastRequestTime <? 950)%Z
  then (Some (refuse 429 "Too Many Requests. Limit: 1 req/sec."), lastRequestTime)
  else (None, now).

(** The security middleware. *)
Definition security (req : Incoming) : option Response :=
  let signature := signatureHeader req in
  let timestamp := timestampHeader req in
  let url := originalUrl req in
  if isFalsy timestamp || isFalsy signature
  then Some (refuse 401 "Missing headers: signature or timestamp")
  else
    let expectedSig := md5 (url ++ SECRET_TOKEN ++ headerText timestamp)%string in
    if negb (String.eqb (headerText signature) expectedSig)
    then Some (refuse 401 "Invalid Signature")
    else None.

(** [sn_list.map((sn) => ({ sn, power, status, last_updated }))], the
    [k]-th device taking the [k]-th draw. *)
Fixpoint readings (draws : nat -> Draw) (k : nat) (sn_list : list json) : list json :=
  match sn_list with
  | [] => []
  | sn :: rest =>
      JObj [("sn", sn);
            ("power", JStr (power (draws k) ++ " kW")%string);
            ("status", JStr (if online (draws k) then "Online" else "Offline"));
            ("last_updated", JStr (last_updated (draws k)))]
      :: readings draws (S k) rest
  end.

(** The device query endpoint.  With [req.body] undefined the
    destructuring [const { sn_list } = req.body] throws, and Express
    answers 500. *)
Definition query (draws : nat -> Draw) (req : Incoming) : Response :=
  match req_body req with
  | NoBody => {| status := 500; body := page req |}
  | Members (Some (JArr sn_list)) =>
      if (10 <? List.length sn_list)%nat
      then refuse 400 "Batch size limit exceeded (Max 10)"
      else
        let results := readings draws 0 sn_list in
        {| status := 200; body := Parsed (JObj [("data", JArr results)]) |}
  | Members _ => refuse 400 "sn_list array is required"
  end.

(** The two middlewares of [/device] and what comes after them, in the
    order they are mounted. *)
Definition handle (now : Z) (draws : nat -> Draw) (req : Incoming)
    (lastRequestTime : Z) : Response * Z :=
  match rateLimiter now lastRequestTime with
  | (Some res, lastRequestTime) => (res, lastRequestTime)
  | (None, lastRequestTime) =>
      match security req with
      | Some res => (res, lastRequestTime)
      | None =>
          match route req with
          | QueryEndpoint => (query draws req, lastRequestTime)
          | Unmatched => ({| status := 404; body := page req |}, lastRequestTime)
          end
      end
  end.

(** A request with the moment it arrives: one that is answered before
    the handlers of [/device] (by [cors], the body parser or the static
    files) or lies outside [/device], with the answer it gets there; or
    one that reaches the handlers, with the draws it gets. *)
Inductive Arrival : Type :=
| StoppedShort (at_ : Z) (res : Response)
| Reaches (at_ : Z) (draws : nat -> Draw) (req : Incoming).

Definition arrivedAt (a : Arrival) : Z :=
  match a with
  | StoppedShort at_ _ | Reaches at_ _ _ => at_
  end.

(** The requests served one after the other. *)
Fixpoint serve (arrivals : list Arrival) (lastRequestTime : Z)
  : list Response * Z :=
  match arrivals with
  | [] => ([], lastRequestTime)
  | a :: rest =>
      let '(res, lastRequestTime) :=
        match a with
        | StoppedShort _ res => (res, lastRequestTime)
        | Reaches at_ draws req => handle at_ draws req lastRequestTime
        end in
      let '(answers, final) := serve rest lastRequestTime in
      (res :: answers, final)
  end.

End Server.

(** The arrival times of the requests that reached the handlers and were
    not answered 429. *)
Fixpoint admitted (arrivals : list Arrival) (answers : list Response) : list Z :=
  match arrivals, answers with
  | a :: arrivals, res :: answers =>
      match a with
      | StoppedShort _ _ => admitted arrivals answers
      | Reaches at_ _ _ =>
          if (status res =? 429)%Z then admitted arrivals answers
          else at_ :: admitted arrivals answers
      end
  | _, _ => []
  end.

(** The arrival times of the requests that reached the handlers. *)
Definition reaching (arrivals : list Arrival) : list Z :=
  flat_map (fun a => match a with
                     | StoppedShort _ _ => []
                     | Reaches at_ _ _ => [at_]
                     end) arrivals.

(** [incoming] is the request [req] of the client as it reaches the
    handlers at the query endpoint: the path requested is [API_ENDPOINT],
    the two headers are the client's, and [express.json()] has parsed the
    body [{ sn_list: snList }] that [JSON.stringify] wrote. *)
Definition delivers (cfg : Config) (req : Request) (incoming : Incoming) : Prop :=
  originalUrl incoming = API_ENDPOINT cfg
  /\ route incoming = QueryEndpoint
  /\ signatureHeader incoming = Some (signature (headers req))
  /\ timestampHeader incoming = Some (timestamp (headers req))
  /\ req_body incoming = Members (Some (JArr (map JStr (sn_list req)))).

End MockApi.

(** ** src/index.js and src/production.js: the dashboard's [/api] routes *)

Module Dashboard.

(** [aggregationState.progress]: 0, the fraction of the batches done that
    the last progress event printed as its percentage, or 100. *)
Inductive Progress : Type :=
| Zero
| Batches (done total : nat)
| Hundred.

(** An entry of [aggregationState.errors]: one of [report.errors], or the
    [{ message }] that the handler's own [catch] pushes. *)
Inductive ErrorEntry : Type :=
| OfBatch (e : Aggregator.BatchError)
| OfRun (message : string).

(** [aggregationState]; [None] where a property has not been set. *)
Record State : Type := mkState {
  isRunning : bool;
  progress : Progress;
  devices : list json;
  summary : option Aggregator.Summary;
  errors : list ErrorEntry;
  startTime : option Z;
  onlineCount : option Z;
  offlineCount : option Z;
  successCount : option Z
}.

(** The status and the text of a reply. *)
Record Reply : Type := mkReply {
  code : Z;
  text : string
}.

Definition initial : State :=
  {| isRunning := false; progress := Zero; devices := []; summary := None;
     errors := []; startTime := None;
     onlineCount := None; offlineCount := None; successCount := None |}.

(** [GET /api/status]. *)
Definition getStatus (st : State) : State := st.

(** [POST /api/aggregate], up to its [await]. *)
Definition postAggregate_begin (now : Z) (st : State) : Reply * State :=
  if isRunning st
  then ({| code := 409; text := "Aggregation already in progress" |}, st)
  else ({| code := 200; text := "Aggregation started" |},
        {| isRunning := true; progress := Zero; devices := []; summary := None;
           errors := []; startTime := Some now;
           onlineCount := None; offlineCount := None; successCount := None |}).

(** The callback handed to [aggregateDeviceData]; it throws nothing. *)
Definition onProgress (progressData : Aggregator.ProgressEvent.t) (st : State) : State :=
  {| isRunning := isRunning st;
     progress := Batches (fst (Aggregator.ProgressEvent.progress progressData))
                         (snd (Aggregator.ProgressEvent.progress progressData));
     devices := devices st ++ Aggregator.ProgressEvent.batchResults progressData;
     summary := summary st;
     errors := errors st;
     startTime := startTime st;
     onlineCount := Some (Aggregator.ProgressEvent.onlineCount progressData);
     offlineCount := Some (Aggregator.ProgressEvent.offlineCount progressData);
     successCount := Some (Aggregator.ProgressEvent.successCount progressData) |}.

(** The counts the dashboard takes from a progress event. *)
Definition shown (event : Aggregator.ProgressEvent.t) : option Z * option Z * option Z :=
  (Some (Aggregator.ProgressEvent.successCount event),
   Some (Aggregator.ProgressEvent.onlineCount event),
   Some (Aggregator.ProgressEvent.offlineCount event)).

(** [POST /api/aggregate], after [await] has returned [report]. *)
Definition postAggregate_end (report : Aggregator.Report) (st : State) : State :=
  {| isRunning := false;
     progress := Hundred;
     devices := devices st;
     summary := Some (Aggregator.summary report);
     errors := match Aggregator.errors report with
               | Some errs => map OfBatch errs
               | None => []
               end;
     startTime := startTime st;
     onlineCount := onlineCount st;
     offlineCount := offlineCount st;
     successCount := successCount st |}.

(** [POST /api/reset]. *)
Definition postReset (st : State) : Reply * State :=
  if isRunning st
  then ({| code := 409; text := "Cannot reset while aggregation is running" |}, st)
  else ({| code := 200; text := "State reset successfully" |}, initial).

Section Routes.

Variable env : ApiClient.Env.
Variable cfg : Config.

(** The state while a run is under way, once the callback has been
    called with the first [k] progress events of the run. *)
Definition during (events : list Aggregator.ProgressEvent.t) (k : nat) (st : State)
  : State :=
  fold_left (fun st progressData => onProgress progressData st) (firstn k events) st.

(** [POST /api/aggregate] from the request to the end of the run: the
    reply, and the state left.  The callback only assigns to
    [aggregationState] and throws nothing, so the run is given a callback
    that returns, and the state at the end is what [onProgress] has made of
    it over the progress events of the run, in their order.  No request
    can rebind [aggregationState] meanwhile: while [isRunning] holds the
    other routes leave it alone. *)
Definition postAggregate (now : Z) (h : ApiClient.History) (st : State)
  : option (Reply * State) :=
  let '(reply, st1) := postAggregate_begin now st in
  if isRunning st then Some (reply, st1)
  else
    match Aggregator.aggregateDeviceData env cfg (Some (fun _ => None)) h with
    | None => None
    | Some (report, final) =>
        let events := Aggregator.delivered final in
        Some (reply, postAggregate_end report (during events (List.length events) st1))
    end.

End Routes.

End Dashboard.

(** ** Scenarios *)

Module Scenario.

Import ApiClient.

(** A stand-in for the digest; no branch of the client looks at it. *)
Definition plainDigest (payload : string) : string := payload.

(** A clock that starts at a fixed instant and advances by the waits. *)
Definition clockOf (h : History) : Z :=
  fold_right Z.add 1707050690123%Z (delays h).

(** An endpoint that gives the same answer to every request. *)
Definition answering (r : Response) : Env :=
  {| md5 := plainDigest;
     Date_now := clockOf;
     remote := fun _ _ => FetchResolves r;
     maxArguments := 125000 |}.

(** The answers of the mock API in src/production.js. *)
Definition tooManyRequests : Response :=
  {| status := 429;
     body := Parsed (JObj [("error", JStr "Too Many Requests. Limit: 1 req/sec.")]) |}.

Definition invalidSignature : Response :=
  {| status := 401;
     body := Parsed (JObj [("error", JStr "Invalid Signature")]) |}.

Definition deviceRecord (sn : string) : json :=
  JObj [("sn", JStr sn); ("power", JStr "2.50 kW"); ("status", JStr "Online");
        ("last_updated", JStr "2024-02-04T12:44:50.123Z")].

Definition mockApi : Env :=
  {| md5 := plainDigest;
     Date_now := clockOf;
     remote := fun _ req =>
       FetchResolves
         {| status := 200;
            body := Parsed (JObj [("data", JArr (map deviceRecord (sn_list req)))]) |};
     maxArguments := 125000 |}.

(** Answers another server may give: 401 with a body that is not JSON,
    and 200 with no device in it or with no [data] at all. *)
Definition unauthorizedNoJson : Response :=
  {| status := 401; body := Unparseable "Unexpected end of JSON input" |}.

Definition emptyData : Response :=
  {| status := 200; body := Parsed (JObj [("data", JArr [])]) |}.

Definition noData : Response :=
  {| status := 200; body := Parsed (JObj []) |}.

(** The configurations of the end-to-end scenarios: 25 devices paced at
    100 ms, and a single batch of 10. *)
Definition fleet25 : Config :=
  mkConfig (API_BASE_URL config) (API_ENDPOINT config) (SECRET_TOKEN config)
           100 10 25 3 1500.

Definition fleet10 : Config :=
  mkConfig (API_BASE_URL config) (API_ENDPOINT config) (SECRET_TOKEN config)
           100 10 10 3 1500.

Definition firstBatch : list string :=
  ["SN-000"; "SN-001"; "SN-002"; "SN-003"; "SN-004";
   "SN-005"; "SN-006"; "SN-007"; "SN-008"; "SN-009"].

(** A limiter at work: task 1 starts at once, task 2 is submitted while
    it runs and has to wait out the interval. *)
Definition twoTasks : list (@RateLimiter.Event nat nat) :=
  [RateLimiter.Execute 1; RateLimiter.Begin; RateLimiter.Execute 2;
   RateLimiter.Settles (RateLimiter.Resolved 10);
   RateLimiter.Elapse 1100; RateLimiter.TimerFires; RateLimiter.Begin;
   RateLimiter.Settles (RateLimiter.Rejected (Error_ "failed"))].

(** Two tasks awaited one after the other on a limiter of 25 ms: the
    timer set for the second wakes the worker when [Date.now()] is 1 ms
    short of the deadline. *)
Definition wokenEarly : list (@RateLimiter.Event nat nat) :=
  [RateLimiter.Execute 1; RateLimiter.Begin;
   RateLimiter.Settles (RateLimiter.Resolved 10);
   RateLimiter.Execute 2; RateLimiter.Elapse 24; RateLimiter.TimerFiresEarly 1;
   RateLimiter.Begin; RateLimiter.Settles (RateLimiter.Resolved 20)].

(** The same on a limiter of 2^31 ms: [setTimeout] replaces a delay above
    2^31 - 1 by 1, and the worker is woken after 1 ms. *)
Definition delayClamped : list (@RateLimiter.Event nat nat) :=
  [RateLimiter.Execute 1; RateLimiter.Begin;
   RateLimiter.Settles (RateLimiter.Resolved 10);
   RateLimiter.Execute 2; RateLimiter.Elapse 1;
   RateLimiter.TimerFiresEarly 2147483647;
   RateLimiter.Begin; RateLimiter.Settles (RateLimiter.Resolved 20)].

(** Task 2 is queued behind the running task 1 ... *)
Definition queuedBehind : list (@RateLimiter.Event nat nat) :=
  [RateLimiter.Execute 1; RateLimiter.Begin; RateLimiter.Execute 2].

(** ... and after [clear()] the limiter goes on to serve task 3. *)
Definition carriesOn : list (@RateLimiter.Event nat nat) :=
  [RateLimiter.Settles (RateLimiter.Resolved 10); RateLimiter.Execute 3;
   RateLimiter.Elapse 1100; RateLimiter.TimerFires; RateLimiter.Begin;
   RateLimiter.Settles (RateLimiter.Resolved 30)].

(** An endpoint that answers by a script, whoever asks. *)
Definition scriptedBy (script : nat -> FetchResult) : Env :=
  {| md5 := plainDigest;
     Date_now := clockOf;
     remote := fun h _ => script (List.length (attempts h));
     maxArguments := 125000 |}.

(** Two answers of 429, then the devices of the first batch. *)
Definition flaky (k : nat) : FetchResult :=
  if (k <? 2)%nat then FetchResolves tooManyRequests
  else FetchResolves
         {| status := 200;
            body := Parsed (JObj [("data", JArr (map deviceRecord firstBatch))]) |}.

Definition serverError : Response :=
  {| status := 500;
     body := Parsed (JObj [("error", JStr "Internal Server Error")]) |}.

(** Task 1 has settled while task 2 was queued: the worker sleeps. *)
Definition asleep : list (@RateLimiter.Event nat nat) :=
  [RateLimiter.Execute 1; RateLimiter.Begin; RateLimiter.Execute 2;
   RateLimiter.Settles (RateLimiter.Resolved 10)].

(** A digest that is never empty, as a hex digest is not. *)
Definition markedDigest (payload : string) : string := ("#" ++ payload)%string.

(** Every draw the same. *)
Definition steady (k : nat) : MockApi.Draw :=
  {| MockApi.power := "2.50"; MockApi.online := true;
     MockApi.last_updated := "2024-02-04T12:44:50.123Z" |}.

(** A request of the client that has reached the query endpoint. *)
Definition atTheEndpoint (req : Request) : MockApi.Incoming :=
  {| MockApi.originalUrl := "/device/real/query";
     MockApi.signatureHeader := Some (signature (headers req));
     MockApi.timestampHeader := Some (timestamp (headers req));
     MockApi.req_body := MockApi.Members (Some (JArr (map JStr (sn_list req))));
     MockApi.route := MockApi.QueryEndpoint;
     MockApi.page := Unparseable "Unexpected token < in JSON at position 0" |}.

(** The mock API itself at the other end, having served nothing yet. *)
Definition loopback : Env :=
  {| md5 := markedDigest;
     Date_now := clockOf;
     remote := fun h req =>
       FetchResolves
         (fst (MockApi.handle markedDigest (clockOf h) steady (atTheEndpoint req) 0));
     maxArguments := 125000 |}.

Definition elevenDevices : list string := firstBatch ++ ["SN-010"].

(** The requests of [twoTasks], 3 ms and 140 ms behind their starts. *)
Definition twoArrivals : list MockApi.Arrival :=
  [ MockApi.Reaches 5003 steady
      (atTheEndpoint (requestAt loopback config firstBatch []));
    MockApi.Reaches 6240 steady
      (atTheEndpoint (requestAt loopback config elevenDevices [])) ].

(** The first progress event of a run over [fleet25]. *)
Definition firstProgress : Aggregator.ProgressEvent.t :=
  {| Aggregator.ProgressEvent.batchIndex := 0;
     Aggregator.ProgressEvent.totalBatches := 3;
     Aggregator.ProgressEvent.batchResults := map deviceRecord firstBatch;
     Aggregator.ProgressEvent.progress := (1, 3);
     Aggregator.ProgressEvent.successCount := 10;
     Aggregator.ProgressEvent.onlineCount := 10;
     Aggregator.ProgressEvent.offlineCount := 0 |}.

End Scenario.

(** * Properties *)

(** ** The primitives, on examples *)

Example slice_window_inside : slice [1; 2; 3; 4; 5] 1 3 = [2; 3].
Proof. reflexivity. Qed.

Example slice_past_the_end : slice [1; 2; 3] 2 12 = [3].
Proof. reflexivity. Qed.

Example slice_negative_end : slice [1; 2; 3; 4; 5] 0 (-1) = [1; 2; 3; 4].
Proof. reflexivity. Qed.

Example slice_negative_both : slice [1; 2; 3; 4; 5] (-1) (-2) = [].
Proof. reflexivity. Qed.

Example padStart_short : padStart 3 "0" "7" = "007".
Proof. reflexivity. Qed.

Example padStart_long : padStart 3 "0" "1234" = "1234".
Proof. reflexivity. Qed.

Example padStart_cycles : padStart 6 "ab" "x" = "ababax".
Proof. reflexivity. Qed.

Example includes_fetch : includes "fetch failed" "fetch" = true.
Proof. reflexivity. Qed.

Example includes_not : includes "Cannot read properties of null" "fetch" = false.
Proof. reflexivity. Qed.

Example ZtoString_status : ZtoString 429 = "429" /\ ZtoString 0 = "0".
Proof. split; reflexivity. Qed.

Example jsString_array :
  jsString (JArr [JNum "1"; JNull; JArr [JStr "a"; JBool true]]) = Returned "1,,a,true".
Proof. reflexivity. Qed.

Example jsString_object :
  jsString (JObj [("code", JNum "7")]) = Returned "[object Object]".
Proof. reflexivity. Qed.

Example jsString_own_toString :
  jsString (JArr [JStr "a"; JObj [("toString", JStr "x")]])
  = Threw (TypeError "Cannot convert object to primitive value").
Proof. reflexivity. Qed.

Example serialNumber_7 : BatchProcessor.serialNumber 7 = "SN-007".
Proof. reflexivity. Qed.

Example prepareBatches_25_10 :
  option_map (fun plan => map (@List.length string) (BatchProcessor.batches plan))
             (BatchProcessor.prepareBatches 25 10)
  = Some [10; 10; 5].
Proof. reflexivity. Qed.

(** ** Batch planner *)

Section BatchPlannerFacts.

Import BatchProcessor.

Lemma parseDigits_toString (i : nat) : parseDigits (toString i) = Some i.
Proof.
  unfold parseDigits, toString.
  rewrite NilEmpty.usu. simpl. now rewrite Unsigned.of_to.
Qed.

Lemma parseDigits_zero (s : string) :
  parseDigits (String "0" s) = parseDigits s.
Proof.
  unfold parseDigits. simpl.
  destruct (NilEmpty.uint_of_string s); reflexivity.
Qed.

Lemma fill_zero (n : nat) (rest : string) :
  rest = "0" \/ rest = EmptyString ->
  forall s, parseDigits (fill n "0" rest ++ s) = parseDigits s
            /\ String.length (fill n "0" rest) = n.
Proof.
  revert rest. induction n as [|n IH]; intros rest Hrest s.
  - now split.
  - destruct Hrest as [-> | ->]; simpl;
      rewrite parseDigits_zero;
      destruct (IH EmptyString (or_intror eq_refl) s) as [-> ->]; now split.
Qed.

(** Padding never cuts a digit off and never changes the number read. *)
Lemma parseDigits_padStart (n i : nat) :
  parseDigits (padStart n "0" (toString i)) = Some i.
Proof.
  unfold padStart. destruct (_ <? _)%nat.
  - destruct (fill_zero (n - String.length (toString i)) "0" (or_introl eq_refl)
                (toString i)) as [-> _].
    apply parseDigits_toString.
  - apply parseDigits_toString.
Qed.

Lemma length_append (s t : string) :
  String.length (s ++ t) = String.length s + String.length t.
Proof. induction s; simpl; congruence. Qed.

Lemma length_padStart (n i : nat) :
  String.length (padStart n "0" (toString i)) = Nat.max n (String.length (toString i)).
Proof.
  unfold padStart. destruct (Nat.ltb_spec (String.length (toString i)) n).
  - rewrite length_append.
    destruct (fill_zero (n - String.length (toString i)) "0" (or_introl eq_refl)
                EmptyString) as [_ ->].
    lia.
  - lia.
Qed.

Lemma serialNumber_inj (i j : nat) : serialNumber i = serialNumber j -> i = j.
Proof.
  unfold serialNumber. simpl. intros H. injection H as H.
  pose proof (parseDigits_padStart 3 i) as Hi.
  rewrite H, parseDigits_padStart in Hi. congruence.
Qed.

Lemma generateSerialNumbers_loop_spec (todo i : nat) (acc : list string) :
  generateSerialNumbers_loop todo i acc = acc ++ map serialNumber (seq i todo).
Proof.
  revert i acc. induction todo as [|todo IH]; intros i acc; simpl.
  - now rewrite app_nil_r.
  - rewrite IH, <- app_assoc. reflexivity.
Qed.

Lemma generateSerialNumbers_spec (count : nat) :
  generateSerialNumbers count = map serialNumber (seq 0 count).
Proof. apply generateSerialNumbers_loop_spec. Qed.

Lemma generateSerialNumbers_NoDup (count : nat) :
  NoDup (generateSerialNumbers count).
Proof.
  rewrite generateSerialNumbers_spec.
  apply Injective_map_NoDup; [ | apply seq_NoDup ].
  intros i j. apply serialNumber_inj.
Qed.

Lemma length_generateSerialNumbers (count : nat) :
  List.length (generateSerialNumbers count) = count.
Proof. now rewrite generateSerialNumbers_spec, length_map, length_seq. Qed.

(** A window that starts inside the array. *)
Lemma slice_window {A : Type} (items : list A) (n b : nat) :
  n < List.length items ->
  slice items (Z.of_nat n) (Z.of_nat n + Z.of_nat b) = firstn b (skipn n items).
Proof.
  intros Hn. unfold slice.
  destruct (Z.ltb_spec (Z.of_nat n) 0); [lia|].
  destruct (Z.ltb_spec (Z.of_nat n + Z.of_nat b) 0); [lia|].
  replace (Z.to_nat (Z.min (Z.of_nat n) (Z.of_nat (List.length items)))) with n by lia.
  destruct (Nat.le_gt_cases b (List.length items - n)) as [Hb|Hb].
  - f_equal. lia.
  - rewrite (firstn_all2 (n := b)) by (rewrite length_skipn; lia).
    apply firstn_all2. rewrite length_skipn. lia.
Qed.

(** What the loop of [createBatches] has pushed when it stops, for a
    positive batch size, and that it does stop within the budget. *)
Lemma createBatches_loop_terminates {A : Type} (items : list A) (b : nat) :
  1 <= b ->
  forall fuel n acc,
    List.length items - n < fuel ->
    exists res,
      createBatches_loop fuel items (Z.of_nat b) (Z.of_nat n) acc = Some (acc ++ res)
      /\ List.concat res = skipn n items
      /\ Forall (fun batch => 1 <= List.length batch <= b) res
      /\ (forall k, S k < List.length res -> List.length (nth k res []) = b)
      /\ (res = [] <-> List.length items <= n).
Proof.
  intros Hb. induction fuel as [|fuel IH]; intros n acc Hfuel; [lia|].
  simpl. destruct (Z.ltb_spec (Z.of_nat n) (Z.of_nat (List.length items))) as [Hn|Hn].
  - replace (Z.of_nat n + Z.of_nat b)%Z with (Z.of_nat (n + b)) by lia.
    destruct (IH (n + b) (acc ++ [slice items (Z.of_nat n) (Z.of_nat (n + b))]))
      as (res & Hrun & Hcat & Hlen & Hfull & Hnil); [lia|].
    replace (Z.of_nat (n + b)) with (Z.of_nat n + Z.of_nat b)%Z in * by lia.
    rewrite slice_window in * by lia.
    exists (firstn b (skipn n items) :: res).
    rewrite Hrun, <- app_assoc. simpl. repeat split.
    + rewrite Hcat, (Nat.add_comm n b), <- (skipn_skipn b n). apply firstn_skipn.
    + constructor; [|exact Hlen].
      rewrite length_firstn, length_skipn. lia.
    + intros [|k] Hk; simpl in *.
      * rewrite length_firstn, length_skipn.
        assert (res <> []) as Hne by (intros ->; simpl in Hk; lia).
        assert (~ List.length items <= n + b) by (intros Hle; apply Hne, Hnil, Hle).
        lia.
      * apply Hfull. lia.
    + discriminate.
    + intros Hle. lia.
  - exists []. rewrite app_nil_r. repeat split; auto.
    + symmetry. apply skipn_all2. lia.
    + simpl. lia.
    + lia.
Qed.

(** With a batch size of zero or less the index never reaches the length
    of a non-empty array: no budget is enough. *)
Lemma createBatches_loop_diverges {A : Type} (items : list A) (batchSize : Z) :
  (batchSize <= 0)%Z ->
  forall fuel i acc,
    (i < Z.of_nat (List.length items))%Z ->
    createBatches_loop fuel items batchSize i acc = None.
Proof.
  intros Hb. induction fuel as [|fuel IH]; intros i acc Hi; simpl; [reflexivity|].
  destruct (Z.ltb_spec i (Z.of_nat (List.length items))); [|lia].
  apply IH. lia.
Qed.

Lemma length_string_of_uint (d : uint) :
  String.length (NilEmpty.string_of_uint d) = nb_digits d.
Proof. induction d; simpl; congruence. Qed.

Lemma of_lu_lt (d : uint) : Unsigned.of_lu d < (10 ^ nb_digits d)%nat.
Proof.
  induction d; cbn [Unsigned.of_lu nb_digits]; rewrite ?Nat.pow_succ_r'; simpl; lia.
Qed.

(** A number is below the power of ten of its number of digits. *)
Lemma toString_bound (i : nat) : i < (10 ^ String.length (toString i))%nat.
Proof.
  unfold toString. rewrite length_string_of_uint.
  rewrite <- (Unsigned.of_to i) at 1.
  rewrite Unsigned.of_uint_alt, <- DecimalFacts.nb_digits_rev.
  apply of_lu_lt.
Qed.

Lemma toString_short :
  forallb (fun i => (String.length (toString i) <=? 3)%nat) (seq 0 1000) = true.
Proof. vm_compute. reflexivity. Qed.

Lemma toString_digits (i : nat) :
  (i < 1000 -> String.length (toString i) <= 3)
  /\ (1000 <= i -> 4 <= String.length (toString i)).
Proof.
  split; intros Hi.
  - pose proof toString_short as H. rewrite forallb_forall in H.
    apply Nat.leb_le, H, in_seq. lia.
  - pose proof (toString_bound i) as H.
    destruct (Nat.le_gt_cases 4 (String.length (toString i))) as [|Hlt]; [assumption|].
    assert ((10 ^ String.length (toString i))%nat <= (10 ^ 3)%nat)
      by (apply Nat.pow_le_mono_r; lia).
    change (10 ^ 3)%nat with 1000 in *. lia.
Qed.

(** The plan for a positive batch size. *)
Lemma prepareBatches_spec (total : nat) (batchSize : Z) :
  (1 <= batchSize)%Z ->
  exists plan,
    prepareBatches total batchSize = Some plan
    /\ serialNumbers plan = map serialNumber (seq 0 total)
    /\ NoDup (serialNumbers plan)
    /\ List.concat (batches plan) = serialNumbers plan
    /\ list_sum (map (@List.length string) (batches plan)) = total
    /\ Forall (fun batch => (1 <= Z.of_nat (List.length batch) <= batchSize)%Z)
               (batches plan)
    /\ (forall k, S k < List.length (batches plan) ->
                  Z.of_nat (List.length (nth k (batches plan) [])) = batchSize)
    /\ totalBatches plan = List.length (batches plan)
    /\ totalDevices plan = total.
Proof.
  intros Hb. unfold prepareBatches, createBatches.
  destruct (createBatches_loop_terminates (generateSerialNumbers total)
              (Z.to_nat batchSize) ltac:(lia)
              (S (List.length (generateSerialNumbers total))) 0 [] ltac:(lia))
    as (res & Hrun & Hcat & Hlen & Hfull & _).
  rewrite Z2Nat.id in Hrun by lia. change (Z.of_nat 0) with 0%Z in Hrun.
  rewrite Hrun. cbn [app].
  eexists. split; [reflexivity|]. simpl. repeat split.
  - apply generateSerialNumbers_spec.
  - apply generateSerialNumbers_NoDup.
  - exact Hcat.
  - rewrite <- length_concat, Hcat. apply length_generateSerialNumbers.
  - eapply Forall_impl; [|exact Hlen]. simpl. intros batch Hbatch. lia.
  - intros k Hk. rewrite (Hfull k Hk). lia.
Qed.

(** C3: for every device count and every batch size of at least one,
    [prepareBatches] returns a plan whose batches, taken in order, are
    exactly the generated identifiers [SN-i] for [i = 0 .. total-1] in
    ascending order, each identifier occurring once; the batch lengths add
    up to [total]; no batch is empty or longer than [batchSize]; and every
    batch but the last has exactly [batchSize] identifiers. *)
Theorem prepareBatches_partition (total : nat) (batchSize : Z) :
  (1 <= batchSize)%Z ->
  exists plan,
    prepareBatches total batchSize = Some plan
    /\ serialNumbers plan = map serialNumber (seq 0 total)
    /\ NoDup (serialNumbers plan)
    /\ List.concat (batches plan) = serialNumbers plan
    /\ list_sum (map (@List.length string) (batches plan)) = total
    /\ Forall (fun batch => (1 <= Z.of_nat (List.length batch) <= batchSize)%Z)
               (batches plan)
    /\ (forall k, S k < List.length (batches plan) ->
                  Z.of_nat (List.length (nth k (batches plan) [])) = batchSize)
    /\ totalBatches plan = List.length (batches plan).
Proof.
  intros Hb.
  destruct (prepareBatches_spec total batchSize Hb)
    as (plan & H1 & H2 & H3 & H4 & H5 & H6 & H7 & H8 & _).
  exists plan. repeat split; assumption.
Qed.

Lemma prepareBatches_partition_witness :
  (1 <= 2)%Z
  /\ exists plan,
       prepareBatches 5 2 = Some plan
       /\ List.concat (batches plan) = serialNumbers plan
       /\ list_sum (map (@List.length string) (batches plan)) = 5.
Proof.
  split; [lia|].
  destruct (prepareBatches_partition 5 2 ltac:(lia))
    as (plan & Hrun & _ & _ & Hcat & Hsum & _).
  exists plan. repeat split; assumption.
Defined.

(** C4, as the code has it: the planner has no check of its arguments and
    no InvalidConfiguration error.  With a batch size of zero or less and
    no devices, it returns the empty plan; with at least one device the
    loop of [createBatches] never reaches its exit, whatever the number of
    iterations allowed, and [prepareBatches] does not return. *)
Theorem prepareBatches_nonpositive_batchSize (total : nat) (batchSize : Z) :
  (batchSize <= 0)%Z ->
  (total = 0 ->
   prepareBatches total batchSize =
   Some {| serialNumbers := []; batches := []; totalDevices := 0;
           batchSize := batchSize; totalBatches := 0 |})
  /\ (1 <= total ->
      (forall fuel,
         createBatches_loop fuel (generateSerialNumbers total) batchSize 0 [] = None)
      /\ prepareBatches total batchSize = None).
Proof.
  intros Hb. split.
  - intros ->. reflexivity.
  - intros Htotal.
    assert (forall fuel,
              createBatches_loop fuel (generateSerialNumbers total) batchSize 0 [] = None)
      as Hloop.
    { intros fuel. apply createBatches_loop_diverges; [assumption|].
      rewrite length_generateSerialNumbers. lia. }
    split; [exact Hloop|].
    unfold prepareBatches, createBatches. now rewrite Hloop.
Qed.

Lemma prepareBatches_nonpositive_batchSize_witness :
  (0 <= 0)%Z
  /\ (forall fuel,
        createBatches_loop fuel (generateSerialNumbers 3) 0 0 [] = None).
Proof.
  split; [lia|].
  apply (prepareBatches_nonpositive_batchSize 3 0 ltac:(lia)). lia.
Defined.

(** C4 fails as stated: with batch size 0 and no devices the planner
    returns an (empty) plan instead of failing, and with batch size 0 and
    one device it neither fails nor returns. *)
Lemma prepareBatches_no_InvalidConfiguration :
  prepareBatches 0 0 =
    Some {| serialNumbers := []; batches := []; totalDevices := 0;
            batchSize := 0; totalBatches := 0 |}
  /\ generateSerialNumbers 1 = ["SN-000"]
  /\ (forall fuel, createBatches_loop fuel ["SN-000"] 0 0 [] = None).
Proof.
  split; [reflexivity|]. split; [reflexivity|].
  intros fuel. apply createBatches_loop_diverges; simpl; lia.
Qed.

(** C5, as the code has it: the pad width is the constant 3 whatever the
    device count.  The identifier at index [i] is [SN-] followed by the
    decimal digits of [i], padded on the left with zeros to three
    characters when [i] has fewer; no digit is ever cut off; the digits
    part is three characters long for [i < 1000] and longer from 1000 on. *)
Theorem generateSerialNumbers_pad_width (count i : nat) :
  i < count ->
  nth_error (generateSerialNumbers count) i
    = Some ("SN-" ++ padStart 3 "0" (toString i))%string
  /\ parseDigits (padStart 3 "0" (toString i)) = Some i
  /\ String.length (padStart 3 "0" (toString i))
     = Nat.max 3 (String.length (toString i))
  /\ (i < 1000 -> String.length (padStart 3 "0" (toString i)) = 3)
  /\ (1000 <= i -> 4 <= String.length (padStart 3 "0" (toString i))).
Proof.
  intros Hi. pose proof (toString_digits i) as [Hshort Hlong].
  rewrite length_padStart. repeat split.
  - rewrite generateSerialNumbers_spec, nth_error_map, nth_error_seq.
    destruct (Nat.ltb_spec i count); [reflexivity|lia].
  - apply parseDigits_padStart.
  - intros H. specialize (Hshort H). lia.
  - intros H. specialize (Hlong H). lia.
Qed.

Lemma generateSerialNumbers_pad_width_witness :
  7 < 500 /\ nth_error (generateSerialNumbers 500) 7 = Some "SN-007".
Proof.
  split; [lia|].
  exact (proj1 (generateSerialNumbers_pad_width 500 7 ltac:(lia))).
Defined.

(** C5 fails as stated: for a fleet of 1001 devices the width is still
    three, so the first identifier has three digits and the last has four;
    the identifiers of one plan do not share a width. *)
Lemma generateSerialNumbers_width_not_from_total :
  nth_error (generateSerialNumbers 1001) 0 = Some "SN-000"
  /\ nth_error (generateSerialNumbers 1001) 1000 = Some "SN-1000"
  /\ String.length "SN-000" <> String.length "SN-1000"
  /\ nth_error (generateSerialNumbers 5) 0 = Some "SN-000".
Proof.
  repeat split; try (vm_compute; reflexivity).
  simpl. lia.
Qed.

End BatchPlannerFacts.

(** ** Telemetry client *)

Section ApiClientFacts.

Import ApiClient.

Variable env : Env.
Variable cfg : Config.

(** Printing a value throws one thing only. *)
Lemma jsString_throws (v : json) (thrown : JsError) :
  jsString v = Threw thrown ->
  thrown = TypeError "Cannot convert object to primitive value".
Proof.
  revert v thrown. fix IH 1. intros v thrown.
  destruct v as [|b|text|str|elems|fields]; cbn [jsString]; try discriminate.
  - destruct b; discriminate.
  - induction elems as [|e rest IHrest]; [discriminate|].
    cbn [map allReturned].
    destruct (match e with JNull => Returned EmptyString | _ => jsString e end)
      as [text|err] eqn:Hhead.
    + destruct (allReturned _) as [parts|err] eqn:Htail; [discriminate|].
      intros [= <-]. apply IHrest. reflexivity.
    + intros [= <-].
      assert (jsString e = Threw err) as Hprint
        by (destruct e; [discriminate|exact Hhead..]).
      exact (IH e err Hprint).
  - destruct (lookup "toString" fields); [now intros [= <-]|discriminate].
Qed.

Lemma templateString_throws (v : option json) (thrown : JsError) :
  templateString v = Threw thrown ->
  thrown = TypeError "Cannot convert object to primitive value".
Proof. destruct v as [v|]; [apply jsString_throws|discriminate]. Qed.

Lemma classify_retry (result : FetchResult) (retryCount : nat) (delay : Z) :
  classify cfg result retryCount = RetriesAfter delay ->
  (Z.of_nat retryCount < MAX_RETRIES cfg)%Z /\ delay = backoff cfg retryCount.
Proof.
  unfold classify. destruct result as [e|response]; [discriminate|].
  destruct (status response =? 429)%Z.
  - destruct (Z.ltb_spec (Z.of_nat retryCount) (MAX_RETRIES cfg)); [|discriminate].
    intros [= <-]. now split.
  - destruct (status response =? 401)%Z.
    + destruct (body response) as [why|v]; [discriminate|].
      destruct (getProp v "error") as [u|]; [|discriminate].
      destruct (templateString u); discriminate.
    + destruct (negb (ok response)).
      * destruct (getProp _ "error") as [u|]; [|discriminate].
        destruct (if truthy u then _ else _); discriminate.
      * destruct (body response); discriminate.
Qed.

Lemma fetchDeviceData_rec_total (snList : list string) :
  forall fuel retryCount h,
    Z.to_nat (MAX_RETRIES cfg - Z.of_nat retryCount) < fuel ->
    exists outcome h',
      fetchDeviceData_rec env cfg fuel snList retryCount h = Some (outcome, h ++ h').
Proof.
  induction fuel as [|fuel IH]; intros retryCount h Hfuel; [lia|].
  cbn [fetchDeviceData_rec]. 
  destruct (classify cfg (remote env h (requestAt env cfg snList h)) retryCount)
    as [data|delay|error] eqn:Hclass.
  - eauto.
  - apply classify_retry in Hclass as [Hlt _].
    destruct (IH (S retryCount) ((h ++ [Fetch (requestAt env cfg snList h)]) ++ [Sleep delay]))
      as (outcome & h' & ->); [lia|].
    rewrite <- !app_assoc. eauto.
  - destruct (_ && _); [|eauto].
    destruct (Z.ltb_spec (Z.of_nat retryCount) (MAX_RETRIES cfg)); [|eauto].
    destruct (IH (S retryCount)
                ((h ++ [Fetch (requestAt env cfg snList h)]) ++ [Sleep (backoff cfg retryCount)]))
      as (outcome & h' & ->); [lia|].
    rewrite <- !app_assoc. eauto.
Qed.

(** Every call of [fetchDeviceData] ends, returning or throwing, and only
    adds to the history. *)
Lemma fetchDeviceData_total (snList : list string) (retryCount : nat) (h : History) :
  exists outcome h',
    fetchDeviceData env cfg snList retryCount h = Some (outcome, h ++ h').
Proof. apply fetchDeviceData_rec_total. lia. Qed.

Lemma classify_429 (h : History) (req : Request) (retryCount : nat) :
  always_429 env ->
  classify cfg (remote env h req) retryCount =
  if (Z.of_nat retryCount <? MAX_RETRIES cfg)%Z
  then RetriesAfter (backoff cfg retryCount)
  else Throws (Error_ ("Rate limit exceeded after "
                       ++ ZtoString (MAX_RETRIES cfg) ++ " retries")%string).
Proof.
  intros H. destruct (H h req) as (r & -> & Hr).
  unfold classify. now rewrite Hr.
Qed.

(** C2: against an endpoint that answers 429 every time, with three
    retries allowed and an initial delay of 1500 ms, [fetchDeviceData]
    sends exactly four requests for the batch, waits 1500, 3000 and
    6000 ms before the second, third and fourth, and then throws the
    rate-limit error. *)
Theorem fetchDeviceData_persistent_429 (snList : list string) (h : History) :
  MAX_RETRIES cfg = 3%Z ->
  INITIAL_RETRY_DELAY_MS cfg = 1500%Z ->
  always_429 env ->
  exists r1 r2 r3 r4,
    fetchDeviceData env cfg snList 0 h =
      Some (Threw (Error_ "Rate limit exceeded after 3 retries"),
            h ++ [Fetch r1; Sleep 1500; Fetch r2; Sleep 3000; Fetch r3;
                  Sleep 6000; Fetch r4])
    /\ Forall (fun r => sn_list r = snList) [r1; r2; r3; r4]
    /\ backoff cfg 0 = 1500%Z /\ backoff cfg 1 = 3000%Z /\ backoff cfg 2 = 6000%Z.
Proof.
  intros Hmax Hdelay H429.
  assert (backoff cfg 0 = 1500%Z /\ backoff cfg 1 = 3000%Z /\ backoff cfg 2 = 6000%Z)
    as (B0 & B1 & B2) by (unfold backoff; rewrite Hdelay; now compute).
  unfold fetchDeviceData. rewrite Hmax.
  change (S (Z.to_nat (3 - Z.of_nat 0))) with 4.
  do 4 (cbn [fetchDeviceData_rec]; rewrite classify_429, Hmax by assumption;
        cbn [Z.of_nat Pos.of_succ_nat Pos.succ Z.ltb Z.compare Pos.compare
             Pos.compare_cont]).
  rewrite B0, B1, B2. rewrite <- !app_assoc. cbn [app ZtoString].
  do 4 eexists. split; [reflexivity|].
  repeat split; try assumption.
  repeat constructor.
Qed.

(** X10: what one call does with an answer of status 401, whatever the
    retry count and the retries allowed: it has sent its one
    request, sleeps and calls itself not at all, and throws.  The error is
    the authentication failure, with the [error] of the body printed into
    it, when the body of the answer is JSON other than [null] and that
    [error] can be printed; the error of printing it when it cannot (an
    object that has a [toString] member of its own); and the body's own
    reading error otherwise. *)
Lemma fetchDeviceData_401 (snList : list string) (retryCount : nat) (h : History)
    (r : Response) :
  remote env h (requestAt env cfg snList h) = FetchResolves r ->
  status r = 401%Z ->
  exists e,
    fetchDeviceData env cfg snList retryCount h
      = Some (Threw e, h ++ [Fetch (requestAt env cfg snList h)])
    /\ match body r with
       | Unparseable why => e = SyntaxError why
       | Parsed JNull =>
           e = TypeError "Cannot read properties of null (reading 'error')"
       | Parsed (JObj fields) =>
           match templateString (lookup "error" fields) with
           | Returned text => e = Error_ ("Authentication failed: " ++ text)%string
           | Threw thrown =>
               e = thrown
               /\ thrown = TypeError "Cannot convert object to primitive value"
           end
       | Parsed _ => e = Error_ "Authentication failed: undefined"
       end.
Proof.
  intros Hremote Hstatus.
  unfold fetchDeviceData. cbn [fetchDeviceData_rec]. 
  rewrite Hremote. unfold classify. rewrite Hstatus.
  change (401 =? 429)%Z with false. change (401 =? 401)%Z with true. cbv iota.
  destruct (body r) as [why|[| | | | |fields]]; cbn; eauto.
  destruct (templateString (lookup "error" fields)) as [text|thrown] eqn:Hprint;
    cbn; [eauto|].
  pose proof (templateString_throws _ _ Hprint) as ->. cbn.
  eexists. split; [reflexivity|]. split; reflexivity.
Qed.

End ApiClientFacts.

(** ** Rate limiter *)

Section SequenceFacts.

Context {A : Type}.

Lemma spaced_snoc (gap : Z) (times : list Z) (t : Z) :
  spaced gap times ->
  Forall (fun t0 => (t0 + gap <= t)%Z) times ->
  spaced gap (times ++ [t]).
Proof.
  intros Hsp Hall n t1 t2 H1 H2.
  destruct (Nat.lt_ge_cases (S n) (List.length times)) as [Hlt|Hge].
  - rewrite nth_error_app1 in H1, H2 by lia. eauto.
  - rewrite nth_error_app2 in H2 by lia.
    destruct (S n - List.length times) as [|k] eqn:Hk.
    + injection H2 as <-.
      rewrite nth_error_app1 in H1 by lia.
      rewrite Forall_forall in Hall. eapply Hall, nth_error_In, H1.
    + destruct k; discriminate.
Qed.

Lemma Subsequence_refl (l : list A) : Subsequence l l.
Proof. induction l; [apply Subsequence_nil|now apply Subsequence_take]. Qed.

Lemma Subsequence_snoc (l1 l2 : list A) (x : A) :
  Subsequence l1 l2 -> Subsequence (l1 ++ [x]) (l2 ++ [x]).
Proof.
  induction 1; simpl.
  - apply Subsequence_take, Subsequence_nil.
  - now apply Subsequence_skip.
  - now apply Subsequence_take.
Qed.

Lemma Subsequence_nil_l (l : list A) : Subsequence [] l.
Proof. induction l; [apply Subsequence_nil|now apply Subsequence_skip]. Qed.

Lemma Subsequence_app_l (l1 l2 l : list A) :
  Subsequence (l1 ++ l2) l -> Subsequence l1 l.
Proof.
  intros H. remember (l1 ++ l2) as m eqn:Hm. revert l1 Hm.
  induction H as [|x m l H IH|x m l H IH]; intros l1 Hm.
  - destruct l1; [apply Subsequence_nil|discriminate].
  - apply Subsequence_skip. now apply IH.
  - destruct l1 as [|y l1]; [apply Subsequence_nil_l|].
    injection Hm as -> ->. apply Subsequence_take. now apply IH.
Qed.

Lemma Subsequence_In (l1 l2 : list A) (x : A) :
  Subsequence l1 l2 -> In x l1 -> In x l2.
Proof. induction 1; simpl; intuition. Qed.

Lemma Subsequence_NoDup (l1 l2 : list A) :
  Subsequence l1 l2 -> NoDup l2 -> NoDup l1.
Proof.
  induction 1 as [|x l1 l2 H IH|x l1 l2 H IH]; intros Hnd.
  - apply NoDup_nil.
  - inversion Hnd; auto.
  - inversion Hnd as [|y k Hnotin Hk]; subst. constructor; [|auto].
    intros Hin. apply Hnotin. eapply Subsequence_In; eassumption.
Qed.

Lemma Subsequence_map {B : Type} (f : A -> B) (l1 l2 : list A) :
  Subsequence l1 l2 -> Subsequence (map f l1) (map f l2).
Proof.
  induction 1; simpl.
  - apply Subsequence_nil.
  - now apply Subsequence_skip.
  - now apply Subsequence_take.
Qed.

End SequenceFacts.

Section LimiterFacts.

Import RateLimiter.

Variables Task Value : Type.

Abbreviation State := (@RateLimiter.State Task Value).
Abbreviation Event := (@RateLimiter.Event Task Value).

Lemma paced_processQueue_loop (early : Z) (s : State) :
  (0 <= early)%Z ->
  spaced (intervalMs s - early) (startTimes s) ->
  Forall (fun t => (t <= lastRequestTime s <= clock s)%Z) (startTimes s) ->
  paced early (processQueue_loop s).
Proof.
  intros Hearly Hsp Hall. destruct s as [iv last q p w c nh sub st se].
  unfold processQueue_loop, paced, startTimes in *. simpl in *.
  destruct q as [|item rest]; simpl.
  - auto.
  - destruct (Z.ltb_spec 0 (Z.max 0 (iv - (c - last)))); simpl;
      (split; [assumption|]); (split; [assumption|]);
      eapply Forall_impl; try exact Hall; simpl; intros t Ht; lia.
Qed.

Lemma paced_step (early : Z) (e : Event) (s s' : State) :
  (0 <= early)%Z -> (earliness e <= early)%Z ->
  paced early s -> step e s = Some s' -> paced early s'.
Proof.
  intros Hearly Hshort (Hsp & Hall & Hw) Hstep.
  destruct s as [iv last q p w c nh sub st se].
  destruct e as [f| |ms| | |r|short]; simpl in *.
  - (* Execute *)
    destruct w; try discriminate; injection Hstep as <-;
      unfold processQueue; simpl;
      (destruct (p || _);
       [ unfold paced, startTimes in *; simpl in *; auto
       | apply paced_processQueue_loop; assumption ]).
  - (* Clear *)
    destruct w; try discriminate; injection Hstep as <-;
      unfold paced, startTimes in *; simpl in *; auto.
  - (* Elapse *)
    injection Hstep as <-. unfold paced, startTimes in *. simpl in *.
    split; [assumption|]. split.
    + eapply Forall_impl; [|exact Hall]. simpl. lia.
    + destruct w; auto.
      eapply Forall_impl; [|exact Hw]. simpl. lia.
  - (* TimerFires *)
    destruct w as [|item deadline|item|item]; try discriminate.
    destruct (Z.leb_spec deadline c); [|discriminate].
    injection Hstep as <-. unfold paced, startTimes in *. simpl in *.
    repeat split; try assumption.
    eapply Forall_impl; [|exact Hw]. simpl. lia.
  - (* Begin *)
    destruct w as [|item deadline|item|item]; try discriminate.
    injection Hstep as <-. unfold paced, begin, startTimes in *. simpl in *.
    rewrite map_app. simpl. repeat split.
    + apply spaced_snoc; [assumption|].
      eapply Forall_impl; [|exact Hw]. simpl. lia.
    + apply Forall_app. split.
      * eapply Forall_impl; [|exact Hall]. simpl. lia.
      * repeat constructor; lia.
  - (* Settles *)
    destruct w as [|item deadline|item|item]; try discriminate.
    injection Hstep as <-. apply paced_processQueue_loop; assumption.
  - (* TimerFiresEarly *)
    destruct w as [|item deadline|item|item]; try discriminate.
    destruct (Z.ltb_spec c deadline); [|discriminate].
    destruct (Z.leb_spec deadline (c + short)); [|discriminate].
    injection Hstep as <-. unfold paced, startTimes in *. simpl in *.
    repeat split; try assumption.
    eapply Forall_impl; [|exact Hw]. simpl. lia.
Qed.

Lemma paced_new (early intervalMs now : Z) :
  paced early (new_RateLimiter intervalMs now : State).
Proof.
  unfold paced, startTimes. simpl. repeat split; auto.
  intros [|n] t1 t2 H; discriminate.
Qed.

Lemma run_invariant (Q : Event -> Prop) (P : State -> Prop) :
  (forall e s s', Q e -> P s -> step e s = Some s' -> P s') ->
  forall events s s',
    Forall Q events -> P s -> run events s = Some s' -> P s'.
Proof.
  intros Hstep. induction events as [|e events IH]; intros s s' Hall Hs Hrun;
    simpl in Hrun.
  - now injection Hrun as <-.
  - destruct (step e s) as [s1|] eqn:He; [|discriminate].
    inversion Hall; subst. eauto.
Qed.

Lemma run_app (events1 events2 : list Event) (s : State) :
  run (events1 ++ events2) s =
  match run events1 s with
  | Some s1 => run events2 s1
  | None => None
  end.
Proof.
  revert s. induction events1 as [|e events1 IH]; intros s; simpl; [reflexivity|].
  destruct (step e s); [apply IH|reflexivity].
Qed.

Lemma Forall_True (events : list Event) : Forall (fun _ => True) events.
Proof. apply Forall_forall. auto. Qed.

Lemma intervalMs_processQueue_loop (s : State) :
  intervalMs (processQueue_loop s) = intervalMs s.
Proof.
  unfold processQueue_loop. destruct (queue s); [reflexivity|].
  simpl. destruct (_ <? _)%Z; reflexivity.
Qed.

Lemma intervalMs_step (e : Event) (s s' : State) :
  step e s = Some s' -> intervalMs s' = intervalMs s.
Proof.
  destruct s as [iv last q p w c nh sub st se].
  destruct e as [f| |ms| | |r|short]; simpl; destruct w; try discriminate;
    try (intros [= <-]; reflexivity).
  1-3: intros [= <-]; unfold processQueue; simpl; destruct (p || _);
       [reflexivity|apply intervalMs_processQueue_loop].
  - destruct (_ <=? _)%Z; try discriminate. intros [= <-]. reflexivity.
  - intros [= <-]. apply intervalMs_processQueue_loop.
  - destruct (_ && _); try discriminate. intros [= <-]. reflexivity.
Qed.

Lemma paced_run (early : Z) (events : list Event) (s s' : State) :
  (0 <= early)%Z ->
  Forall (fun e => (earliness e <= early)%Z) events ->
  paced early s -> run events s = Some s' -> paced early s'.
Proof.
  intros Hearly Hall Hs.
  apply (run_invariant (fun e => (earliness e <= early)%Z) (paced early)); auto.
  intros e s0 s1 He. now apply paced_step.
Qed.

Lemma intervalMs_run (events : list Event) (s s' : State) :
  run events s = Some s' -> intervalMs s' = intervalMs s.
Proof.
  apply (run_invariant (fun _ => True) (fun s0 => intervalMs s0 = intervalMs s));
    auto using Forall_True.
  intros e s0 s1 _ H0 Hstep. now rewrite (intervalMs_step _ _ _ Hstep).
Qed.

(** X25: the spacing the limiter does keep.  When no timer wakes the
    worker more than [early] milliseconds before its deadline, the
    recorded start times of any two consecutive executions are at least
    [intervalMs - early] apart, whatever is submitted and whenever; with
    timers that are never early that is the full interval. *)
Theorem RateLimiter_spacing_within (early interval now : Z) (events : list Event)
    (s : State) :
  run events (new_RateLimiter interval now) = Some s ->
  (0 <= early)%Z ->
  Forall (fun e => (earliness e <= early)%Z) events ->
  intervalMs s = interval
  /\ forall n t1 t2,
       nth_error (startTimes s) n = Some t1 ->
       nth_error (startTimes s) (S n) = Some t2 ->
       (t1 + (interval - early) <= t2)%Z.
Proof.
  intros Hrun Hearly Hall.
  pose proof (intervalMs_run _ _ _ Hrun) as Hint. simpl in Hint.
  split; [exact Hint|].
  destruct (paced_run early _ _ _ Hearly Hall (paced_new early interval now) Hrun)
    as (Hsp & _).
  rewrite Hint in Hsp. exact Hsp.
Qed.

Lemma lineup_processQueue_loop (s : State) :
  waiting s = [] ->
  lineup (processQueue_loop s) = lineup s
  /\ executionOrder (processQueue_loop s) = executionOrder s
  /\ submitted (processQueue_loop s) = submitted s
  /\ nextHandle (processQueue_loop s) = nextHandle s
  /\ settled (processQueue_loop s) = settled s.
Proof.
  destruct s as [iv last q p w c nh sub st se].
  unfold processQueue_loop, lineup, waiting, executionOrder. simpl. intros ->.
  destruct q as [|item rest]; simpl; [auto|].
  destruct (_ <? _)%Z; simpl; auto.
Qed.

Lemma ordered_processQueue_loop (s : State) :
  processing s = true ->
  waiting s = [] ->
  map handle (submitted s) = seq 0 (nextHandle s) ->
  Subsequence (lineup s) (submitted s) ->
  incl (settledHandles s) (map handle (executionOrder s)) ->
  ordered (processQueue_loop s).
Proof.
  intros Hp Hw Hsub Hseq Hset.
  destruct (lineup_processQueue_loop s Hw) as (Hl & He & Hs & Hn & Hd).
  unfold ordered, settledHandles. rewrite Hl, He, Hs, Hn, Hd.
  repeat split; try assumption.
  - destruct s as [iv last q p w c nh sub st se].
    unfold processQueue_loop. simpl in *. subst p.
    destruct q; simpl; [reflexivity|].
    destruct (_ <? _)%Z; simpl; discriminate.
  - destruct s as [iv last q p w c nh sub st se].
    unfold processQueue_loop. simpl.
    destruct q; simpl; [exact I|].
    destruct (_ <? _)%Z; simpl; exact I.
Qed.

Lemma ordered_step (e : Event) (s s' : State) :
  ordered s -> step e s = Some s' -> ordered s'.
Proof.
  intros (Hidle & Hsub & Hseq & Hset & Hrun) Hstep.
  destruct s as [iv last q p w c nh sub st se].
  unfold lineup, waiting, executionOrder, settledHandles in *.
  destruct e as [f| |ms| | |r|short]; simpl in *.
  - (* Execute *)
    assert (map handle (sub ++ [{| fn := f; handle := nh |}]) = seq 0 (S nh)) as Hsub'
      by (rewrite map_app, Hsub, seq_S; reflexivity).
    assert (forall W : list Item,
              Subsequence (map fst st ++ W ++ q) sub ->
              Subsequence (map fst st ++ W ++ q ++ [{| fn := f; handle := nh |}])
                          (sub ++ [{| fn := f; handle := nh |}])) as Hseq'.
    { intros W H. replace (map fst st ++ W ++ q ++ [{| fn := f; handle := nh |}])
        with ((map fst st ++ W ++ q) ++ [{| fn := f; handle := nh |}])
        by (now rewrite <- !app_assoc).
      now apply Subsequence_snoc. }
    destruct w as [|item deadline|item|item]; try discriminate;
      pose proof (Hseq' _ Hseq) as Hseq2;
      injection Hstep as <-; unfold processQueue; simpl;
      destruct p; simpl;
      try (specialize (Hidle eq_refl); discriminate);
      try (unfold ordered, lineup, waiting, executionOrder, settledHandles; simpl;
           repeat split; auto; discriminate).
    destruct (_ =? _)%nat.
    + unfold ordered, lineup, waiting, executionOrder, settledHandles; simpl.
      repeat split; auto.
    + apply ordered_processQueue_loop; simpl; auto.
  - (* Clear *)
    assert (forall W : list Item,
              Subsequence (map fst st ++ W ++ q) sub ->
              Subsequence (map fst st ++ W ++ []) sub) as Hdrop.
    { intros W H. rewrite app_nil_r. apply (Subsequence_app_l _ q).
      now rewrite <- app_assoc. }
    destruct w as [|item deadline|item|item]; try discriminate;
      pose proof (Hdrop _ Hseq) as Hseq2;
      injection Hstep as <-;
      unfold ordered, lineup, waiting, executionOrder, settledHandles; simpl;
      repeat split; auto.
  - (* Elapse *)
    injection Hstep as <-.
    unfold ordered, lineup, waiting, executionOrder, settledHandles; simpl.
    repeat split; auto.
  - (* TimerFires *)
    destruct w as [|item deadline|item|item]; try discriminate.
    destruct (_ <=? _)%Z; [|discriminate]. injection Hstep as <-.
    unfold ordered, lineup, waiting, executionOrder, settledHandles; simpl.
    repeat split; auto.
    intros ->. specialize (Hidle eq_refl). discriminate.
  - (* Begin *)
    destruct w as [|item deadline|item|item]; try discriminate.
    injection Hstep as <-.
    unfold ordered, begin, lineup, waiting, executionOrder, settledHandles; simpl.
    rewrite !map_app. simpl. repeat split; auto.
    + intros ->. specialize (Hidle eq_refl). discriminate.
    + rewrite <- app_assoc. exact Hseq.
    + intros h Hh. apply in_or_app. left. now apply Hset.
    + apply in_or_app. right. now left.
  - (* Settles *)
    destruct w as [|item deadline|item|item]; try discriminate.
    injection Hstep as <-.
    apply ordered_processQueue_loop; simpl; auto.
    + destruct p; [reflexivity|]. specialize (Hidle eq_refl). discriminate.
    + unfold settledHandles. simpl. rewrite map_app. simpl.
      intros h Hh. apply in_app_or in Hh as [Hh|[<-|[]]]; [now apply Hset|].
      now apply in_map.
  - (* TimerFiresEarly *)
    destruct w as [|item deadline|item|item]; try discriminate.
    destruct (_ && _); [|discriminate]. injection Hstep as <-.
    unfold ordered, lineup, waiting, executionOrder, settledHandles; simpl.
    repeat split; auto.
    intros ->. specialize (Hidle eq_refl). discriminate.
Qed.

Lemma ordered_new (interval now : Z) :
  ordered (new_RateLimiter interval now : State).
Proof.
  unfold ordered, lineup, waiting, executionOrder, settledHandles. simpl.
  repeat split; auto using Subsequence_nil. intros h [].
Qed.

Lemma ordered_run (events : list Event) (s s' : State) :
  ordered s -> run events s = Some s' -> ordered s'.
Proof.
  intros Hs. apply (run_invariant (fun _ => True) ordered); auto using Forall_True.
  intros e s0 s1 _. apply ordered_step.
Qed.

(** How one step changes the books. *)
Lemma step_bookkeeping (e : Event) (s s' : State) :
  ordered s -> step e s = Some s' ->
  match e with
  | Execute f =>
      let item := {| fn := f; handle := nextHandle s |} in
      lineup s' = lineup s ++ [item]
      /\ submitted s' = submitted s ++ [item]
      /\ nextHandle s' = S (nextHandle s)
  | Clear =>
      lineup s' = executionOrder s ++ waiting s
      /\ submitted s' = submitted s
      /\ nextHandle s' = nextHandle s
  | _ =>
      lineup s' = lineup s
      /\ submitted s' = submitted s
      /\ nextHandle s' = nextHandle s
  end.
Proof.
  intros (Hidle & _) Hstep.
  destruct s as [iv last q p w c nh sub st se].
  destruct e as [f| |ms| | |r|short]; simpl in *.
  - destruct w as [|item deadline|item|item]; try discriminate;
      injection Hstep as <-; unfold processQueue; simpl;
      destruct p; simpl;
      try (specialize (Hidle eq_refl); discriminate);
      try (unfold lineup, waiting, executionOrder; simpl;
           rewrite <- ?app_assoc; simpl; auto; fail).
    destruct (_ =? _)%nat.
    + unfold lineup, waiting, executionOrder; simpl. now rewrite <- app_assoc.
    + match goal with
      | |- context [processQueue_loop ?s0] =>
          destruct (lineup_processQueue_loop s0 eq_refl) as (-> & _ & -> & -> & _)
      end.
      unfold lineup, waiting, executionOrder; simpl. now rewrite <- app_assoc.
  - destruct w as [|item deadline|item|item]; try discriminate;
      injection Hstep as <-; unfold lineup, waiting, executionOrder; simpl;
      rewrite ?app_nil_r; auto.
  - injection Hstep as <-. auto.
  - destruct w as [|item deadline|item|item]; try discriminate.
    destruct (_ <=? _)%Z; [|discriminate]. injection Hstep as <-. auto.
  - destruct w as [|item deadline|item|item]; try discriminate.
    injection Hstep as <-. unfold begin, lineup, waiting, executionOrder; simpl.
    rewrite map_app, <- app_assoc. auto.
  - destruct w as [|item deadline|item|item]; try discriminate.
    injection Hstep as <-.
    match goal with
    | |- context [processQueue_loop ?s0] =>
        destruct (lineup_processQueue_loop s0 eq_refl) as (-> & _ & -> & -> & _)
    end.
    auto.
  - destruct w as [|item deadline|item|item]; try discriminate.
    destruct (_ && _); [|discriminate]. injection Hstep as <-. auto.
Qed.

(** Without [clear()], nothing submitted ever leaves the line-up. *)
Lemma exact_step (e : Event) (s s' : State) :
  e <> Clear ->
  ordered s /\ submitted s = lineup s ->
  step e s = Some s' ->
  ordered s' /\ submitted s' = lineup s'.
Proof.
  intros He (Hord & Hex) Hstep. split; [eapply ordered_step; eassumption|].
  pose proof (step_bookkeeping e s s' Hord Hstep) as H.
  destruct e; try congruence; destruct H as (-> & -> & _); congruence.
Qed.

Lemma abandoned_step (h : nat) (e : Event) (s s' : State) :
  ordered s /\ abandoned h s ->
  step e s = Some s' ->
  ordered s' /\ abandoned h s'.
Proof.
  intros (Hord & Hlt & Hnot) Hstep. split; [eapply ordered_step; eassumption|].
  pose proof (step_bookkeeping e s s' Hord Hstep) as H. unfold abandoned.
  destruct e; destruct H as (-> & _ & ->).
  - split; [lia|]. rewrite map_app, in_app_iff. simpl. intros [H|[H|[]]]; [auto|lia].
  - split; [assumption|]. intros H. apply Hnot. unfold lineup.
    rewrite app_assoc, map_app, in_app_iff. now left.
  - auto.
  - auto.
  - auto.
  - auto.
  - auto.
Qed.

Lemma NoDup_app_disjoint {B : Type} (l1 l2 : list B) (x : B) :
  NoDup (l1 ++ l2) -> In x l1 -> ~ In x l2.
Proof.
  induction l1 as [|y l1 IH]; simpl; intros Hnd Hin Hin2; [contradiction|].
  inversion Hnd as [|z k Hnotin Hk]; subst. destruct Hin as [->|Hin].
  - apply Hnotin, in_or_app. now right.
  - now apply IH.
Qed.

(** What [clear()] drops is abandoned from then on. *)
Lemma abandoned_clear (s s' : State) (item : Item) :
  ordered s -> In item (queue s) -> step Clear s = Some s' ->
  abandoned (handle item) s'.
Proof.
  intros Hord Hin Hstep.
  pose proof (step_bookkeeping Clear s s' Hord Hstep) as (Hl & _ & Hn).
  destruct Hord as (_ & Hsub & Hseq & _).
  assert (In item (lineup s)) as Hline
    by (unfold lineup; rewrite !in_app_iff; auto).
  unfold abandoned. rewrite Hl, Hn. split.
  - apply (Subsequence_In _ _ _ Hseq), (in_map handle) in Hline.
    rewrite Hsub in Hline. apply in_seq in Hline. lia.
  - assert (NoDup (map handle (lineup s))) as Hnd.
    { eapply Subsequence_NoDup; [apply Subsequence_map, Hseq|].
      rewrite Hsub. apply seq_NoDup. }
    unfold lineup in Hnd. rewrite app_assoc, map_app in Hnd.
    intros H. apply NoDup_app_disjoint with (x := handle item) in Hnd; [|exact H].
    apply Hnd. now apply in_map.
Qed.

Lemma submitted_step (e : Event) (s s' : State) :
  ordered s -> step e s = Some s' ->
  map fn (submitted s') = map fn (submitted s) ++ submissions [e].
Proof.
  intros Hord Hstep. pose proof (step_bookkeeping e s s' Hord Hstep) as H.
  destruct e; destruct H as (_ & -> & _); simpl; rewrite ?app_nil_r; auto.
  now rewrite map_app.
Qed.

Lemma submitted_run (events : list Event) :
  forall s s',
    ordered s -> run events s = Some s' ->
    map fn (submitted s') = map fn (submitted s) ++ submissions events.
Proof.
  induction events as [|e events IH]; intros s s' Hord Hrun; simpl in Hrun.
  - injection Hrun as <-. simpl. now rewrite app_nil_r.
  - destruct (step e s) as [s1|] eqn:He; [|discriminate].
    rewrite (IH s1 s' (ordered_step _ _ _ Hord He) Hrun).
    rewrite (submitted_step _ _ _ Hord He).
    rewrite <- app_assoc. f_equal. unfold submissions. simpl.
    now rewrite app_nil_r.
Qed.

(** The limiter executes in the order of the calls of [execute]; when
    [clear()] is never called, what has been executed is an initial part
    of what was submitted, and the rest is in the worker's hand or in the
    queue. *)
Lemma execution_order_run (interval now : Z) (events : list Event) (s : State) :
  run events (new_RateLimiter interval now) = Some s ->
  Subsequence (map fn (executionOrder s)) (submissions events)
  /\ (Forall (fun e => e <> Clear) events ->
      submissions events = map fn (executionOrder s) ++ map fn (waiting s ++ queue s)).
Proof.
  intros Hrun.
  pose proof (ordered_new interval now) as Hnew.
  pose proof (submitted_run _ _ _ Hnew Hrun) as Hsub. simpl in Hsub.
  rewrite <- Hsub. split.
  - destruct (ordered_run _ _ _ Hnew Hrun) as (_ & _ & Hseq & _).
    apply Subsequence_map, (Subsequence_app_l _ (waiting s ++ queue s)), Hseq.
  - intros Hclear.
    assert (ordered s /\ submitted s = lineup s) as (_ & ->).
    { apply (run_invariant (fun e => e <> Clear)
               (fun s0 => ordered s0 /\ submitted s0 = lineup s0))
        with (events := events) (s := new_RateLimiter interval now); auto.
      intros e s0 s1. apply exact_step. }
    unfold lineup. now rewrite map_app.
Qed.

(** X4: a caller that awaits each submission is served at once: on a
    limiter at rest its task is the next to execute, its promise is settled
    with the outcome of that very task, and the limiter is at rest again.
    The task begins at once when nothing is left of the interval, and
    otherwise when the runtime wakes the worker, [ms] milliseconds later;
    that is no sooner than one interval after the last start provided the
    wake-up does not come before the wait asked for is over. *)
Lemma awaited_run (f : Task) (r : Settlement) (ms : nat) (s : State) :
  atRest s ->
  exists s' t,
    run (awaited f r ms s) s = Some s'
    /\ atRest s'
    /\ started s' = started s ++ [({| fn := f; handle := nextHandle s |}, t)]
    /\ settled s' = settled s ++ [(nextHandle s, r)]
    /\ (t = if (0 <? intervalMs s - (clock s - lastRequestTime s))%Z
            then clock s + Z.of_nat ms else clock s)%Z
    /\ (intervalMs s - (clock s - lastRequestTime s) <= Z.of_nat ms ->
        lastRequestTime s + intervalMs s <= t)%Z.
Proof.
  destruct s as [iv last q p w c nh sub st se]. unfold atRest, awaited. simpl.
  intros (-> & -> & ->).
  set (waitTime := Z.max 0 (iv - (c - last))).
  assert ((0 <? waitTime)%Z = (0 <? iv - (c - last))%Z) as Hsame.
  { unfold waitTime. destruct (Z.ltb_spec 0 (iv - (c - last)));
      [apply Z.ltb_lt|apply Z.ltb_ge]; lia. }
  rewrite <- Hsame.
  destruct (0 <? waitTime)%Z eqn:Hwait; simpl;
    unfold processQueue, processQueue_loop; simpl; fold waitTime; rewrite Hwait; simpl.
  - apply Z.ltb_lt in Hwait.
    destruct (Z.leb_spec waitTime (Z.of_nat ms)) as [Hdue|Hshort]; simpl.
    + replace (c + waitTime <=? c + Z.of_nat ms)%Z with true
        by (symmetry; apply Z.leb_le; lia).
      simpl. eexists. eexists. split; [reflexivity|]. unfold atRest. simpl.
      repeat split. lia.
    + replace (c + Z.of_nat ms <? c + waitTime)%Z with true
        by (symmetry; apply Z.ltb_lt; lia).
      replace (c + waitTime <=? c + Z.of_nat ms + (waitTime - Z.of_nat ms))%Z with true
        by (symmetry; apply Z.leb_le; lia).
      simpl. eexists. eexists. split; [reflexivity|]. unfold atRest. simpl.
      repeat split. lia.
  - apply Z.ltb_ge in Hwait.
    eexists. eexists. split; [reflexivity|]. unfold atRest. simpl.
    repeat split. lia.
Qed.

(** C10: a task still in the queue when [clear()] is called is dropped
    for good.  Whatever happens to the limiter afterwards, the promise
    that [execute] returned for it is neither resolved nor rejected, and
    the task never begins to execute. *)
Theorem clear_abandons_pending (interval now : Z) (before after : list Event)
    (s1 s2 : State) (item : Item) :
  run before (new_RateLimiter interval now) = Some s1 ->
  In item (queue s1) ->
  run (Clear :: after) s1 = Some s2 ->
  ~ In (handle item) (settledHandles s2)
  /\ ~ In item (executionOrder s2)
  /\ ~ In item (queue s2).
Proof.
  intros Hbefore Hin Hafter.
  pose proof (ordered_run _ _ _ (ordered_new interval now) Hbefore) as Hord1.
  cbn [run] in Hafter. destruct (step Clear s1) as [s1'|] eqn:Hclear; [|discriminate].
  pose proof (abandoned_clear _ _ _ Hord1 Hin Hclear) as Hab.
  pose proof (ordered_step _ _ _ Hord1 Hclear) as Hord1'.
  assert (ordered s2 /\ abandoned (handle item) s2) as ((_ & _ & _ & Hset & _) & _ & Hnot).
  { apply (run_invariant (fun _ => True)
             (fun s => ordered s /\ abandoned (handle item) s))
      with (events := after) (s := s1'); auto using Forall_True.
    intros e s s' _. apply abandoned_step. }
  unfold lineup in Hnot. rewrite !map_app, !in_app_iff in Hnot.
  repeat split.
  - intros H. apply Hnot. left. now apply Hset.
  - intros H. apply Hnot. left. now apply in_map.
  - intros H. apply Hnot. right. right. now apply in_map.
Qed.

End LimiterFacts.

(** ** Orchestrator *)

Section AggregatorFacts.

Import Aggregator.

Variable env : ApiClient.Env.
Variable cfg : Config.
Variable onProgress : option Callback.

Abbreviation processBatch := (Aggregator.processBatch env cfg onProgress).
Abbreviation loop := (Aggregator.loop env cfg onProgress).

(** Closes the cases of [processBatch_spec]: in each the lists of the
    run have grown by nothing or by what the case shows. *)
Ltac grown :=
  repeat split;
  first
    [ discriminate
    | reflexivity
    | intros ? ? [=]
    | exists []; split; [now rewrite app_nil_r | simpl; lia]
    | exists []; now rewrite app_nil_r
    | left; reflexivity
    | right; eexists; split; reflexivity
    | eexists; split; reflexivity
    | eexists; reflexivity ].

(** What one turn of the loop does to the run. *)
Lemma processBatch_spec (i total : nat) (batch : list string) (r : Run) :
  exists r',
    processBatch i total batch r = Some r'
    /\ submittedBatches r' = submittedBatches r ++ [batch]
    /\ (exists data,
          allResults r' = allResults r ++ data
          /\ successCount r' = (successCount r + Z.of_nat (List.length data))%Z)
    /\ (exists errs, errorList r' = errorList r ++ errs)
    /\ (delivered r' = delivered r
        \/ exists event,
             delivered r' = delivered r ++ [event]
             /\ ProgressEvent.batchIndex event = i)
    /\ (forall e h',
          ApiClient.fetchDeviceData env cfg batch 0 (history r) = Some (Threw e, h') ->
          errorList r' =
          errorList r ++ [{| batch := i + 1; serialNumbers := batch; error := message e |}]
          /\ allResults r' = allResults r
          /\ successCount r' = successCount r).
Proof.
  unfold Aggregator.processBatch. cbn [history].
  destruct (fetchDeviceData_total env cfg batch 0 (history r)) as (outcome & h' & ->).
  eexists. split; [reflexivity|].
  destruct outcome as [response|e].
  - unfold onResponse, catch.
    destruct (getProp response "data") as [[v|]|e]; [destruct v|..]; cbn;
      try (grown; fail).
    destruct (_ <? _)%Z; cbn; [grown|].
    destruct (forEach_status _ (onlineCount r) (offlineCount r))
      as [[online offline] [thrown|]]; cbn.
    + grown.
    + destruct onProgress as [callback|]; cbn.
      * destruct (callback _); cbn; grown.
      * grown.
  - unfold catch; cbn. split; [reflexivity|]. split; [|split; [|split]].
    + exists []. split; [now rewrite app_nil_r | simpl; lia].
    + eexists; reflexivity.
    + left; reflexivity.
    + intros e0 h0 [= <- _]. repeat split.
Qed.

Lemma loop_app (i total : nat) (l1 l2 : list (list string)) (r : Run) :
  loop i total (l1 ++ l2) r =
  match loop i total l1 r with
  | Some r1 => loop (i + List.length l1) total l2 r1
  | None => None
  end.
Proof.
  revert i r. induction l1 as [|batch l1 IH]; intros i r; simpl.
  - now rewrite Nat.add_0_r.
  - destruct (processBatch i total batch r); [|reflexivity].
    rewrite IH. now rewrite Nat.add_succ_r.
Qed.

(** What the loop does to the run, from batch [i] on. *)
Lemma loop_spec (total : nat) (batches : list (list string)) :
  forall i r,
  exists r',
    loop i total batches r = Some r'
    /\ submittedBatches r' = submittedBatches r ++ batches
    /\ (successCount r = Z.of_nat (List.length (allResults r)) ->
        successCount r' = Z.of_nat (List.length (allResults r')))
    /\ (exists errs, errorList r' = errorList r ++ errs)
    /\ (exists events,
          delivered r' = delivered r ++ events
          /\ Subsequence (map ProgressEvent.batchIndex events)
                         (seq i (List.length batches))).
Proof.
  induction batches as [|batch rest IH]; intros i r; simpl.
  - exists r. rewrite !app_nil_r. repeat split; auto.
    + exists []. now rewrite app_nil_r.
    + exists []. rewrite app_nil_r. split; [reflexivity|apply Subsequence_nil].
  - destruct (processBatch_spec i total batch r)
      as (r1 & -> & Hsub & (data & Hres & Hcount) & (errs & Herr) & Hdel & _).
    destruct (IH (S i) r1)
      as (r' & -> & Hsub' & Hcount' & (errs' & Herr') & (events' & Hdel' & Hsorted)).
    exists r'. split; [reflexivity|]. repeat split.
    + now rewrite Hsub', Hsub, <- app_assoc.
    + intros H. apply Hcount'. rewrite Hcount, Hres, length_app, H. lia.
    + exists (errs ++ errs'). now rewrite Herr', Herr, <- app_assoc.
    + destruct Hdel as [Hdel|(event & Hdel & Hidx)].
      * exists events'. split; [now rewrite Hdel', Hdel|].
        now apply Subsequence_skip.
      * exists (event :: events'). split; [now rewrite Hdel', Hdel, <- app_assoc|].
        simpl. rewrite Hidx. now apply Subsequence_take.
Qed.

(** A run ends whenever the planner returns. *)
Lemma aggregateDeviceData_total (h : ApiClient.History) (plan : BatchProcessor.BatchPlan) :
  BatchProcessor.prepareBatches_default cfg = Some plan ->
  exists r,
    loop 0 (BatchProcessor.totalBatches plan) (BatchProcessor.batches plan) (start h)
      = Some r
    /\ aggregateDeviceData env cfg onProgress h =
       Some (makeReport (BatchProcessor.totalDevices plan)
                        (BatchProcessor.totalBatches plan) r, r).
Proof.
  intros Hplan. unfold aggregateDeviceData. rewrite Hplan.
  destruct (loop_spec (BatchProcessor.totalBatches plan) (BatchProcessor.batches plan)
              0 (start h)) as (r & Hloop & _).
  exists r. now rewrite Hloop.
Qed.

(** The run one batch further on. *)
Lemma reach_next (h : ApiClient.History) (plan : BatchProcessor.BatchPlan)
    (i : nat) (batch : list string) (before after : Run) :
  BatchProcessor.prepareBatches_default cfg = Some plan ->
  nth_error (BatchProcessor.batches plan) i = Some batch ->
  reach env cfg onProgress i h = Some before ->
  reach env cfg onProgress (S i) h = Some after ->
  processBatch i (BatchProcessor.totalBatches plan) batch before = Some after.
Proof.
  intros Hplan Hnth Hbefore Hafter. unfold reach in *. rewrite Hplan in *.
  destruct (nth_error_split _ _ Hnth) as (l1 & l2 & Hsplit & Hlen).
  rewrite Hsplit in Hbefore, Hafter.
  rewrite firstn_app, Hlen, Nat.sub_diag, firstn_all2, app_nil_r in Hbefore
    by (rewrite Hlen; lia).
  rewrite firstn_app, Hlen, firstn_all2 in Hafter by (rewrite Hlen; lia).
  replace (S i - i) with 1 in Hafter by lia. cbn [firstn] in Hafter.
  rewrite loop_app, Hbefore, Hlen in Hafter. simpl in Hafter.
  destruct (processBatch i _ batch before); congruence.
Qed.

(** What one turn of the loop keeps of the answer it gets. *)
Lemma processBatch_records (i total : nat) (batch : list string) (r : Run) :
  exists outcome h' r',
    ApiClient.fetchDeviceData env cfg batch 0 (history r) = Some (outcome, h')
    /\ processBatch i total batch r = Some r'
    /\ allResults r' = allResults r ++ recordsObtained env outcome
    /\ successCount r'
       = (successCount r + Z.of_nat (List.length (recordsObtained env outcome)))%Z
    /\ history r' = h'.
Proof.
  unfold Aggregator.processBatch. cbn [history].
  destruct (fetchDeviceData_total env cfg batch 0 (history r)) as (outcome & h' & ->).
  exists outcome, (history r ++ h'). eexists. split; [reflexivity|].
  split; [reflexivity|].
  destruct outcome as [response|e]; unfold recordsObtained.
  - unfold onResponse, catch.
    destruct (getProp response "data") as [[v|]|e]; [destruct v|..]; cbn;
      try (rewrite app_nil_r; repeat split; lia).
    destruct (_ <? _)%Z; cbn; [rewrite app_nil_r; repeat split; lia|].
    destruct (forEach_status _ (onlineCount r) (offlineCount r))
      as [[online offline] [thrown|]]; cbn; [repeat split|].
    destruct onProgress as [callback|]; cbn; [|repeat split].
    destruct (callback _); cbn; repeat split.
  - unfold catch; cbn. rewrite app_nil_r. repeat split; lia.
Qed.

(** What the loop has collected is what the batches yielded. *)
Lemma loop_records (total : nat) (batches : list (list string)) :
  forall i r,
  exists r' records final,
    loop i total batches r = Some r'
    /\ cumulativeRecords env cfg batches (history r) = Some (records, final)
    /\ allResults r' = allResults r ++ records
    /\ successCount r' = (successCount r + Z.of_nat (List.length records))%Z
    /\ history r' = final.
Proof.
  induction batches as [|batch rest IH]; intros i r.
  - exists r, [], (history r). simpl. rewrite app_nil_r. repeat split; lia.
  - destruct (processBatch_records i total batch r)
      as (outcome & h' & r1 & Hfetch & Hturn & Hres & Hsucc & Hhist).
    destruct (IH (S i) r1) as (r' & records & final & Hloop & Hcum & Hres' & Hsucc' & Hfin).
    exists r', (recordsObtained env outcome ++ records), final.
    cbn [Aggregator.loop cumulativeRecords]. rewrite Hturn, Hfetch.
    rewrite Hhist in Hcum. rewrite Hcum.
    split; [exact Hloop|]. split; [reflexivity|].
    split; [now rewrite Hres', Hres, <- app_assoc|].
    split; [rewrite Hsucc', Hsucc, length_app; lia|exact Hfin].
Qed.

(** C8: every run with a positive batch size ends, and in the summary
    of its report the successful and the failed fetches add up to the
    device count: the failed ones are the device count less the number of
    device records collected from the batches that succeeded.  A batch
    whose fetch fails adds no record and nothing to the successful
    fetches, so all its devices are among the failed.  The records counted
    are those of the run: the devices of the report are the records that
    the batches yielded, one batch after the other, the successful fetches
    are their number, as the run has counted them, and the failed fetches
    are the device count less that number. *)
Theorem summary_accounts_for_all_devices (h : ApiClient.History) :
  (1 <= BATCH_SIZE cfg)%Z ->
  exists report final,
    aggregateDeviceData env cfg onProgress h = Some (report, final)
    /\ (successfulFetches (summary report) + failedFetches (summary report)
        = totalDevices (summary report))%Z
    /\ totalDevices (summary report) = Z.of_nat (TOTAL_DEVICES cfg)
    /\ successfulFetches (summary report) = Z.of_nat (List.length (devices report))
    /\ failedFetches (summary report)
       = (Z.of_nat (TOTAL_DEVICES cfg) - Z.of_nat (List.length (devices report)))%Z
    /\ (forall plan i batch before after e h',
          BatchProcessor.prepareBatches_default cfg = Some plan ->
          nth_error (BatchProcessor.batches plan) i = Some batch ->
          reach env cfg onProgress i h = Some before ->
          reach env cfg onProgress (S i) h = Some after ->
          ApiClient.fetchDeviceData env cfg batch 0 (history before)
            = Some (Threw e, h') ->
          allResults after = allResults before
          /\ successCount after = successCount before)
    /\ successfulFetches (summary report) = successCount final
    /\ devices report = allResults final
    /\ (exists plan records,
          BatchProcessor.prepareBatches_default cfg = Some plan
          /\ cumulativeRecords env cfg (BatchProcessor.batches plan) h
             = Some (records, history final)
          /\ devices report = records
          /\ successfulFetches (summary report) = Z.of_nat (List.length records)
          /\ failedFetches (summary report)
             = (Z.of_nat (TOTAL_DEVICES cfg) - Z.of_nat (List.length records))%Z)
    /\ (forall plan i batch before after outcome h',
          BatchProcessor.prepareBatches_default cfg = Some plan ->
          nth_error (BatchProcessor.batches plan) i = Some batch ->
          reach env cfg onProgress i h = Some before ->
          reach env cfg onProgress (S i) h = Some after ->
          ApiClient.fetchDeviceData env cfg batch 0 (history before)
            = Some (outcome, h') ->
          allResults after = allResults before ++ recordsObtained env outcome
          /\ successCount after
             = (successCount before
                + Z.of_nat (List.length (recordsObtained env outcome)))%Z).
Proof.
  intros Hsize.
  destruct (prepareBatches_spec (TOTAL_DEVICES cfg) (BATCH_SIZE cfg) Hsize)
    as (plan & Hplan & _ & _ & _ & _ & _ & _ & _ & Htotal).
  destruct (aggregateDeviceData_total h plan Hplan) as (r & Hloop & Hrun).
  destruct (loop_spec (BatchProcessor.totalBatches plan) (BatchProcessor.batches plan)
              0 (start h)) as (r' & Hloop' & _ & Hcount & _).
  rewrite Hloop in Hloop'. injection Hloop' as <-.
  specialize (Hcount eq_refl).
  destruct (loop_records (BatchProcessor.totalBatches plan) (BatchProcessor.batches plan)
              0 (start h)) as (r' & records & final & Hloop' & Hcum & Hres & Hsucc & Hfin).
  rewrite Hloop in Hloop'. injection Hloop' as <-. cbn in Hres, Hsucc, Hcum.
  eexists. eexists. split; [exact Hrun|].
  unfold makeReport. cbn. rewrite Htotal, Hcount.
  split; [lia|]. split; [reflexivity|]. split; [reflexivity|]. split; [lia|].
  split; [|split; [reflexivity|split; [reflexivity|split]]].
  - intros plan' i batch before after e h' Hplan' Hnth Hbefore Hafter Hfetch.
    pose proof (reach_next h plan' i batch before after Hplan' Hnth Hbefore Hafter)
      as Hturn.
    destruct (processBatch_spec i (BatchProcessor.totalBatches plan') batch before)
      as (r1 & Hturn' & _ & _ & _ & _ & Herr).
    rewrite Hturn in Hturn'. injection Hturn' as <-.
    destruct (Herr e h' Hfetch) as (_ & Hres' & Hcnt). now split.
  - exists plan, records. split; [exact Hplan|]. rewrite Hfin.
    split; [exact Hcum|]. split; [exact Hres|].
    rewrite Hres. split; [reflexivity|lia].
  - intros plan' i batch before after outcome h' Hplan' Hnth Hbefore Hafter Hfetch.
    pose proof (reach_next h plan' i batch before after Hplan' Hnth Hbefore Hafter)
      as Hturn.
    destruct (processBatch_records i (BatchProcessor.totalBatches plan') batch before)
      as (outcome' & h'' & r1 & Hfetch' & Hturn' & Hres' & Hsucc' & _).
    rewrite Hturn in Hturn'. injection Hturn' as <-.
    pose proof (eq_trans (eq_sym Hfetch') Hfetch) as Hsame.
    injection Hsame as -> _. now split.
Qed.

(** C7, as the code has it: every batch whose fetch fails, that is, for
    which [fetchDeviceData] throws once its retries are spent, is listed in
    the [errors] of the final report with its sequence number, its device
    identifiers and the message of the error it failed with.  No such
    batch is left out. *)
Theorem failed_batches_are_reported (h : ApiClient.History)
    (plan : BatchProcessor.BatchPlan) (report : Report) (final before : Run)
    (i : nat) (batch : list string) (e : JsError) (h' : ApiClient.History) :
  BatchProcessor.prepareBatches_default cfg = Some plan ->
  aggregateDeviceData env cfg onProgress h = Some (report, final) ->
  nth_error (BatchProcessor.batches plan) i = Some batch ->
  reach env cfg onProgress i h = Some before ->
  ApiClient.fetchDeviceData env cfg batch 0 (history before) = Some (Threw e, h') ->
  exists errs,
    errors report = Some errs
    /\ In {| batch := i + 1; serialNumbers := batch; error := message e |} errs
    /\ errorsCount (summary report) = List.length errs.
Proof.
  intros Hplan Hrun Hnth Hreach Hfetch.
  unfold reach in Hreach. rewrite Hplan in Hreach.
  destruct (aggregateDeviceData_total h plan Hplan) as (r & Hloop & Hrun').
  rewrite Hrun in Hrun'. injection Hrun' as -> ->.
  destruct (nth_error_split _ _ Hnth) as (l1 & l2 & Hsplit & Hlen).
  rewrite Hsplit in Hloop, Hreach.
  rewrite firstn_app, Hlen, Nat.sub_diag, firstn_all2, app_nil_r in Hreach
    by (rewrite Hlen; lia).
  change (firstn 0 (batch :: l2)) with (@nil (list string)) in Hreach.
  rewrite loop_app, Hreach in Hloop. simpl in Hloop. rewrite Hlen in Hloop.
  destruct (processBatch_spec i (BatchProcessor.totalBatches plan) batch before)
    as (r1 & Hturn & _ & _ & _ & _ & Herr).
  rewrite Hturn in Hloop. destruct (Herr e h' Hfetch) as (Herr' & _).
  clear Herr. rename Herr' into Herr.
  destruct (loop_spec (BatchProcessor.totalBatches plan) l2 (S i) r1)
    as (r2 & Hrest & _ & _ & (errs & Herrs) & _).
  rewrite Hrest in Hloop. injection Hloop as <-.
  assert ((0 <? List.length (errorList r2))%nat = true) as Hsome.
  { apply Nat.ltb_lt. rewrite Herrs, Herr, !length_app. simpl. lia. }
  unfold makeReport. cbn [errors summary errorsCount]. rewrite Hsome.
  exists (errorList r2). repeat split.
  rewrite Herrs, Herr, !in_app_iff. simpl. auto.
Qed.

(** The orchestrator hands the batches to the limiter in the order of
    the plan, and delivers its progress events in that order too. *)
Lemma aggregateDeviceData_order (h : ApiClient.History)
    (plan : BatchProcessor.BatchPlan) (report : Report) (final : Run) :
  BatchProcessor.prepareBatches_default cfg = Some plan ->
  aggregateDeviceData env cfg onProgress h = Some (report, final) ->
  submittedBatches final = BatchProcessor.batches plan
  /\ Subsequence (map ProgressEvent.batchIndex (delivered final))
                 (seq 0 (List.length (BatchProcessor.batches plan))).
Proof.
  intros Hplan Hrun.
  destruct (aggregateDeviceData_total h plan Hplan) as (r & Hloop & Hrun').
  rewrite Hrun in Hrun'. injection Hrun' as -> ->.
  destruct (loop_spec (BatchProcessor.totalBatches plan) (BatchProcessor.batches plan)
              0 (start h)) as (r' & Hloop' & Hsub & _ & _ & (events & Hdel & Hseq)).
  rewrite Hloop in Hloop'. injection Hloop' as <-.
  rewrite Hsub, Hdel. now split.
Qed.

End AggregatorFacts.

(** ** Order of execution, end to end *)

(** C9: a limiter begins the tasks it executes in the order in which they
    were handed to [execute], none overtaking another; unless [clear()]
    drops some, the tasks executed so far are the first of those
    submitted.  The orchestrator hands its batches to the limiter in the
    order of the plan, one after the other has completed, and its progress
    events come in that same order of batches. *)
Theorem execution_follows_submission {Task Value : Type} (interval now : Z)
    (events : list (@RateLimiter.Event Task Value)) (s : RateLimiter.State)
    (env : ApiClient.Env) (cfg : Config) (onProgress : option Aggregator.Callback)
    (h : ApiClient.History) (plan : BatchProcessor.BatchPlan)
    (report : Aggregator.Report) (final : Aggregator.Run) :
  RateLimiter.run events (RateLimiter.new_RateLimiter interval now) = Some s ->
  BatchProcessor.prepareBatches_default cfg = Some plan ->
  Aggregator.aggregateDeviceData env cfg onProgress h = Some (report, final) ->
  Subsequence (map RateLimiter.fn (RateLimiter.executionOrder s))
              (RateLimiter.submissions events)
  /\ (Forall (fun e => e <> RateLimiter.Clear) events ->
      exists pending,
        RateLimiter.submissions events
        = map RateLimiter.fn (RateLimiter.executionOrder s) ++ pending)
  /\ Aggregator.submittedBatches final = BatchProcessor.batches plan
  /\ Subsequence (map Aggregator.ProgressEvent.batchIndex (Aggregator.delivered final))
                 (seq 0 (List.length (BatchProcessor.batches plan))).
Proof.
  intros Hrun Hplan Hagg.
  destruct (execution_order_run _ _ interval now events s Hrun) as (Hsub & Hprefix).
  destruct (aggregateDeviceData_order env cfg onProgress h plan report final Hplan Hagg)
    as (Hbatches & Hevents).
  repeat split; try assumption.
  intros Hclear. eexists. apply Hprefix, Hclear.
Qed.

(** ** The scenarios, worked *)

Section Scenarios.

Import Scenario.

(** C1 fails on the code: [processQueue] asks [sleep] for what is left
    of the interval and starts the next task as soon as it is woken,
    without reading the clock again.  Woken when [Date.now()] is 1 ms short
    of the deadline, a limiter of 25 ms starts two tasks 24 ms apart; and
    with an interval of 2^31 ms, for which [setTimeout] sets the delay to
    1 ms, two tasks start 1 ms apart. *)
Theorem RateLimiter_starts_before_the_interval :
  (exists s,
     RateLimiter.run wokenEarly (RateLimiter.new_RateLimiter 25 5000) = Some s
     /\ RateLimiter.intervalMs s = 25%Z
     /\ RateLimiter.startTimes s = [5000; 5024]%Z)
  /\ (exists s,
        RateLimiter.run delayClamped
          (RateLimiter.new_RateLimiter 2147483648 1707050690123) = Some s
        /\ RateLimiter.intervalMs s = 2147483648%Z
        /\ RateLimiter.startTimes s = [1707050690123; 1707050690124]%Z).
Proof. split; eexists; (split; [vm_compute; reflexivity|]); split; reflexivity. Qed.

Lemma RateLimiter_spacing_within_witness :
  exists s,
    RateLimiter.run twoTasks (RateLimiter.new_RateLimiter 1100 5000) = Some s
    /\ RateLimiter.startTimes s = [5000; 6100]%Z
    /\ forall n t1 t2,
         nth_error (RateLimiter.startTimes s) n = Some t1 ->
         nth_error (RateLimiter.startTimes s) (S n) = Some t2 ->
         (t1 + (1100 - 0) <= t2)%Z.
Proof.
  eexists. split; [vm_compute; reflexivity|]. split; [reflexivity|].
  apply (RateLimiter_spacing_within nat nat 0 1100 5000 twoTasks).
  - vm_compute. reflexivity.
  - lia.
  - repeat constructor; simpl; lia.
Defined.

Lemma fetchDeviceData_persistent_429_witness :
  MAX_RETRIES config = 3%Z
  /\ INITIAL_RETRY_DELAY_MS config = 1500%Z
  /\ ApiClient.always_429 (answering tooManyRequests)
  /\ exists r1 r2 r3 r4,
       ApiClient.fetchDeviceData (answering tooManyRequests) config firstBatch 0 [] =
       Some (Threw (Error_ "Rate limit exceeded after 3 retries"),
             [ApiClient.Fetch r1; ApiClient.Sleep 1500; ApiClient.Fetch r2;
              ApiClient.Sleep 3000; ApiClient.Fetch r3; ApiClient.Sleep 6000;
              ApiClient.Fetch r4]).
Proof.
  assert (ApiClient.always_429 (answering tooManyRequests)) as H429
    by (intros h req; eexists; split; reflexivity).
  split; [reflexivity|]. split; [reflexivity|]. split; [exact H429|].
  destruct (fetchDeviceData_persistent_429 (answering tooManyRequests) config
              firstBatch [] eq_refl eq_refl H429) as (r1 & r2 & r3 & r4 & Hrun & _).
  exists r1, r2, r3, r4. exact Hrun.
Defined.

(** C6 fails on the code: when the endpoint answers 401 with a body that
    is not JSON, [fetchDeviceData] makes its one attempt and throws, but
    what it throws is the [SyntaxError] of [response.json()], not the
    authentication failure.  (With the mock API's body it throws
    [Authentication failed: Invalid Signature].) *)
Theorem fetchDeviceData_401_unreadable_body :
  (exists req,
     ApiClient.fetchDeviceData (answering unauthorizedNoJson) config firstBatch 0 [] =
     Some (Threw (SyntaxError "Unexpected end of JSON input"), [ApiClient.Fetch req]))
  /\ (exists req,
        ApiClient.fetchDeviceData (answering invalidSignature) config firstBatch 0 [] =
        Some (Threw (Error_ "Authentication failed: Invalid Signature"),
              [ApiClient.Fetch req])).
Proof. split; eexists; vm_compute; reflexivity. Qed.

(** C7 fails as stated: when every batch is answered with status 200 and
    no device records (an empty [data] array, or no [data] at all), no
    batch contributes a record, all 500 devices count as failed, and the
    report lists no error. *)
Lemma silent_batches_are_not_reported :
  option_map fst (Aggregator.aggregateDeviceData (answering emptyData) config None [])
  = Some {| Aggregator.summary :=
              {| Aggregator.totalDevices := 500;
                 Aggregator.successfulFetches := 0;
                 Aggregator.failedFetches := 500;
                 Aggregator.onlineDevices := 0;
                 Aggregator.offlineDevices := 0;
                 Aggregator.totalBatches := 50;
                 Aggregator.errorsCount := 0 |};
            Aggregator.devices := [];
            Aggregator.errors := None |}
  /\ option_map fst (Aggregator.aggregateDeviceData (answering noData) config None [])
     = option_map fst
         (Aggregator.aggregateDeviceData (answering emptyData) config None []).
Proof. split; vm_compute; reflexivity. Qed.

Lemma failed_batches_are_reported_witness :
  exists report final,
    Aggregator.aggregateDeviceData (answering tooManyRequests) fleet10 None []
    = Some (report, final)
    /\ exists errs,
         Aggregator.errors report = Some errs
         /\ In {| Aggregator.batch := 1;
                  Aggregator.serialNumbers := firstBatch;
                  Aggregator.error := "Rate limit exceeded after 3 retries" |} errs
         /\ Aggregator.errorsCount (Aggregator.summary report) = List.length errs.
Proof.
  eexists. eexists. split; [vm_compute; reflexivity|].
  eapply (failed_batches_are_reported (answering tooManyRequests) fleet10 None []
            _ _ _ _ 0 firstBatch (Error_ "Rate limit exceeded after 3 retries"));
    vm_compute; reflexivity.
Defined.

Lemma summary_accounts_for_all_devices_witness :
  (1 <= BATCH_SIZE fleet25)%Z
  /\ exists report final,
       Aggregator.aggregateDeviceData mockApi fleet25 None [] = Some (report, final)
       /\ (Aggregator.successfulFetches (Aggregator.summary report)
           + Aggregator.failedFetches (Aggregator.summary report)
           = Aggregator.totalDevices (Aggregator.summary report))%Z.
Proof.
  assert (1 <= BATCH_SIZE fleet25)%Z as Hsize by (simpl; lia).
  split; [exact Hsize|].
  destruct (summary_accounts_for_all_devices mockApi fleet25 None [] Hsize)
    as (report & final & Hrun & Hsum & _).
  exists report, final. split; assumption.
Defined.

Lemma execution_follows_submission_witness :
  exists s report final,
    RateLimiter.run twoTasks (RateLimiter.new_RateLimiter 1100 5000) = Some s
    /\ Aggregator.aggregateDeviceData mockApi fleet25 (Some (fun _ => None)) []
       = Some (report, final)
    /\ map RateLimiter.fn (RateLimiter.executionOrder s) = [1; 2]
    /\ Subsequence (map RateLimiter.fn (RateLimiter.executionOrder s))
                   (RateLimiter.submissions twoTasks)
    /\ map Aggregator.ProgressEvent.batchIndex (Aggregator.delivered final) = [0; 1; 2]
    /\ Aggregator.submittedBatches final
       = map (fun k => map BatchProcessor.serialNumber (seq (10 * k) (Nat.min 10 (25 - 10 * k))))
             [0; 1; 2].
Proof.
  eexists. eexists. eexists.
  split; [vm_compute; reflexivity|]. split; [vm_compute; reflexivity|].
  split; [reflexivity|].
  split; [|split; [reflexivity|vm_compute; reflexivity]].
  eapply (execution_follows_submission 1100 5000 twoTasks _ mockApi fleet25
            (Some (fun _ => None)) []); vm_compute; reflexivity.
Defined.

Lemma clear_abandons_pending_witness :
  exists s1 s2,
    RateLimiter.run queuedBehind (RateLimiter.new_RateLimiter 1100 5000) = Some s1
    /\ RateLimiter.queue s1 = [{| RateLimiter.fn := 2; RateLimiter.handle := 1 |}]
    /\ RateLimiter.run (RateLimiter.Clear :: carriesOn) s1 = Some s2
    /\ RateLimiter.settledHandles s2 = [0; 2]
    /\ ~ In 1 (RateLimiter.settledHandles s2).
Proof.
  eexists. eexists.
  split; [vm_compute; reflexivity|]. split; [reflexivity|].
  split; [vm_compute; reflexivity|]. split; [reflexivity|].
  eapply (clear_abandons_pending nat nat 1100 5000 queuedBehind carriesOn _ _
            {| RateLimiter.fn := 2; RateLimiter.handle := 1 |}).
  - vm_compute. reflexivity.
  - simpl. now left.
  - vm_compute. reflexivity.
Defined.

(** The two end-to-end scenarios: 25 devices in batches of 10 against an
    endpoint that always succeeds, and one batch of 10 against an endpoint
    that always answers 429. *)
Example scenario_25_devices :
  option_map (fun out => Aggregator.summary (fst out))
             (Aggregator.aggregateDeviceData mockApi fleet25 None [])
  = Some {| Aggregator.totalDevices := 25;
            Aggregator.successfulFetches := 25;
            Aggregator.failedFetches := 0;
            Aggregator.onlineDevices := 25;
            Aggregator.offlineDevices := 0;
            Aggregator.totalBatches := 3;
            Aggregator.errorsCount := 0 |}.
Proof. vm_compute. reflexivity. Qed.

Example scenario_10_devices_429 :
  option_map (fun out => (Aggregator.errors (fst out),
                          Aggregator.successfulFetches (Aggregator.summary (fst out)),
                          Aggregator.failedFetches (Aggregator.summary (fst out))))
             (Aggregator.aggregateDeviceData (answering tooManyRequests) fleet10 None [])
  = Some (Some [{| Aggregator.batch := 1;
                   Aggregator.serialNumbers := firstBatch;
                   Aggregator.error := "Rate limit exceeded after 3 retries" |}],
          0%Z, 10%Z).
Proof. vm_compute. reflexivity. Qed.

End Scenarios.

(** * Further properties *)

(** ** Rate limiter: the worker *)

Section WorkerFacts.

Import RateLimiter.

Context {Task Value : Type}.

Abbreviation LState := (@RateLimiter.State Task Value).
Abbreviation LEvent := (@RateLimiter.Event Task Value).

Lemma tidy_processQueue_loop (s : LState) :
  processing s = true ->
  lastRequestTime s = last (startTimes s) 0%Z ->
  map handle (executionOrder s) = settledHandles s ->
  tidy (processQueue_loop s).
Proof.
  destruct s as [iv last0 q p w c nh sub st se].
  unfold tidy, processQueue_loop, startTimes, executionOrder, settledHandles,
    runningHandle. simpl. intros -> Hlast Hset.
  destruct q as [|item rest]; simpl.
  - rewrite app_nil_r. repeat split; auto. discriminate.
  - destruct (Z.ltb_spec 0 (Z.max 0 (iv - (c - last0)))); simpl;
      rewrite app_nil_r; repeat split; auto; try discriminate.
    intros item0 deadline [= _ <-]. lia.
Qed.

Lemma tidy_step (e : LEvent) (s s' : LState) :
  ordered s -> tidy s -> step e s = Some s' -> tidy s'.
Proof.
  intros (Hidle & _) (Hrest & Hlast & Hdue & Hset) Hstep.
  destruct s as [iv last0 q p w c nh sub st se].
  unfold startTimes, executionOrder, settledHandles, runningHandle in *.
  assert (forall P : Prop, w = Idle -> (q = [] -> p = false -> P) -> P) as Hrest'
    by (intros P Hw HP; destruct (Hrest Hw); auto).
  destruct e as [f| |ms| | |r|short]; simpl in *.
  - destruct w as [|item deadline|item|item]; try discriminate;
      injection Hstep as <-; unfold processQueue; simpl.
    + destruct (Hrest eq_refl) as (-> & ->). simpl.
      apply tidy_processQueue_loop; simpl; auto.
      unfold executionOrder, settledHandles. simpl. now rewrite app_nil_r in Hset.
    + destruct p; [|specialize (Hidle eq_refl); discriminate]. simpl.
      unfold tidy, startTimes, executionOrder, settledHandles, runningHandle. simpl.
      repeat split; eauto; discriminate.
    + destruct p; [|specialize (Hidle eq_refl); discriminate]. simpl.
      unfold tidy, startTimes, executionOrder, settledHandles, runningHandle. simpl.
      repeat split; eauto; discriminate.
  - destruct w as [|item deadline|item|item]; try discriminate;
      injection Hstep as <-;
      unfold tidy, startTimes, executionOrder, settledHandles, runningHandle; simpl;
      repeat split; eauto; try discriminate.
    now destruct (Hrest eq_refl).
  - injection Hstep as <-.
    unfold tidy, startTimes, executionOrder, settledHandles, runningHandle; simpl.
    repeat split; eauto; eapply Hrest'; eauto.
  - destruct w as [|item deadline|item|item]; try discriminate.
    destruct (_ <=? _)%Z; [|discriminate]. injection Hstep as <-.
    unfold tidy, startTimes, executionOrder, settledHandles, runningHandle; simpl.
    repeat split; eauto; discriminate.
  - destruct w as [|item deadline|item|item]; try discriminate.
    injection Hstep as <-.
    unfold tidy, begin, startTimes, executionOrder, settledHandles, runningHandle; simpl.
    rewrite !map_app. simpl. rewrite last_last, app_nil_r in *.
    repeat split; eauto; try discriminate. now rewrite Hset.
  - destruct w as [|item deadline|item|item]; try discriminate.
    injection Hstep as <-.
    apply tidy_processQueue_loop; simpl; auto.
    + destruct p; [reflexivity|]. specialize (Hidle eq_refl). discriminate.
    + unfold executionOrder, settledHandles. simpl. now rewrite map_app.
  - destruct w as [|item deadline|item|item]; try discriminate.
    destruct (_ && _); [|discriminate]. injection Hstep as <-.
    unfold tidy, startTimes, executionOrder, settledHandles, runningHandle; simpl.
    repeat split; eauto; discriminate.
Qed.

Lemma tidy_new (interval now : Z) : tidy (new_RateLimiter interval now : LState).
Proof.
  unfold tidy, startTimes, executionOrder, settledHandles, runningHandle. simpl.
  repeat split; auto; discriminate.
Qed.

Lemma tidy_run (interval now : Z) (events : list LEvent) (s : LState) :
  run events (new_RateLimiter interval now) = Some s -> ordered s /\ tidy s.
Proof.
  apply (run_invariant Task Value (fun _ => True) (fun s0 => ordered s0 /\ tidy s0));
    auto using Forall_True.
  - intros e s0 s1 _ (Hord & Htidy) Hstep. split.
    + eapply ordered_step; eassumption.
    + eapply tidy_step; eassumption.
  - split; [apply ordered_new|apply tidy_new].
Qed.

(** X1: executions never overlap.  In every state a limiter can reach,
    every task that began to execute has had its promise settled, in the
    order of execution and once each, except the one task the worker is
    awaiting: a task begins only after the one before has settled. *)
Theorem executions_never_overlap (interval now : Z) (events : list LEvent)
    (s : LState) :
  run events (new_RateLimiter interval now) = Some s ->
  map handle (executionOrder s) = settledHandles s ++ runningHandle s
  /\ NoDup (settledHandles s)
  /\ List.length (started s) <= S (List.length (settled s)).
Proof.
  intros Hrun.
  destruct (tidy_run _ _ _ _ Hrun) as ((_ & Hsub & Hseq & _) & (_ & _ & _ & Hset)).
  split; [exact Hset|]. split.
  - assert (NoDup (map handle (lineup s))) as Hnd.
    { eapply Subsequence_NoDup; [apply Subsequence_map, Hseq|].
      rewrite Hsub. apply seq_NoDup. }
    unfold lineup in Hnd. rewrite map_app in Hnd.
    apply NoDup_app_remove_r in Hnd. rewrite Hset in Hnd.
    now apply NoDup_app_remove_r in Hnd.
  - apply (f_equal (@List.length nat)) in Hset.
    unfold executionOrder, settledHandles in Hset.
    rewrite length_app, !length_map in Hset. rewrite Hset.
    unfold runningHandle. destruct (worker s); simpl; lia.
Qed.

(** X2: the worker sleeps no longer than the interval asks.  Whenever it
    is asleep, its timer is due exactly [intervalMs] after the latest
    start on record (after time 0 when nothing has started yet). *)
Theorem sleep_is_due_one_interval_after_last_start (interval now : Z)
    (events : list LEvent) (s : LState) (item : Item) (deadline : Z) :
  run events (new_RateLimiter interval now) = Some s ->
  worker s = Sleeping item deadline ->
  deadline = (last (startTimes s) 0 + interval)%Z.
Proof.
  intros Hrun Hw.
  destruct (tidy_run _ _ _ _ Hrun) as (_ & (_ & Hlast & Hdue & _)).
  rewrite (Hdue item deadline Hw), Hlast.
  now rewrite (intervalMs_run _ _ _ _ _ Hrun).
Qed.

(** From the test of the [while] loop, the worker left alone works the
    queue off. *)
Lemma drain_loop (outcome : Item -> Settlement) :
  forall (q : list Item) (s : LState),
    queue s = q -> processing s = true ->
    exists (more : list LEvent) (s' : LState),
      Forall internal more
      /\ Forall (fun e => earliness e = 0%Z) more
      /\ run more (processQueue_loop s) = Some s'
      /\ atRest s'
      /\ executionOrder s' = executionOrder s ++ q
      /\ settled s' = settled s ++ map (fun it => (handle it, outcome it)) q.
Proof.
  induction q as [|item rest IH]; intros s Hq Hp;
    destruct s as [iv last0 q0 p w c nh sub st se]; simpl in *; subst.
  - exists [], (processQueue_loop
                  (mkState iv last0 [] true w c nh sub st se)).
    unfold processQueue_loop, atRest, executionOrder. simpl.
    rewrite !app_nil_r. repeat split; auto.
  - unfold processQueue_loop. simpl.
    set (waitTime := Z.max 0 (iv - (c - last0))).
    destruct (0 <? waitTime)%Z eqn:Hwait; simpl.
    + apply Z.ltb_lt in Hwait.
      destruct (IH (mkState iv (c + Z.of_nat (Z.to_nat waitTime)) rest true
                            (Running item) (c + Z.of_nat (Z.to_nat waitTime)) nh sub
                            (st ++ [(item, (c + Z.of_nat (Z.to_nat waitTime))%Z)])
                            (se ++ [(handle item, outcome item)]))
                  eq_refl eq_refl)
        as (more & s' & Hint & Hpunct & Hrun & Hrest & Hexec & Hset).
      exists ([Elapse (Z.to_nat waitTime); TimerFires; Begin; Settles (outcome item)]
              ++ more), s'.
      split; [repeat constructor; assumption|].
      split; [repeat constructor; assumption|].
      rewrite run_app. simpl.
      replace (c + waitTime <=? c + Z.of_nat (Z.to_nat waitTime))%Z with true
        by (symmetry; apply Z.leb_le; lia).
      simpl. split; [exact Hrun|]. split; [exact Hrest|].
      unfold executionOrder in *. simpl in *.
      rewrite Hexec, Hset, map_app, <- !app_assoc. auto.
    + destruct (IH (mkState iv c rest true (Running item) c nh sub
                            (st ++ [(item, c)])
                            (se ++ [(handle item, outcome item)]))
                  eq_refl eq_refl)
        as (more & s' & Hint & Hpunct & Hrun & Hrest & Hexec & Hset).
      exists ([Begin; Settles (outcome item)] ++ more), s'.
      split; [repeat constructor; assumption|].
      split; [repeat constructor; assumption|].
      rewrite run_app. simpl.
      split; [exact Hrun|]. split; [exact Hrest|].
      unfold executionOrder in *. simpl in *.
      rewrite Hexec, Hset, map_app, <- !app_assoc. auto.
Qed.

(** X3: the worker never gets stuck.  From every state a limiter can
    reach, and whatever the outcomes of the tasks (resolved or rejected),
    the events of the worker alone (time passing, the timer firing when
    it is due, the start and the settling of tasks) lead to a limiter at
    rest in which everything
    that was in the worker's hand or in the queue has been executed, in
    order, and every one of those promises has been settled with the
    outcome of its own task. *)
Theorem worker_drains_the_queue (interval now : Z) (events : list LEvent)
    (s : LState) (outcome : Item -> Settlement) :
  run events (new_RateLimiter interval now) = Some s ->
  exists (more : list LEvent) (s' : LState),
    Forall internal more
    /\ Forall (fun e => earliness e = 0%Z) more
    /\ run more s = Some s'
    /\ atRest s'
    /\ executionOrder s' = lineup s
    /\ settled s' =
       settled s ++ map (fun it => (handle it, outcome it)) (inHand s ++ queue s).
Proof.
  intros Hrun.
  destruct (tidy_run _ _ _ _ Hrun) as ((Hidle & _) & (Hrest & _)).
  destruct s as [iv last0 q p w c nh sub st se].
  unfold lineup, waiting, inHand, executionOrder in *. simpl in *.
  destruct w as [|item deadline|item|item].
  - destruct (Hrest eq_refl) as (-> & ->).
    exists [], (mkState iv last0 [] false Idle c nh sub st se).
    unfold atRest. simpl. rewrite !app_nil_r. repeat split; auto.
  - destruct p; [|specialize (Hidle eq_refl); discriminate].
    destruct (drain_loop outcome q
                (mkState iv (Z.max deadline c) q true (Running item)
                         (Z.max deadline c) nh sub
                         (st ++ [(item, Z.max deadline c)])
                         (se ++ [(handle item, outcome item)])) eq_refl eq_refl)
      as (more & s' & Hint & Hpunct & Hmore & Hat & Hexec & Hset).
    exists ([Elapse (Z.to_nat (deadline - c)); TimerFires; Begin;
             Settles (outcome item)] ++ more), s'.
    split; [repeat constructor; assumption|].
    split; [repeat constructor; assumption|].
    rewrite run_app. simpl.
    replace (deadline <=? c + Z.of_nat (Z.to_nat (deadline - c)))%Z with true
      by (symmetry; apply Z.leb_le; lia).
    simpl.
    replace (c + Z.of_nat (Z.to_nat (deadline - c)))%Z with (Z.max deadline c) by lia.
    split; [exact Hmore|]. split; [exact Hat|].
    unfold executionOrder in *. simpl in *.
    rewrite Hexec, Hset, map_app, <- !app_assoc. auto.
  - destruct p; [|specialize (Hidle eq_refl); discriminate].
    destruct (drain_loop outcome q
                (mkState iv c q true (Running item) c nh sub
                         (st ++ [(item, c)])
                         (se ++ [(handle item, outcome item)])) eq_refl eq_refl)
      as (more & s' & Hint & Hpunct & Hmore & Hat & Hexec & Hset).
    exists ([Begin; Settles (outcome item)] ++ more), s'.
    split; [repeat constructor; assumption|].
    split; [repeat constructor; assumption|].
    rewrite run_app. simpl.
    split; [exact Hmore|]. split; [exact Hat|].
    unfold executionOrder in *. simpl in *.
    rewrite Hexec, Hset, map_app, <- !app_assoc. auto.
  - destruct p; [|specialize (Hidle eq_refl); discriminate].
    destruct (drain_loop outcome q
                (mkState iv last0 q true (Running item) c nh sub st
                         (se ++ [(handle item, outcome item)])) eq_refl eq_refl)
      as (more & s' & Hint & Hpunct & Hmore & Hat & Hexec & Hset).
    exists ([Settles (outcome item)] ++ more), s'.
    split; [repeat constructor; assumption|].
    split; [repeat constructor; assumption|].
    rewrite run_app. simpl.
    split; [exact Hmore|]. split; [exact Hat|].
    unfold executionOrder in *. simpl in *.
    rewrite Hexec, Hset, <- !app_assoc. auto.
Qed.

Lemma Subsequence_length {A : Type} (l1 l2 : list A) :
  Subsequence l1 l2 -> List.length l1 <= List.length l2.
Proof. induction 1; simpl; lia. Qed.

(** X5: [getQueueLength()] is the backlog not yet taken up.  The tasks
    begun, the one the worker holds before its start, and the queue never
    add up to more than the calls of [execute]; as long as [clear()] is
    not called they add up to exactly that number, and right after
    [clear()] the queue length is 0. *)
Theorem getQueueLength_counts_the_backlog (interval now : Z)
    (events : list LEvent) (s : LState) :
  run events (new_RateLimiter interval now) = Some s ->
  List.length (started s) + List.length (waiting s) + getQueueLength s
  <= List.length (submissions events)
  /\ (Forall (fun e => e <> Clear) events ->
      List.length (started s) + List.length (waiting s) + getQueueLength s
      = List.length (submissions events))
  /\ (forall s', step Clear s = Some s' -> getQueueLength s' = 0).
Proof.
  intros Hrun.
  pose proof (ordered_new Task Value interval now) as Hnew.
  pose proof (submitted_run _ _ _ _ _ Hnew Hrun) as Hsub. simpl in Hsub.
  destruct (ordered_run _ _ _ _ _ Hnew Hrun) as (_ & _ & Hseq & _).
  destruct (execution_order_run _ _ _ _ _ _ Hrun) as (_ & Hexact).
  unfold getQueueLength. repeat split.
  - apply Subsequence_length in Hseq.
    apply (f_equal (@List.length Task)) in Hsub. rewrite length_map in Hsub.
    unfold lineup, executionOrder in Hseq. rewrite !length_app, length_map in Hseq.
    lia.
  - intros Hclear. rewrite (Hexact Hclear).
    unfold executionOrder. rewrite length_app, !length_map, length_app. lia.
  - intros s' Hstep. simpl in Hstep.
    destruct (worker s); try discriminate; now injection Hstep as <-.
Qed.

End WorkerFacts.

(** ** Telemetry client: every path of a call *)

Section RetryFacts.

Import ApiClient.

Variable env : Env.
Variable cfg : Config.

Lemma retried_extends (snList : list string) :
  forall n retryCount h,
  exists t,
    retried env cfg snList retryCount n h = h ++ t
    /\ List.length (attempts t) = n
    /\ delays t = map (backoff cfg) (seq retryCount n)
    /\ attempts t =
       map (fun j => requestAt env cfg snList (retried env cfg snList retryCount j h))
           (seq 0 n).
Proof.
  induction n as [|n IH]; intros retryCount h; cbn [retried].
  - exists []. rewrite app_nil_r. repeat split.
  - destruct (IH (S retryCount)
                (h ++ [Fetch (requestAt env cfg snList h); Sleep (backoff cfg retryCount)]))
      as (t & Ht & Hlen & Hdel & Hatt).
    exists ([Fetch (requestAt env cfg snList h); Sleep (backoff cfg retryCount)] ++ t).
    rewrite Ht, <- app_assoc. unfold attempts, delays in *.
    rewrite !flat_map_app. cbn [flat_map app]. repeat split.
    + simpl. now rewrite Hlen.
    + simpl. now rewrite Hdel.
    + rewrite Hatt. cbn [seq map retried]. f_equal.
      rewrite <- seq_shift, map_map. reflexivity.
Qed.

(** One call that tries again. *)
Lemma fetchDeviceData_rec_again (fuel : nat) (snList : list string)
    (retryCount : nat) (h : History) :
  retryable (remote env h (requestAt env cfg snList h)) = true ->
  (Z.of_nat retryCount < MAX_RETRIES cfg)%Z ->
  fetchDeviceData_rec env cfg (S fuel) snList retryCount h =
  fetchDeviceData_rec env cfg fuel snList (S retryCount)
    (h ++ [Fetch (requestAt env cfg snList h); Sleep (backoff cfg retryCount)]).
Proof.
  intros Hretry Hlt. cbn [fetchDeviceData_rec]. apply Z.ltb_lt in Hlt.
  destruct (remote env h (requestAt env cfg snList h)) as [e|r]; simpl in Hretry;
    unfold classify; rewrite Hretry, Hlt, <- app_assoc; reflexivity.
Qed.

(** One call that has no retry left. *)
Lemma fetchDeviceData_rec_exhausted (fuel : nat) (snList : list string)
    (retryCount : nat) (h : History) :
  retryable (remote env h (requestAt env cfg snList h)) = true ->
  (MAX_RETRIES cfg <= Z.of_nat retryCount)%Z ->
  fetchDeviceData_rec env cfg (S fuel) snList retryCount h =
  Some (Threw (lastWord cfg (remote env h (requestAt env cfg snList h))),
        h ++ [Fetch (requestAt env cfg snList h)]).
Proof.
  intros Hretry Hge. cbn [fetchDeviceData_rec]. apply Z.ltb_ge in Hge.
  destruct (remote env h (requestAt env cfg snList h)) as [e|r]; simpl in Hretry.
  - unfold classify. rewrite Hretry, Hge. reflexivity.
  - unfold classify. rewrite Hretry, Hge. reflexivity.
Qed.

(** What the [try] block throws on an answer other than 429 is never
    taken for a network error. *)
Lemma classify_throws_for_good (r : Response) (retryCount : nat) (e : JsError) :
  (status r =? 429)%Z = false ->
  classify cfg (FetchResolves r) retryCount = Throws e ->
  String.eqb (name e) "TypeError" && includes (message e) "fetch" = false.
Proof.
  unfold classify. intros ->.
  destruct (status r =? 401)%Z.
  - destruct (body r) as [why|v]; [now intros [= <-]|].
    destruct (getProp v "error") as [u|e0] eqn:Hget.
    + destruct (templateString u) as [text|thrown] eqn:Hprint; intros [= <-];
        [reflexivity|].
      now rewrite (templateString_throws _ _ Hprint).
    + intros [= <-]. destruct v; cbn in Hget; try discriminate.
      now injection Hget as <-.
  - destruct (negb (ok r)).
    + destruct (getProp _ "error") as [u|e0] eqn:Hget.
      * destruct (if truthy u then templateString u else Returned "Unknown error")
          as [text|thrown] eqn:Hprint; intros [= <-]; [reflexivity|].
        destruct (truthy u); [|discriminate].
        now rewrite (templateString_throws _ _ Hprint).
      * intros [= <-]. destruct (body r) as [why|v]; cbn in Hget; [discriminate|].
        destruct v; cbn in Hget; try discriminate. now injection Hget as <-.
    + destruct (body r); [now intros [= <-]|discriminate].
Qed.

(** One call that does not try again. *)
Lemma fetchDeviceData_rec_final (fuel : nat) (snList : list string)
    (retryCount : nat) (h : History) :
  retryable (remote env h (requestAt env cfg snList h)) = false ->
  fetchDeviceData_rec env cfg (S fuel) snList retryCount h =
  Some (verdict cfg (remote env h (requestAt env cfg snList h)),
        h ++ [Fetch (requestAt env cfg snList h)]).
Proof.
  intros Hretry. cbn [fetchDeviceData_rec]. unfold verdict.
  destruct (remote env h (requestAt env cfg snList h)) as [e|r]; simpl in Hretry.
  - cbn [classify]. now rewrite Hretry.
  - assert (classify cfg (FetchResolves r) retryCount = classify cfg (FetchResolves r) 0)
      as Hsame by (unfold classify; now rewrite Hretry).
    rewrite Hsame.
    destruct (classify cfg (FetchResolves r) 0) as [data|delay|e] eqn:Hclass.
    + reflexivity.
    + unfold classify in Hclass. rewrite Hretry in Hclass.
      destruct (status r =? 401)%Z.
      * destruct (body r) as [why|v]; [discriminate|].
        destruct (getProp v "error") as [u|]; [|discriminate].
        destruct (templateString u); discriminate.
      * destruct (negb (ok r)).
        -- destruct (getProp _ "error") as [u|]; [|discriminate].
           destruct (if truthy u then _ else _); discriminate.
        -- destruct (body r); discriminate.
    + now rewrite (classify_throws_for_good r 0 e Hretry Hclass).
Qed.

(** The shape of every call: some attempts each followed by its wait,
    then one last attempt. *)
Lemma fetchDeviceData_rec_shape (snList : list string) :
  forall fuel retryCount h,
    Z.to_nat (MAX_RETRIES cfg - Z.of_nat retryCount) < fuel ->
    exists n outcome,
      fetchDeviceData_rec env cfg fuel snList retryCount h =
      Some (outcome,
            retried env cfg snList retryCount n h
            ++ [Fetch (requestAt env cfg snList (retried env cfg snList retryCount n h))])
      /\ (n = 0 \/ (Z.of_nat (retryCount + n) <= MAX_RETRIES cfg)%Z).
Proof.
  induction fuel as [|fuel IH]; intros retryCount h Hfuel; [lia|].
  destruct (retryable (remote env h (requestAt env cfg snList h))) eqn:Hretry.
  - destruct (Z.lt_ge_cases (Z.of_nat retryCount) (MAX_RETRIES cfg)) as [Hlt|Hge].
    + rewrite (fetchDeviceData_rec_again _ _ _ _ Hretry Hlt).
      destruct (IH (S retryCount)
                  (h ++ [Fetch (requestAt env cfg snList h);
                         Sleep (backoff cfg retryCount)]))
        as (n & outcome & Hrun & Hn); [lia|].
      exists (S n), outcome. cbn [retried]. split; [exact Hrun|]. right. lia.
    + rewrite (fetchDeviceData_rec_exhausted _ _ _ _ Hretry Hge).
      exists 0. eexists. split; [reflexivity|]. now left.
  - rewrite (fetchDeviceData_rec_final _ _ _ _ Hretry).
    exists 0. eexists. split; [reflexivity|]. now left.
Qed.

(** X9: a call never makes more than [MAX_RETRIES + 1] attempts, whatever
    the endpoint does.  Started with retry count [retryCount], it makes
    [n + 1] requests where [n = 0] or [retryCount + n <= MAX_RETRIES], and
    it waits between them [initialDelay * 2^retryCount],
    [initialDelay * 2^(retryCount+1)], ... and nothing else. *)
Theorem fetchDeviceData_attempts_bounded (snList : list string)
    (retryCount : nat) (h : History) :
  exists outcome h' n,
    fetchDeviceData env cfg snList retryCount h = Some (outcome, h ++ h')
    /\ List.length (attempts h') = S n
    /\ delays h' = map (backoff cfg) (seq retryCount n)
    /\ (n = 0 \/ (Z.of_nat (retryCount + n) <= MAX_RETRIES cfg)%Z).
Proof.
  destruct (fetchDeviceData_rec_shape snList
              (S (Z.to_nat (MAX_RETRIES cfg - Z.of_nat retryCount))) retryCount h)
    as (n & outcome & Hrun & Hn); [lia|].
  destruct (retried_extends snList n retryCount h) as (t & Ht & Hlen & Hdel & _).
  exists outcome,
    (t ++ [Fetch (requestAt env cfg snList (retried env cfg snList retryCount n h))]), n.
  unfold fetchDeviceData. rewrite Hrun, Ht, <- app_assoc.
  unfold attempts, delays in *. rewrite !flat_map_app, length_app. cbn [flat_map app].
  split; [reflexivity|]. split; [simpl; lia|].
  split; [now rewrite app_nil_r|exact Hn].
Qed.

(** X6: every attempt is signed afresh.  The [j]-th request of a call
    is the one built from the history as it stands just then: the same
    batch, the configured URL, a timestamp read off the clock at that
    moment, and as signature the digest of endpoint, token and that
    timestamp. *)
Theorem fetchDeviceData_signs_every_attempt (snList : list string)
    (retryCount : nat) (h : History) :
  exists outcome h' n,
    fetchDeviceData env cfg snList retryCount h = Some (outcome, h ++ h')
    /\ attempts h' =
       map (fun j => requestAt env cfg snList (retried env cfg snList retryCount j h))
           (seq 0 (S n))
    /\ Forall (fun req =>
                 sn_list req = snList
                 /\ fullUrl req = (API_BASE_URL cfg ++ API_ENDPOINT cfg)%string
                 /\ signature (headers req) =
                    md5 env (API_ENDPOINT cfg ++ SECRET_TOKEN cfg
                             ++ timestamp (headers req))%string)
              (attempts h')
    /\ forall j req,
         nth_error (attempts h') j = Some req ->
         timestamp (headers req) =
         ZtoString (Date_now env (retried env cfg snList retryCount j h)).
Proof.
  destruct (fetchDeviceData_rec_shape snList
              (S (Z.to_nat (MAX_RETRIES cfg - Z.of_nat retryCount))) retryCount h)
    as (n & outcome & Hrun & _).
  { lia. }
  destruct (retried_extends snList n retryCount h) as (t & Ht & _ & _ & Hatt).
  exists outcome,
    (t ++ [Fetch (requestAt env cfg snList (retried env cfg snList retryCount n h))]), n.
  unfold fetchDeviceData. rewrite Hrun, Ht, <- app_assoc.
  assert (attempts
            (t ++ [Fetch (requestAt env cfg snList (h ++ t))]) =
          map (fun j => requestAt env cfg snList (retried env cfg snList retryCount j h))
              (seq 0 (S n))) as Hall.
  { unfold attempts in *. rewrite flat_map_app, Hatt. cbn [flat_map app].
    rewrite seq_S, map_app. cbn [map Nat.add]. now rewrite Ht. }
  split; [reflexivity|]. split; [exact Hall|]. rewrite Hall. split.
  - apply Forall_forall. intros req Hin. apply in_map_iff in Hin as (j & <- & _).
    repeat split.
  - intros j req Hnth. rewrite nth_error_map in Hnth.
    destruct (nth_error (seq 0 (S n)) j) as [j'|] eqn:Hj; [|discriminate].
    rewrite nth_error_seq in Hj. destruct (j <? S n)%nat; [|discriminate].
    injection Hj as <-. injection Hnth as <-. reflexivity.
Qed.

Lemma attempts_retried (snList : list string) (retryCount n : nat) (h : History) :
  List.length (attempts (retried env cfg snList retryCount n h))
  = List.length (attempts h) + n.
Proof.
  destruct (retried_extends snList n retryCount h) as (t & -> & Hlen & _).
  unfold attempts in *. now rewrite flat_map_app, length_app, Hlen.
Qed.

(** Against a scripted endpoint, [k] answers that call for a retry, with
    retries left, are [k] attempts each followed by its wait. *)
Lemma fetchDeviceData_rec_scripted (script : nat -> FetchResult)
    (snList : list string) :
  scripted env script ->
  forall k fuel retryCount h,
    (Z.of_nat (retryCount + k) <= MAX_RETRIES cfg)%Z ->
    (forall j, j < k -> retryable (script (List.length (attempts h) + j)) = true) ->
    fetchDeviceData_rec env cfg (k + fuel) snList retryCount h =
    fetchDeviceData_rec env cfg fuel snList (retryCount + k)
      (retried env cfg snList retryCount k h).
Proof.
  intros Hscript. induction k as [|k IH]; intros fuel retryCount h Hmax Hall.
  - cbn [retried Nat.add]. now rewrite Nat.add_0_r.
  - cbn [retried Nat.add].
    rewrite fetchDeviceData_rec_again.
    + rewrite IH.
      * now rewrite Nat.add_succ_r.
      * lia.
      * intros j Hj.
        replace (List.length (attempts (h ++ [Fetch (requestAt env cfg snList h);
                                               Sleep (backoff cfg retryCount)])) + j)
          with (List.length (attempts h) + S j).
        -- apply Hall. lia.
        -- unfold attempts. rewrite flat_map_app, length_app. simpl. lia.
    + rewrite Hscript. rewrite <- (Nat.add_0_r (List.length (attempts h))).
      apply Hall. lia.
    + lia.
Qed.

(** X7: retries are transparent.  Against an endpoint that answers by a
    script, when the next [k] answers call for a retry (status 429, or a
    network error of [fetch]), [k] is within [MAX_RETRIES], and the answer
    after them does not, the call ends as a single call would on that
    answer alone, after exactly [k + 1] requests and waits of
    [initialDelay], [2 * initialDelay], ..., [2^(k-1) * initialDelay]. *)
Theorem fetchDeviceData_retries_until_answered (script : nat -> FetchResult)
    (snList : list string) (h : History) (k : nat) :
  scripted env script ->
  (Z.of_nat k <= MAX_RETRIES cfg)%Z ->
  (forall j, j < k -> retryable (script (List.length (attempts h) + j)) = true) ->
  retryable (script (List.length (attempts h) + k)) = false ->
  exists h',
    fetchDeviceData env cfg snList 0 h
    = Some (verdict cfg (script (List.length (attempts h) + k)), h ++ h')
    /\ List.length (attempts h') = S k
    /\ delays h' = map (backoff cfg) (seq 0 k).
Proof.
  intros Hscript Hmax Hall Hlast.
  destruct (retried_extends snList k 0 h) as (t & Ht & Hlen & Hdel & _).
  exists (t ++ [Fetch (requestAt env cfg snList (retried env cfg snList 0 k h))]).
  unfold fetchDeviceData.
  replace (S (Z.to_nat (MAX_RETRIES cfg - Z.of_nat 0)))
    with (k + S (Z.to_nat (MAX_RETRIES cfg) - k)) by lia.
  rewrite (fetchDeviceData_rec_scripted script snList Hscript k _ 0 h) by (auto; lia).
  rewrite fetchDeviceData_rec_final.
  - rewrite Hscript, attempts_retried, Ht, <- app_assoc.
    unfold attempts, delays in *. rewrite !flat_map_app, length_app. cbn [flat_map app].
    split; [reflexivity|]. split; [simpl; lia|]. now rewrite app_nil_r.
  - now rewrite Hscript, attempts_retried.
Qed.

(** X8: retries are bounded.  Against an endpoint that answers by a
    script, when the next [MAX_RETRIES + 1] answers all call for a retry,
    the call makes exactly [MAX_RETRIES + 1] requests, with the waits
    [initialDelay * 2^j] for [j = 0 .. MAX_RETRIES - 1] between them, and
    throws: the rate-limit error if the last answer was a 429, the network
    error itself if it was one. *)
Theorem fetchDeviceData_gives_up (script : nat -> FetchResult)
    (snList : list string) (h : History) :
  scripted env script ->
  (forall j, j <= Z.to_nat (MAX_RETRIES cfg) ->
             retryable (script (List.length (attempts h) + j)) = true) ->
  exists h',
    fetchDeviceData env cfg snList 0 h
    = Some (Threw (lastWord cfg
                     (script (List.length (attempts h) + Z.to_nat (MAX_RETRIES cfg)))),
            h ++ h')
    /\ List.length (attempts h') = S (Z.to_nat (MAX_RETRIES cfg))
    /\ delays h' = map (backoff cfg) (seq 0 (Z.to_nat (MAX_RETRIES cfg))).
Proof.
  intros Hscript Hall.
  set (k := Z.to_nat (MAX_RETRIES cfg)) in *.
  destruct (retried_extends snList k 0 h) as (t & Ht & Hlen & Hdel & _).
  exists (t ++ [Fetch (requestAt env cfg snList (retried env cfg snList 0 k h))]).
  unfold fetchDeviceData.
  replace (S (Z.to_nat (MAX_RETRIES cfg - Z.of_nat 0))) with (k + 1) by lia.
  destruct (Z.le_gt_cases 0 (MAX_RETRIES cfg)) as [Hpos|Hneg].
  - rewrite (fetchDeviceData_rec_scripted script snList Hscript k _ 0 h)
      by (try lia; intros j Hj; apply Hall; lia).
    rewrite fetchDeviceData_rec_exhausted.
    + rewrite Hscript, attempts_retried, Ht, <- app_assoc.
      unfold attempts, delays in *. rewrite !flat_map_app, length_app.
      cbn [flat_map app].
      split; [reflexivity|]. split; [simpl; lia|]. now rewrite app_nil_r.
    + rewrite Hscript, attempts_retried. apply Hall. lia.
    + lia.
  - assert (k = 0) as Hk by lia. revert t Ht Hlen Hdel. rewrite Hk.
    cbn [retried Nat.add seq map]. intros t Ht Hlen Hdel.
    rewrite fetchDeviceData_rec_exhausted.
    + rewrite Hscript. rewrite Nat.add_0_r.
      assert (t = []) as -> by (apply (app_inv_head h); now rewrite app_nil_r).
      split; [reflexivity|]. split; reflexivity.
    + rewrite Hscript, <- (Nat.add_0_r (List.length (attempts h))). apply Hall. lia.
    + lia.
Qed.

(** X11: an answer with a failure status other than 429 and 401 ends the
    call at once, without a retry.  The error thrown names the status and
    the [error] member of the body; a body that is not JSON, or has no
    [error] to show, is tolerated and yields [Unknown error].  Where the
    [error] member cannot be printed (an object that has a [toString]
    member of its own), what is thrown is the error of printing it. *)
Theorem fetchDeviceData_api_error (snList : list string) (retryCount : nat)
    (h : History) (r : Response) :
  remote env h (requestAt env cfg snList h) = FetchResolves r ->
  status r <> 429%Z -> status r <> 401%Z -> ok r = false ->
  exists e,
    fetchDeviceData env cfg snList retryCount h
      = Some (Threw e, h ++ [Fetch (requestAt env cfg snList h)])
    /\ match body r with
       | Parsed JNull =>
           e = TypeError "Cannot read properties of null (reading 'error')"
       | Parsed (JObj fields) =>
           match (if truthy (lookup "error" fields)
                  then templateString (lookup "error" fields)
                  else Returned "Unknown error") with
           | Returned text =>
               e = Error_ ("API Error " ++ ZtoString (status r) ++ ": " ++ text)%string
           | Threw thrown =>
               e = thrown
               /\ thrown = TypeError "Cannot convert object to primitive value"
           end
       | Unparseable _ | Parsed _ =>
           e = Error_ ("API Error " ++ ZtoString (status r) ++ ": Unknown error")%string
       end.
Proof.
  intros Hremote H429 H401 Hok.
  unfold fetchDeviceData. cbn [fetchDeviceData_rec].
  rewrite Hremote. unfold classify.
  apply Z.eqb_neq in H429, H401. rewrite H429, H401, Hok. cbn [negb].
  destruct (body r) as [why|[| | | | |fields]]; cbn; eauto.
  destruct (if truthy (lookup "error" fields)
            then templateString (lookup "error" fields)
            else Returned "Unknown error") as [text|thrown] eqn:Hprint;
    cbn; [eauto|].
  assert (thrown = TypeError "Cannot convert object to primitive value") as ->.
  { destruct (truthy _); [|discriminate]. apply (templateString_throws _ _ Hprint). }
  cbn. eexists. split; [reflexivity|]. split; reflexivity.
Qed.

End RetryFacts.

(** ** Batch planner: where each device goes *)

Section BatchLayoutFacts.

Import BatchProcessor.

Lemma ceil_step (b x : nat) :
  1 <= b -> 1 <= x -> (x + b - 1) / b = S ((x - b + b - 1) / b).
Proof.
  intros Hb Hx. destruct (Nat.le_gt_cases b x) as [Hle|Hgt].
  - replace (x + b - 1) with ((x - b + b - 1) + 1 * b) by lia.
    rewrite Nat.div_add by lia. lia.
  - replace (x - b + b - 1) with (b - 1) by lia.
    rewrite (Nat.div_small (b - 1) b) by lia.
    symmetry. apply (Nat.div_unique (x + b - 1) b 1 (x - 1)); lia.
Qed.

(** The windows the loop of [createBatches] pushes, one by one. *)
Lemma createBatches_loop_windows {A : Type} (items : list A) (b : nat) :
  1 <= b ->
  forall fuel n acc,
    List.length items - n < fuel ->
    exists res,
      createBatches_loop fuel items (Z.of_nat b) (Z.of_nat n) acc = Some (acc ++ res)
      /\ List.length res = (List.length items - n + b - 1) / b
      /\ forall k, k < List.length res ->
                   nth_error res k = Some (firstn b (skipn (n + k * b) items)).
Proof.
  intros Hb. induction fuel as [|fuel IH]; intros n acc Hfuel; [lia|].
  simpl. destruct (Z.ltb_spec (Z.of_nat n) (Z.of_nat (List.length items))) as [Hn|Hn].
  - replace (Z.of_nat n + Z.of_nat b)%Z with (Z.of_nat (n + b)) by lia.
    destruct (IH (n + b) (acc ++ [slice items (Z.of_nat n) (Z.of_nat (n + b))]))
      as (res & Hrun & Hlen & Hnth); [lia|].
    replace (Z.of_nat (n + b)) with (Z.of_nat n + Z.of_nat b)%Z in * by lia.
    rewrite slice_window in * by lia.
    exists (firstn b (skipn n items) :: res).
    rewrite Hrun, <- app_assoc. split; [reflexivity|]. split.
    + simpl. rewrite Hlen.
      replace (List.length items - (n + b)) with (List.length items - n - b) by lia.
      symmetry. apply ceil_step; lia.
    + intros [|k] Hk; simpl in *.
      * now rewrite Nat.add_0_r.
      * rewrite Hnth by lia. do 3 f_equal. lia.
  - exists []. rewrite app_nil_r. split; [reflexivity|]. split.
    + simpl. replace (List.length items - n) with 0 by lia.
      symmetry. apply Nat.div_small. lia.
    + simpl. intros k Hk. lia.
Qed.

(** The plan for a positive batch size, window by window. *)
Lemma prepareBatches_windows (total b : nat) :
  1 <= b ->
  exists plan,
    prepareBatches total (Z.of_nat b) = Some plan
    /\ totalBatches plan = (total + b - 1) / b
    /\ forall k, k < totalBatches plan ->
                 nth_error (batches plan) k
                 = Some (firstn b (skipn (k * b) (map serialNumber (seq 0 total)))).
Proof.
  intros Hb. unfold prepareBatches, createBatches.
  destruct (createBatches_loop_windows (generateSerialNumbers total) b Hb
              (S (List.length (generateSerialNumbers total))) 0 [] ltac:(lia))
    as (res & Hrun & Hlen & Hnth).
  change (Z.of_nat 0) with 0%Z in Hrun. rewrite Hrun. cbn [app].
  eexists. split; [reflexivity|]. cbn [totalBatches batches].
  rewrite length_generateSerialNumbers, Nat.sub_0_r in Hlen.
  split; [exact Hlen|]. intros k Hk. rewrite Hnth by exact Hk.
  now rewrite generateSerialNumbers_spec.
Qed.

(** X12: for a positive batch size the plan has [ceil(total / batchSize)]
    batches, none when there is no device. *)
Theorem prepareBatches_count (total : nat) (batchSize : Z) :
  (1 <= batchSize)%Z ->
  exists plan,
    prepareBatches total batchSize = Some plan
    /\ totalBatches plan = (total + Z.to_nat batchSize - 1) / Z.to_nat batchSize
    /\ (total = 0 -> batches plan = []).
Proof.
  intros Hb.
  destruct (prepareBatches_windows total (Z.to_nat batchSize) ltac:(lia))
    as (plan & Hrun & Hcount & _).
  rewrite Z2Nat.id in Hrun by lia.
  exists plan. split; [exact Hrun|]. split; [exact Hcount|].
  intros ->. unfold prepareBatches in Hrun. cbn in Hrun. now injection Hrun as <-.
Qed.

(** X13: device number [i] is found by division.  For a positive batch
    size, the identifier [SN-i] sits in batch [i / batchSize] of the plan
    (counting from 0), at position [i mod batchSize]. *)
Theorem prepareBatches_locates_device (total i : nat) (batchSize : Z) :
  (1 <= batchSize)%Z ->
  i < total ->
  exists plan batch,
    prepareBatches total batchSize = Some plan
    /\ nth_error (batches plan) (i / Z.to_nat batchSize) = Some batch
    /\ nth_error batch (i mod Z.to_nat batchSize) = Some (serialNumber i).
Proof.
  intros Hb Hi. set (b := Z.to_nat batchSize).
  destruct (prepareBatches_windows total b ltac:(lia)) as (plan & Hrun & Hcount & Hnth).
  unfold b in Hrun. rewrite Z2Nat.id in Hrun by lia.
  assert (i / b < totalBatches plan) as Hk.
  { rewrite Hcount. apply Nat.Div0.div_lt_upper_bound.
    pose proof (Nat.div_mod_eq (total + b - 1) b) as Hdm.
    pose proof (Nat.mod_upper_bound (total + b - 1) b ltac:(lia)). nia. }
  exists plan. eexists. split; [exact Hrun|]. split; [apply Hnth, Hk|].
  rewrite nth_error_firstn.
  destruct (Nat.ltb_spec (i mod b) b) as [_|Hge];
    [|pose proof (Nat.mod_upper_bound i b ltac:(lia)); lia].
  rewrite nth_error_skipn.
  replace (i / b * b + i mod b) with i
    by (pose proof (Nat.div_mod_eq i b); lia).
  rewrite nth_error_map, nth_error_seq.
  destruct (Nat.ltb_spec i total); [reflexivity|lia].
Qed.

End BatchLayoutFacts.

(** ** Orchestrator: what a run adds up to *)

Section RunFacts.

Import Aggregator.

Variable env : ApiClient.Env.
Variable cfg : Config.
Variable onProgress : option Callback.

Abbreviation turn := (Aggregator.processBatch env cfg onProgress).
Abbreviation turns := (Aggregator.loop env cfg onProgress).

Lemma forEach_status_counts (data : list json) :
  forall online offline,
    let '(online', offline', thrown) := forEach_status data online offline in
    (online <= online' /\ offline <= offline'
     /\ (online' - online) + (offline' - offline) <= Z.of_nat (List.length data)
     /\ (thrown = None ->
         (online' - online) + (offline' - offline) = Z.of_nat (List.length data)))%Z.
Proof.
  induction data as [|device rest IH]; intros online offline.
  - simpl. repeat split; lia.
  - cbn [forEach_status List.length].
    destruct (getProp device "status") as [[v|]|e].
    + destruct v;
        try (specialize (IH online (offline + 1)%Z);
             destruct (forEach_status rest online (offline + 1))
               as [[online' offline'] thrown];
             destruct IH as (H1 & H2 & H3 & H4); repeat split; try lia;
             intros Hnone; specialize (H4 Hnone); lia).
      destruct (String.eqb s "Online").
      * specialize (IH (online + 1)%Z offline).
        destruct (forEach_status rest (online + 1) offline)
          as [[online' offline'] thrown].
        destruct IH as (H1 & H2 & H3 & H4). repeat split; try lia.
        intros Hnone. specialize (H4 Hnone). lia.
      * specialize (IH online (offline + 1)%Z).
        destruct (forEach_status rest online (offline + 1))
          as [[online' offline'] thrown].
        destruct IH as (H1 & H2 & H3 & H4). repeat split; try lia.
        intros Hnone. specialize (H4 Hnone). lia.
    + specialize (IH online (offline + 1)%Z).
      destruct (forEach_status rest online (offline + 1))
        as [[online' offline'] thrown].
      destruct IH as (H1 & H2 & H3 & H4). repeat split; try lia.
      intros Hnone. specialize (H4 Hnone). lia.
    + repeat split; try lia. discriminate.
Qed.

(** Closes the side conditions of [processBatch_anatomy]. *)
Ltac settled_case :=
  repeat split;
  first
    [ reflexivity
    | now rewrite app_nil_r
    | discriminate
    | congruence
    | lia
    | (simpl; lia)
    | (left; reflexivity)
    | (right; eexists; reflexivity)
    | (right; eexists; repeat split; reflexivity)
    | (intros; simpl in *; first [lia | congruence | discriminate]) ].

(** Everything one turn of the loop can do to the run: it adds the
    records of the answer, if it has an array of them; at most one error,
    for this batch; at most one progress event, for this batch and with
    the counts as they then stand. *)
Lemma processBatch_anatomy (i total : nat) (batch : list string) (r : Run) :
  exists r' data errs events,
    turn i total batch r = Some r'
    /\ allResults r' = allResults r ++ data
    /\ successCount r' = (successCount r + Z.of_nat (List.length data))%Z
    /\ errorList r' = errorList r ++ errs
    /\ delivered r' = delivered r ++ events
    /\ (errs = []
        \/ exists msg,
             errs = [{| batch := i + 1; serialNumbers := batch; error := msg |}])
    /\ (onlineCount r <= onlineCount r' /\ offlineCount r <= offlineCount r'
        /\ (onlineCount r' - onlineCount r) + (offlineCount r' - offlineCount r)
           <= Z.of_nat (List.length data))%Z
    /\ (errs = [] ->
        (onlineCount r' - onlineCount r) + (offlineCount r' - offlineCount r)
        = Z.of_nat (List.length data))%Z
    /\ (events = []
        \/ exists event,
             events = [event]
             /\ ProgressEvent.batchIndex event = i
             /\ ProgressEvent.batchResults event = data
             /\ ProgressEvent.successCount event = successCount r'
             /\ ProgressEvent.onlineCount event = onlineCount r'
             /\ ProgressEvent.offlineCount event = offlineCount r')
    /\ (onProgress <> None -> errs = [] -> events = [] -> data = []).
Proof.
  unfold Aggregator.processBatch. cbn [history].
  destruct (fetchDeviceData_total env cfg batch 0 (history r)) as (outcome & h' & ->).
  destruct outcome as [response|e].
  - unfold onResponse, catch.
    destruct (getProp response "data") as [[v|]|e]; [destruct v|..]; cbn;
      try (eexists; exists [], [], []; settled_case; fail);
      try (eexists; exists []; eexists; exists []; settled_case; fail).
    destruct (_ <? _)%Z; cbn;
      [eexists; exists []; eexists; exists []; settled_case|].
    pose proof (forEach_status_counts elems (onlineCount r) (offlineCount r)) as Hcount.
    destruct (forEach_status elems (onlineCount r) (offlineCount r))
      as [[online offline] [thrown|]]; cbn;
      destruct Hcount as (H1 & H2 & H3 & H4).
    + eexists; exists elems; eexists; exists []; settled_case.
    + specialize (H4 eq_refl). destruct onProgress as [callback|]; cbn.
      * destruct (callback _); cbn.
        -- eexists; exists elems; eexists; eexists; settled_case.
        -- eexists; exists elems, []; eexists; settled_case.
      * eexists; exists elems, [], []; settled_case.
  - unfold catch; cbn. eexists; exists []; eexists; exists []; settled_case.
Qed.

Lemma last_cons_default {A : Type} (l : list A) (a d : A) :
  last (a :: l) d = last l a.
Proof.
  revert a d. induction l as [|b l IH]; intros a d; [reflexivity|].
  change (last (a :: b :: l) d) with (last (b :: l) d). now rewrite !IH.
Qed.

(** Everything the loop can do to the run, from batch [i] on. *)
Lemma loop_anatomy (total : nat) (batches : list (list string)) :
  forall i r,
  exists r' errs events,
    turns i total batches r = Some r'
    /\ errorList r' = errorList r ++ errs
    /\ delivered r' = delivered r ++ events
    /\ Subsequence (map (fun e => (batch e, serialNumbers e)) errs)
                   (combine (seq (i + 1) (List.length batches)) batches)
    /\ (onlineCount r <= onlineCount r' /\ offlineCount r <= offlineCount r'
        /\ (onlineCount r' - onlineCount r) + (offlineCount r' - offlineCount r)
           <= successCount r' - successCount r)%Z
    /\ (errs = [] ->
        (onlineCount r' - onlineCount r) + (offlineCount r' - offlineCount r)
        = successCount r' - successCount r)%Z
    /\ (onProgress <> None -> errs = [] ->
        allResults r' = allResults r ++ List.concat (map ProgressEvent.batchResults events)
        /\ last (map tally events) (successCount r, onlineCount r, offlineCount r)
           = (successCount r', onlineCount r', offlineCount r')).
Proof.
  induction batches as [|batch rest IH]; intros i r.
  - exists r, [], []. simpl. rewrite !app_nil_r.
    repeat split; try lia; try reflexivity. apply Subsequence_nil.
  - destruct (processBatch_anatomy i total batch r)
      as (r1 & data & errs1 & events1 & Hturn & Hres & Hsucc & Herr & Hdel
          & Hone & Hle & Heq & Hevent & Hquiet).
    destruct (IH (S i) r1)
      as (r' & errs' & events' & Hloop & Herr' & Hdel' & Hsub' & Hle' & Heq' & Hprog').
    exists r', (errs1 ++ errs'), (events1 ++ events').
    cbn [Aggregator.loop]. rewrite Hturn.
    split; [exact Hloop|]. split; [now rewrite Herr', Herr, <- app_assoc|].
    split; [now rewrite Hdel', Hdel, <- app_assoc|].
    split; [|split; [lia|split]].
    + cbn [List.length seq combine].
      destruct Hone as [->|(msg & ->)]; simpl.
      * now apply Subsequence_skip.
      * now apply Subsequence_take.
    + intros Hnil. apply app_eq_nil in Hnil. destruct Hnil as (Hnil1 & Hnil').
      specialize (Heq Hnil1). specialize (Heq' Hnil'). lia.
    + intros Hsome Hnil. apply app_eq_nil in Hnil. destruct Hnil as (Hnil1 & Hnil').
      specialize (Heq Hnil1). destruct (Hprog' Hsome Hnil') as (Hres' & Hlast').
      destruct Hevent as [->|(event & -> & _ & Hdata & Hs & Hon & Hoff)].
      * specialize (Hquiet Hsome Hnil1 eq_refl). subst data.
        simpl in *. rewrite app_nil_r in Hres.
        split; [now rewrite Hres', Hres|].
        replace (successCount r, onlineCount r, offlineCount r)
          with (successCount r1, onlineCount r1, offlineCount r1); [exact Hlast'|].
        f_equal; [f_equal|]; lia.
      * split.
        -- rewrite Hres', Hres. simpl. now rewrite Hdata, <- app_assoc.
        -- change ([event] ++ events') with (event :: events').
           rewrite map_cons, last_cons_default.
           replace (tally event)
             with (successCount r1, onlineCount r1, offlineCount r1);
             [exact Hlast'|].
           unfold tally. now rewrite Hs, Hon, Hoff.
Qed.

(** X14: the status counts of the summary never exceed the records
    collected: [onlineDevices] and [offlineDevices] are not negative and
    together at most [successfulFetches]; and in every report that has no
    [errors] they add up to it. *)
Theorem status_counts_add_up (h : ApiClient.History) (report : Report) (final : Run) :
  aggregateDeviceData env cfg onProgress h = Some (report, final) ->
  (0 <= onlineDevices (summary report)
   /\ 0 <= offlineDevices (summary report)
   /\ onlineDevices (summary report) + offlineDevices (summary report)
      <= successfulFetches (summary report)
   /\ (errors report = None ->
       onlineDevices (summary report) + offlineDevices (summary report)
       = successfulFetches (summary report)))%Z.
Proof.
  unfold aggregateDeviceData.
  destruct (BatchProcessor.prepareBatches_default cfg) as [plan|]; [|discriminate].
  destruct (loop_anatomy (BatchProcessor.totalBatches plan) (BatchProcessor.batches plan)
              0 (start h))
    as (r & errs & events & -> & Herr & _ & _ & Hle & Heq & _).
  intros [= <- <-]. unfold makeReport. cbn in *.
  split; [lia|]. split; [lia|]. split; [lia|].
  rewrite Herr. destruct errs; [|discriminate]. intros _.
  specialize (Heq eq_refl). lia.
Qed.

(** X15: the [errors] of a report follow the plan.  Each batch has at
    most one entry, the entries come in the order of the batches, and each
    carries the number of its batch, counted from 1, with that batch's
    identifiers; [errorsCount] is their number, and [errors] is left
    undefined exactly when there is none. *)
Theorem errors_follow_the_plan (h : ApiClient.History)
    (plan : BatchProcessor.BatchPlan) (report : Report) (final : Run) :
  BatchProcessor.prepareBatches_default cfg = Some plan ->
  aggregateDeviceData env cfg onProgress h = Some (report, final) ->
  exists errs,
    Subsequence (map (fun e => (batch e, serialNumbers e)) errs)
                (combine (seq 1 (List.length (BatchProcessor.batches plan)))
                         (BatchProcessor.batches plan))
    /\ errorsCount (summary report) = List.length errs
    /\ errors report = match errs with [] => None | _ => Some errs end.
Proof.
  intros Hplan. unfold aggregateDeviceData. rewrite Hplan.
  destruct (loop_anatomy (BatchProcessor.totalBatches plan) (BatchProcessor.batches plan)
              0 (start h))
    as (r & errs & events & -> & Herr & _ & Hsub & _).
  intros [= <- <-]. exists errs. unfold makeReport. cbn in *. rewrite Herr.
  split; [exact Hsub|]. split; [reflexivity|]. now destruct errs.
Qed.

(** X17: with a progress callback and a report without [errors], the
    callback has seen everything: the records of the progress events,
    put end to end, are the [devices] of the report, and the counts of the
    last event are those of the summary. *)
Theorem progress_events_carry_the_report (callback : Callback)
    (h : ApiClient.History) (report : Report) (final : Run) :
  onProgress = Some callback ->
  aggregateDeviceData env cfg onProgress h = Some (report, final) ->
  errors report = None ->
  List.concat (map ProgressEvent.batchResults (delivered final)) = devices report
  /\ last (map tally (delivered final)) (0, 0, 0)%Z
     = (successfulFetches (summary report), onlineDevices (summary report),
        offlineDevices (summary report)).
Proof.
  intros Hsome. unfold aggregateDeviceData.
  destruct (BatchProcessor.prepareBatches_default cfg) as [plan|]; [|discriminate].
  destruct (loop_anatomy (BatchProcessor.totalBatches plan) (BatchProcessor.batches plan)
              0 (start h))
    as (r & errs & events & -> & Herr & Hdel & _ & _ & _ & Hprog).
  intros [= <- <-]. unfold makeReport. cbn in *. rewrite Herr.
  destruct errs; [|discriminate]. intros _.
  destruct Hprog as (Hres & Hlast); [now rewrite Hsome|reflexivity|].
  rewrite Hdel, Hres. now split.
Qed.

(** One call against an endpoint that answers all it is asked. *)
Lemma fetchDeviceData_answered (snList : list string) (h : ApiClient.History) :
  ApiClient.answersAll env ->
  exists v data,
    ApiClient.fetchDeviceData env cfg snList 0 h
      = Some (Returned v, h ++ [ApiClient.Fetch (ApiClient.requestAt env cfg snList h)])
    /\ getProp v "data" = Returned (Some (JArr data))
    /\ map (fun device => getProp device "sn") data
       = map (fun sn => Returned (Some (JStr sn))) snList.
Proof.
  intros Hall.
  destruct (Hall h (ApiClient.requestAt env cfg snList h))
    as (r0 & v & data & Hremote & Hok & Hbody & Hdata & Hsn).
  exists v, data. split; [|split; [exact Hdata|exact Hsn]].
  unfold ApiClient.ok in Hok. apply andb_prop in Hok as (Hlo & Hhi).
  apply Z.leb_le in Hlo, Hhi.
  assert ((ApiClient.status r0 =? 429)%Z = false) as H429 by (apply Z.eqb_neq; lia).
  assert ((ApiClient.status r0 =? 401)%Z = false) as H401 by (apply Z.eqb_neq; lia).
  unfold ApiClient.fetchDeviceData.
  rewrite fetchDeviceData_rec_final by (rewrite Hremote; exact H429).
  rewrite Hremote. unfold ApiClient.verdict, ApiClient.classify.
  rewrite H429, H401. unfold ApiClient.ok.
  apply Z.leb_le in Hlo, Hhi. rewrite Hlo, Hhi, Hbody. reflexivity.
Qed.

(** One turn of the loop against such an endpoint, for a batch that the
    engine can spread. *)
Lemma processBatch_answered (i total : nat) (batch : list string) (r : Run) :
  ApiClient.answersAll env ->
  (Z.of_nat (List.length batch) <= ApiClient.maxArguments env)%Z ->
  exists r' data,
    turn i total batch r = Some r'
    /\ allResults r' = allResults r ++ data
    /\ successCount r' = (successCount r + Z.of_nat (List.length data))%Z
    /\ map (fun device => getProp device "sn") data
       = map (fun sn => Returned (Some (JStr sn))) batch
    /\ history r'
       = history r ++ [ApiClient.Fetch (ApiClient.requestAt env cfg batch (history r))].
Proof.
  intros Hall Hfits.
  destruct (fetchDeviceData_answered batch (history r) Hall)
    as (v & data & Hfetch & Hdata & Hsn).
  assert ((ApiClient.maxArguments env <? Z.of_nat (List.length data))%Z = false)
    as Hspread.
  { apply Z.ltb_ge. apply (f_equal (@List.length _)) in Hsn.
    rewrite !length_map in Hsn. lia. }
  unfold Aggregator.processBatch. cbn [history]. rewrite Hfetch.
  unfold onResponse. rewrite Hdata, Hspread. unfold catch. cbn.
  destruct (forEach_status data (onlineCount r) (offlineCount r))
    as [[online offline] [thrown|]]; cbn.
  - eexists; exists data; repeat split; exact Hsn.
  - destruct onProgress as [callback|]; cbn.
    + destruct (callback _); cbn; eexists; exists data; repeat split; exact Hsn.
    + eexists; exists data; repeat split; exact Hsn.
Qed.

Lemma loop_answered (total : nat) (batches : list (list string)) :
  ApiClient.answersAll env ->
  Forall (fun batch => (Z.of_nat (List.length batch) <= ApiClient.maxArguments env)%Z)
         batches ->
  forall i r,
  exists r' data,
    turns i total batches r = Some r'
    /\ allResults r' = allResults r ++ data
    /\ successCount r' = (successCount r + Z.of_nat (List.length data))%Z
    /\ map (fun device => getProp device "sn") data
       = map (fun sn => Returned (Some (JStr sn))) (List.concat batches)
    /\ List.length (ApiClient.attempts (history r'))
       = List.length (ApiClient.attempts (history r)) + List.length batches
    /\ ApiClient.delays (history r') = ApiClient.delays (history r).
Proof.
  intros Hall Hfit. induction batches as [|batch rest IH]; intros i r.
  - exists r, []. simpl. rewrite app_nil_r. repeat split; lia.
  - inversion Hfit as [|b l Hfits Hrest]; subst.
    destruct (processBatch_answered i total batch r Hall Hfits)
      as (r1 & data1 & Hturn & Hres & Hsucc & Hsn & Hhist).
    destruct (IH Hrest (S i) r1)
      as (r' & data' & Hloop & Hres' & Hsucc' & Hsn' & Hreq & Hwait).
    exists r', (data1 ++ data'). cbn [Aggregator.loop]. rewrite Hturn.
    split; [exact Hloop|]. split; [now rewrite Hres', Hres, <- app_assoc|].
    split; [rewrite Hsucc', Hsucc, length_app; lia|].
    split; [cbn [List.concat]; now rewrite !map_app, Hsn, Hsn'|].
    rewrite Hreq, Hwait, Hhist. unfold ApiClient.attempts, ApiClient.delays.
    rewrite !flat_map_app, length_app. simpl. rewrite app_nil_r. split; [lia|reflexivity].
Qed.

(** X16: against an endpoint that answers all it is asked, nothing is
    lost, as long as the engine can spread a batch of records
    ([BATCH_SIZE] within the arguments it passes in one call).  The run
    makes one request for each batch and never waits for a retry; the
    [devices] of the report are the records of all the devices, in the
    order of their identifiers [SN-000], [SN-001], ...; every device
    counts as fetched and none as failed. *)
Theorem complete_answers_give_a_complete_report (h : ApiClient.History) :
  ApiClient.answersAll env ->
  (1 <= BATCH_SIZE cfg <= ApiClient.maxArguments env)%Z ->
  exists report final,
    aggregateDeviceData env cfg onProgress h = Some (report, final)
    /\ map (fun device => getProp device "sn") (devices report)
       = map (fun i => Returned (Some (JStr (BatchProcessor.serialNumber i))))
             (seq 0 (TOTAL_DEVICES cfg))
    /\ successfulFetches (summary report) = Z.of_nat (TOTAL_DEVICES cfg)
    /\ failedFetches (summary report) = 0%Z
    /\ List.length (ApiClient.attempts (history final))
       = List.length (ApiClient.attempts h) + totalBatches (summary report)
    /\ ApiClient.delays (history final) = ApiClient.delays h.
Proof.
  intros Hall (Hsize & Hfits).
  destruct (prepareBatches_spec (TOTAL_DEVICES cfg) (BATCH_SIZE cfg) Hsize)
    as (plan & Hplan & Hids & _ & Hcat & _ & Hbound & _ & Hcount & Htotal).
  assert (Forall (fun batch =>
                    (Z.of_nat (List.length batch) <= ApiClient.maxArguments env)%Z)
                 (BatchProcessor.batches plan)) as Hfit.
  { eapply Forall_impl; [|exact Hbound]. simpl. intros batch Hb. lia. }
  destruct (loop_answered (BatchProcessor.totalBatches plan) (BatchProcessor.batches plan)
              Hall Hfit 0 (start h))
    as (r & data & Hloop & Hres & Hsucc & Hsn & Hreq & Hwait).
  unfold aggregateDeviceData, BatchProcessor.prepareBatches_default.
  rewrite Hplan, Hloop. eexists. eexists. split; [reflexivity|].
  unfold makeReport. cbn in *. subst data.
  assert (List.length (allResults r) = TOTAL_DEVICES cfg) as Hlen.
  { rewrite <- (length_map (fun device => getProp device "sn")), Hsn, Hcat, Hids.
    now rewrite !length_map, length_seq. }
  rewrite Hsn, Hcat, Hids, map_map, Hsucc, Htotal, Hlen, Hreq, Hwait, Hcount.
  repeat split; lia.
Qed.

End RunFacts.

(** ** Mock API: the window, and the handshake with the client *)

Section MockApiFacts.

Import ApiClient.

Variable md5 : string -> string.

Lemma spaced_cons (gap t : Z) (times : list Z) :
  (forall t', nth_error times 0 = Some t' -> (t + gap <= t')%Z) ->
  spaced gap times ->
  spaced gap (t :: times).
Proof.
  intros Hhead Hrest [|n] t1 t2 H1 H2; simpl in H1, H2.
  - injection H1 as <-. now apply Hhead.
  - eapply Hrest; eassumption.
Qed.

Lemma spaced_tail (gap t : Z) (times : list Z) :
  spaced gap (t :: times) -> spaced gap times.
Proof. intros Hsp n t1 t2 H1 H2. apply (Hsp (S n) t1 t2); assumption. Qed.

(** The two ways a request that reaches the handlers can fare: turned
    away by the rate limiter, which then keeps [lastRequestTime]; or let
    through, when [lastRequestTime] becomes the time of its arrival
    whatever the later handlers answer. *)
Lemma handle_cases (now : Z) (draws : nat -> MockApi.Draw) (req : MockApi.Incoming)
    (last : Z) :
  (now - last < 950 /\ status (fst (MockApi.handle md5 now draws req last)) = 429
   /\ snd (MockApi.handle md5 now draws req last) = last)%Z
  \/ (last + 950 <= now
      /\ In (status (fst (MockApi.handle md5 now draws req last)))
            [200; 400; 401; 404; 500]
      /\ snd (MockApi.handle md5 now draws req last) = now)%Z.
Proof.
  unfold MockApi.handle, MockApi.rateLimiter.
  destruct (now - last <? 950)%Z eqn:Hwin.
  - left. apply Z.ltb_lt in Hwin. split; [exact Hwin|]. split; reflexivity.
  - right. apply Z.ltb_ge in Hwin. split; [lia|].
    unfold MockApi.security, MockApi.query.
    destruct (MockApi.isFalsy _ || MockApi.isFalsy _); [simpl; auto|].
    destruct (negb _); [simpl; auto|].
    destruct (MockApi.route req); [|simpl; auto 6].
    destruct (MockApi.req_body req) as [[[]|]|]; simpl; auto 7.
    destruct (10 <? _)%nat; simpl; auto.
Qed.

(** X18: the window of the mock API.  Of the requests that reach the
    handlers of [/device], whatever they are and whenever they arrive:
    every answer has status 200, 400, 401, 404, 500 or 429; those not answered
    429 arrived at least 950 ms apart, each at least 950 ms after the one
    admitted before it, whether that one was then served, refused for its
    signature or its batch, or found no route; and [lastRequestTime] is
    the arrival of the last one admitted.  A request that is answered
    before it reaches the handlers gets that answer, is not counted and
    leaves [lastRequestTime] alone. *)
Theorem mock_api_rate_window (arrivals : list MockApi.Arrival) :
  forall lastRequestTime,
    let answers := fst (MockApi.serve md5 arrivals lastRequestTime) in
    Forall2 (fun a res =>
               match a with
               | MockApi.StoppedShort _ given => res = given
               | MockApi.Reaches _ _ _ =>
                   In (status res) [200; 400; 401; 404; 500; 429]%Z
               end) arrivals answers
    /\ spaced 950 (lastRequestTime :: MockApi.admitted arrivals answers)
    /\ snd (MockApi.serve md5 arrivals lastRequestTime)
       = last (MockApi.admitted arrivals answers) lastRequestTime.
Proof.
  induction arrivals as [|a rest IH]; intros lastRequestTime.
  - simpl. repeat split; [constructor|]. intros [|n] t1 t2 H1 H2; discriminate.
  - cbn [MockApi.serve]. destruct a as [at_ given|at_ draws req].
    + specialize (IH lastRequestTime).
      destruct (MockApi.serve md5 rest lastRequestTime) as [answers final].
      cbn [fst snd] in *. destruct IH as (Hstat & Hsp & Hfinal).
      cbn [MockApi.admitted].
      split; [constructor; [reflexivity|exact Hstat]|]. split; assumption.
    + pose proof (handle_cases at_ draws req lastRequestTime) as Hcase.
      destruct (MockApi.handle md5 at_ draws req lastRequestTime) as [res last'].
      specialize (IH last').
      destruct (MockApi.serve md5 rest last') as [answers final].
      cbn [fst snd] in *. destruct IH as (Hstat & Hsp & Hfinal).
      cbn [MockApi.admitted].
      destruct Hcase as [(Hwin & H429 & ->)|(Hwin & Hother & ->)].
      * rewrite H429. change (429 =? 429)%Z with true. cbn iota.
        split; [|split; [exact Hsp|exact Hfinal]].
        constructor; [rewrite H429; simpl; auto 7|exact Hstat].
      * assert ((status res =? 429)%Z = false) as Hnot.
        { apply Z.eqb_neq. simpl in Hother. intuition lia. }
        rewrite Hnot. split; [|split].
        -- constructor; [simpl in *; intuition auto|exact Hstat].
        -- apply spaced_cons; [|exact Hsp]. intros t' [= <-]. exact Hwin.
        -- now rewrite last_cons_default.
Qed.

(** A caller that keeps the pace is never turned away: when the
    requests that reach the handlers arrive at least 950 ms apart, the
    first at least 950 ms after [lastRequestTime], none of them is
    answered 429. *)
Lemma serve_paced (arrivals : list MockApi.Arrival) :
  forall lastRequestTime,
    spaced 950 (lastRequestTime :: MockApi.reaching arrivals) ->
    MockApi.admitted arrivals (fst (MockApi.serve md5 arrivals lastRequestTime))
    = MockApi.reaching arrivals.
Proof.
  induction arrivals as [|a rest IH]; intros lastRequestTime Hsp; [reflexivity|].
  cbn [MockApi.serve]. destruct a as [at_ given|at_ draws req].
  - specialize (IH lastRequestTime Hsp).
    destruct (MockApi.serve md5 rest lastRequestTime) as [answers final].
    exact IH.
  - pose proof (handle_cases at_ draws req lastRequestTime) as Hcase.
    destruct (MockApi.handle md5 at_ draws req lastRequestTime) as [res last'].
    change (MockApi.reaching (MockApi.Reaches at_ draws req :: rest))
      with (at_ :: MockApi.reaching rest) in *.
    assert (lastRequestTime + 950 <= at_)%Z as Hgap by (apply (Hsp 0); reflexivity).
    cbn [fst snd] in Hcase.
    destruct Hcase as [(Hwin & _)|(_ & Hother & ->)]; [lia|].
    specialize (IH at_ (spaced_tail _ _ _ Hsp)).
    destruct (MockApi.serve md5 rest at_) as [answers final].
    cbn [fst snd] in *.
    assert (status res <> 429%Z) as Hnot by (simpl in Hother; intuition lia).
    cbn [MockApi.admitted]. apply Z.eqb_neq in Hnot. now rewrite Hnot, IH.
Qed.

End MockApiFacts.

Section HandshakeFacts.

Import ApiClient.

Variable env : Env.
Variable cfg : Config.

Lemma ZtoString_not_empty (z : Z) : ZtoString z <> ""%string.
Proof.
  unfold ZtoString. destruct (Z.to_int z) as [d|d]; simpl.
  - destruct d; discriminate.
  - discriminate.
Qed.

Lemma readings_sn (draws : nat -> MockApi.Draw) (snList : list string) :
  forall k,
    map (fun device => getProp device "sn") (MockApi.readings draws k (map JStr snList))
    = map (fun sn => Returned (Some (JStr sn))) snList.
Proof.
  induction snList as [|sn rest IH]; intros k; [reflexivity|].
  cbn [map MockApi.readings]. now rewrite IH.
Qed.

(** A request of the client gets past the security middleware. *)
Lemma security_passes (snList : list string) (h : History)
    (incoming : MockApi.Incoming) :
  SECRET_TOKEN cfg = MockApi.SECRET_TOKEN ->
  (forall payload, md5 env payload <> ""%string) ->
  MockApi.delivers cfg (requestAt env cfg snList h) incoming ->
  MockApi.security (md5 env) incoming = None.
Proof.
  intros Htoken Hdigest (Hurl & _ & Hsig & Hstamp & _).
  unfold MockApi.security. rewrite Hurl, Hsig, Hstamp.
  unfold requestAt. cbn [headers MockApi.isFalsy MockApi.headerText].
  unfold generateAuthHeaders, generateSignature. cbn [timestamp signature].
  rewrite Htoken.
  assert (String.eqb (ZtoString (Date_now env h)) "" = false) as ->
    by (apply String.eqb_neq, ZtoString_not_empty).
  assert (String.eqb
            (md5 env (API_ENDPOINT cfg ++ MockApi.SECRET_TOKEN
                      ++ ZtoString (Date_now env h))) "" = false) as ->
    by (apply String.eqb_neq, Hdigest).
  cbn [orb]. now rewrite String.eqb_refl.
Qed.

(** X20: the client and the mock API agree.  When [API_ENDPOINT] is the
    path of the query endpoint and the token is the one the server expects,
    a request that [fetchDeviceData] builds for at most 10 identifiers,
    that reaches the endpoint outside the window, is served: the signature
    passes the check, the answer has status 200 and one record for each
    identifier, in order, under its [sn]; and [fetchDeviceData], given
    that answer, returns its body after this one request. *)
Theorem mock_api_serves_the_client (snList : list string) (retryCount : nat)
    (h : History) (now lastRequestTime : Z) (draws : nat -> MockApi.Draw)
    (incoming : MockApi.Incoming) :
  SECRET_TOKEN cfg = MockApi.SECRET_TOKEN ->
  API_ENDPOINT cfg = "/device/real/query"%string ->
  (forall payload, md5 env payload <> ""%string) ->
  List.length snList <= 10 ->
  (lastRequestTime + 950 <= now)%Z ->
  MockApi.delivers cfg (requestAt env cfg snList h) incoming ->
  remote env h (requestAt env cfg snList h)
  = FetchResolves (fst (MockApi.handle (md5 env) now draws incoming lastRequestTime)) ->
  exists data,
    MockApi.handle (md5 env) now draws incoming lastRequestTime
    = ({| status := 200; body := Parsed (JObj [("data", JArr data)]) |}, now)
    /\ map (fun device => getProp device "sn") data
       = map (fun sn => Returned (Some (JStr sn))) snList
    /\ fetchDeviceData env cfg snList retryCount h
       = Some (Returned (JObj [("data", JArr data)]),
               h ++ [Fetch (requestAt env cfg snList h)]).
Proof.
  intros Htoken Hpath Hdigest Hlen Hwin Hcarry Hremote.
  exists (MockApi.readings draws 0 (map JStr snList)).
  assert (MockApi.handle (md5 env) now draws incoming lastRequestTime
          = ({| status := 200;
                body := Parsed (JObj [("data",
                                       JArr (MockApi.readings draws 0 (map JStr snList)))]) |},
             now)) as Hanswer.
  { unfold MockApi.handle, MockApi.rateLimiter.
    assert ((now - lastRequestTime <? 950)%Z = false) as -> by (apply Z.ltb_ge; lia).
    rewrite (security_passes snList h incoming Htoken Hdigest Hcarry).
    destruct Hcarry as (_ & -> & _ & _ & Hbody).
    unfold MockApi.query. rewrite Hbody. cbn [requestAt sn_list].
    rewrite length_map.
    assert ((10 <? List.length snList)%nat = false) as -> by (apply Nat.ltb_ge; lia).
    reflexivity. }
  split; [exact Hanswer|]. split; [apply readings_sn|].
  rewrite Hanswer in Hremote. cbn [fst] in Hremote.
  unfold fetchDeviceData.
  rewrite fetchDeviceData_rec_final by (rewrite Hremote; reflexivity).
  rewrite Hremote. reflexivity.
Qed.

(** X21: a batch of more than 10 identifiers that reaches the query
    endpoint is refused with status 400, and the client gives up on it at
    once with the server's words: one request, no retry,
    [API Error 400: Batch size limit exceeded (Max 10)]. *)
Theorem oversized_batches_are_refused (snList : list string) (retryCount : nat)
    (h : History) (now lastRequestTime : Z) (draws : nat -> MockApi.Draw)
    (incoming : MockApi.Incoming) :
  SECRET_TOKEN cfg = MockApi.SECRET_TOKEN ->
  API_ENDPOINT cfg = "/device/real/query"%string ->
  (forall payload, md5 env payload <> ""%string) ->
  10 < List.length snList ->
  (lastRequestTime + 950 <= now)%Z ->
  MockApi.delivers cfg (requestAt env cfg snList h) incoming ->
  remote env h (requestAt env cfg snList h)
  = FetchResolves (fst (MockApi.handle (md5 env) now draws incoming lastRequestTime)) ->
  MockApi.handle (md5 env) now draws incoming lastRequestTime
  = (MockApi.refuse 400 "Batch size limit exceeded (Max 10)", now)
  /\ fetchDeviceData env cfg snList retryCount h
     = Some (Threw (Error_ "API Error 400: Batch size limit exceeded (Max 10)"),
             h ++ [Fetch (requestAt env cfg snList h)]).
Proof.
  intros Htoken Hpath Hdigest Hlen Hwin Hcarry Hremote.
  assert (MockApi.handle (md5 env) now draws incoming lastRequestTime
          = (MockApi.refuse 400 "Batch size limit exceeded (Max 10)", now)) as Hanswer.
  { unfold MockApi.handle, MockApi.rateLimiter.
    assert ((now - lastRequestTime <? 950)%Z = false) as -> by (apply Z.ltb_ge; lia).
    rewrite (security_passes snList h incoming Htoken Hdigest Hcarry).
    destruct Hcarry as (_ & -> & _ & _ & Hbody).
    unfold MockApi.query. rewrite Hbody. cbn [requestAt sn_list].
    rewrite length_map.
    assert ((10 <? List.length snList)%nat = true) as -> by (apply Nat.ltb_lt; lia).
    reflexivity. }
  split; [exact Hanswer|].
  rewrite Hanswer in Hremote. cbn [fst] in Hremote.
  unfold fetchDeviceData.
  rewrite fetchDeviceData_rec_final by (rewrite Hremote; reflexivity).
  rewrite Hremote. reflexivity.
Qed.

(** X22: the client's backoff outlasts the server's window.  With an
    initial retry delay of at least 950 ms, a retry that arrives once the
    backoff has run, after a request that arrived at [now], is never turned
    away by the rate limiter on account of anything admitted up to [now]. *)
Theorem backoff_outlasts_the_window (retryCount : nat) (now lastRequestTime later : Z)
    (draws : nat -> MockApi.Draw) (req : MockApi.Incoming) :
  (950 <= INITIAL_RETRY_DELAY_MS cfg)%Z ->
  (lastRequestTime <= now)%Z ->
  (now + backoff cfg retryCount <= later)%Z ->
  status (fst (MockApi.handle (md5 env) later draws req lastRequestTime)) <> 429%Z
  /\ snd (MockApi.handle (md5 env) later draws req lastRequestTime) = later.
Proof.
  intros Hdelay Hpast Hlater.
  assert (INITIAL_RETRY_DELAY_MS cfg <= backoff cfg retryCount)%Z as Hgrow.
  { unfold backoff.
    assert (1 <= 2 ^ Z.of_nat retryCount)%Z
      by (apply (Z.pow_le_mono_r 2 0); lia).
    nia. }
  destruct (handle_cases (md5 env) later draws req lastRequestTime)
    as [(Hwin & _)|(_ & Hstatus & Hlast)]; [lia|].
  split; [|exact Hlast]. simpl in Hstatus. intuition lia.
Qed.

End HandshakeFacts.

(** ** The limiter's pace and the mock API's window *)

Section PaceFacts.

Import RateLimiter.

Context {Task Value : Type}.

Abbreviation PState := (@RateLimiter.State Task Value).
Abbreviation PEvent := (@RateLimiter.Event Task Value).

Lemma onTime_processQueue_loop (early : Z) (s : PState) :
  (0 <= early <= intervalMs s)%Z -> (0 <= lastRequestTime s)%Z ->
  Forall (fun t => (intervalMs s - early <= t)%Z) (startTimes s) ->
  onTime early (processQueue_loop s).
Proof.
  destruct s as [iv last q p w c nh sub st se]. unfold startTimes. simpl.
  intros Hiv Hlast Hall. unfold processQueue_loop, onTime, startTimes. simpl.
  destruct q as [|item rest]; simpl; [repeat split; auto; lia|].
  destruct (Z.ltb_spec 0 (Z.max 0 (iv - (c - last)))); simpl;
    repeat split; auto; lia.
Qed.

Lemma onTime_step (early : Z) (e : PEvent) (s s' : PState) :
  (0 <= early)%Z -> (earliness e <= early)%Z ->
  onTime early s -> step e s = Some s' -> onTime early s'.
Proof.
  intros Hearly Hshort (Hiv & Hlast & Hall & Hw) Hstep.
  destruct s as [iv last q p w c nh sub st se].
  unfold startTimes in *. simpl in *.
  destruct e as [f| |ms| | |r|short]; simpl in *.
  - (* Execute *)
    destruct w; try discriminate; injection Hstep as <-;
      unfold processQueue; simpl;
      (destruct (p || _);
       [ unfold onTime, startTimes; simpl; auto
       | apply onTime_processQueue_loop; simpl; auto; lia ]).
  - (* Clear *)
    destruct w; try discriminate; injection Hstep as <-;
      unfold onTime, startTimes; simpl; auto.
  - (* Elapse *)
    injection Hstep as <-. unfold onTime, startTimes. simpl.
    repeat split; auto. destruct w; auto; lia.
  - (* TimerFires *)
    destruct w as [|item deadline|item|item]; try discriminate.
    destruct (Z.leb_spec deadline c); [|discriminate].
    injection Hstep as <-. unfold onTime, startTimes. simpl.
    repeat split; auto. lia.
  - (* Begin *)
    destruct w as [|item deadline|item|item]; try discriminate.
    injection Hstep as <-. unfold onTime, begin, startTimes. simpl.
    rewrite map_app. simpl. split; [exact Hiv|]. split; [lia|]. split; [|exact I].
    apply Forall_app. split; [exact Hall|]. repeat constructor. lia.
  - (* Settles *)
    destruct w as [|item deadline|item|item]; try discriminate.
    injection Hstep as <-. apply onTime_processQueue_loop; simpl; auto; lia.
  - (* TimerFiresEarly *)
    destruct w as [|item deadline|item|item]; try discriminate.
    destruct (Z.ltb_spec c deadline); [|discriminate].
    destruct (Z.leb_spec deadline (c + short)); [|discriminate].
    injection Hstep as <-. unfold onTime, startTimes. simpl.
    repeat split; auto. lia.
Qed.

Lemma onTime_run (early interval now : Z) (events : list PEvent) (s : PState) :
  (0 <= early <= interval)%Z ->
  Forall (fun e => (earliness e <= early)%Z) events ->
  run events (new_RateLimiter interval now) = Some s -> onTime early s.
Proof.
  intros Hearly Hall.
  apply (run_invariant Task Value (fun e => (earliness e <= early)%Z) (onTime early));
    auto.
  - intros e s0 s1 He. apply onTime_step; [lia|exact He].
  - unfold onTime, startTimes. simpl. repeat split; auto; lia.
Qed.

(** Requests that follow starts kept [gap] apart, each no more than
    [jitter] behind its start, arrive [gap - jitter] apart. *)
Lemma arrivals_spaced (gap jitter : Z) (arrivals : list Z) :
  (950 + jitter <= gap)%Z ->
  forall (times : list Z) (arrived started : Z),
    (arrived <= started + jitter)%Z ->
    spaced gap (started :: times) ->
    Forall2 (fun a t => (t <= a <= t + jitter)%Z) arrivals times ->
    spaced 950 (arrived :: arrivals).
Proof.
  intros Hroom. induction arrivals as [|a rest IH];
    intros times arrived started Hbehind Hsp Hall.
  - intros [|n] t1 t2 H1 H2; [discriminate|destruct n; discriminate].
  - inversion Hall as [|a' t rest' ts Ha Hrest]; subst.
    assert (started + gap <= t)%Z as Hgap by (apply (Hsp 0); reflexivity).
    apply spaced_cons.
    + intros t' [= <-]. lia.
    + apply (IH ts a t); [lia| |exact Hrest].
      eapply spaced_tail, Hsp.
Qed.

(** X19: the pace of the limiter is within the window of the mock API.
    When the request of every task a limiter starts reaches the handlers
    of a mock API that has served nothing yet, no more than [jitter]
    after the start of the task, no timer wakes the worker more than
    [early] milliseconds before its deadline, and the limiter's interval
    leaves that room ([intervalMs >= 950 + jitter + early]; 150 ms in all
    with the interval of 1100), every request that reaches the handlers is
    admitted: none is answered 429. *)
Theorem limiter_pace_is_within_the_window (md5 : string -> string)
    (interval now jitter early : Z) (events : list PEvent) (s : PState)
    (arrivals : list MockApi.Arrival) :
  run events (new_RateLimiter interval now) = Some s ->
  (0 <= jitter)%Z ->
  (0 <= early)%Z ->
  Forall (fun e => (earliness e <= early)%Z) events ->
  (950 + jitter + early <= interval)%Z ->
  Forall2 (fun a t => (t <= a <= t + jitter)%Z)
          (MockApi.reaching arrivals) (startTimes s) ->
  MockApi.admitted arrivals (fst (MockApi.serve md5 arrivals 0))
  = MockApi.reaching arrivals.
Proof.
  intros Hrun Hjitter Hearly Hpunct Hroom Hall.
  destruct (onTime_run early interval now events s ltac:(lia) Hpunct Hrun)
    as (_ & _ & Hfirst & _).
  destruct (paced_run _ _ early _ _ _ Hearly Hpunct
              (paced_new Task Value early interval now) Hrun) as (Hsp & _).
  rewrite (intervalMs_run _ _ _ _ _ Hrun) in Hsp, Hfirst. simpl in Hsp, Hfirst.
  apply serve_paced.
  apply (arrivals_spaced (interval - early) jitter (MockApi.reaching arrivals)
           ltac:(lia) (startTimes s) 0 0); [lia| |exact Hall].
  apply spaced_cons; [|exact Hsp].
  intros t' Hhead. rewrite Forall_forall in Hfirst.
  specialize (Hfirst t' (nth_error_In _ 0 Hhead)). lia.
Qed.

End PaceFacts.

(** ** Dashboard: what a run leaves to see *)

Section DashboardFacts.

Variable env : ApiClient.Env.
Variable cfg : Config.

(** What the callback has done to the state after a number of events. *)
Lemma onProgress_fold (events : list Aggregator.ProgressEvent.t) :
  forall st,
    let st' := fold_left (fun st progressData => Dashboard.onProgress progressData st)
                         events st in
    Dashboard.isRunning st' = Dashboard.isRunning st
    /\ Dashboard.devices st'
       = Dashboard.devices st
         ++ List.concat (map Aggregator.ProgressEvent.batchResults events)
    /\ Dashboard.startTime st' = Dashboard.startTime st
    /\ (Dashboard.successCount st', Dashboard.onlineCount st', Dashboard.offlineCount st')
       = last (map Dashboard.shown events)
              (Dashboard.successCount st, Dashboard.onlineCount st,
               Dashboard.offlineCount st).
Proof.
  induction events as [|event rest IH]; intros st.
  - simpl. rewrite app_nil_r. repeat split.
  - cbn [fold_left]. destruct (IH (Dashboard.onProgress event st)) as (Hrun & Hdev & Hstart & Hcnt).
    cbn zeta. split; [exact Hrun|]. split; [|split; [exact Hstart|]].
    + rewrite Hdev. simpl. now rewrite <- app_assoc.
    + rewrite Hcnt. cbn [map]. now rewrite last_cons_default.
Qed.

Lemma last_map_shown (events : list Aggregator.ProgressEvent.t) (s n f : Z)
    (d : option Z * option Z * option Z) :
  events <> [] ->
  last (map Aggregator.tally events) (0, 0, 0)%Z = (s, n, f) ->
  last (map Dashboard.shown events) d = (Some s, Some n, Some f).
Proof.
  intros Hne. revert d. induction events as [|event rest IH]; intros d; [congruence|].
  cbn [map]. rewrite !last_cons_default. destruct rest as [|event' rest'].
  - simpl. unfold Aggregator.tally, Dashboard.shown. now intros [= -> -> ->].
  - intros Hlast. cbn [map] in Hlast. rewrite last_cons_default in Hlast.
    specialize (IH ltac:(discriminate) (Dashboard.shown event)).
    cbn [map] in IH. rewrite !last_cons_default in IH.
    cbn [map]. rewrite last_cons_default. apply IH.
    rewrite <- Hlast. reflexivity.
Qed.

(** X23: the dashboard shows the run as the report has it.  Started on
    a dashboard that is not running, [POST /api/aggregate] answers that the
    aggregation has started and, when the run is over, has left the state
    not running, at 100 per cent, with the summary of the report and with
    its errors (none where the report has none).  For a report without
    errors the devices shown are exactly the devices of the report, and the
    counts shown, once any progress was reported, are those of the
    summary. *)
Theorem dashboard_shows_the_report (now : Z) (h : ApiClient.History)
    (st : Dashboard.State) (report : Aggregator.Report) (final : Aggregator.Run) :
  Dashboard.isRunning st = false ->
  Aggregator.aggregateDeviceData env cfg (Some (fun _ => None)) h = Some (report, final) ->
  exists st',
    Dashboard.postAggregate env cfg now h st
    = Some ({| Dashboard.code := 200; Dashboard.text := "Aggregation started" |}, st')
    /\ Dashboard.isRunning st' = false
    /\ Dashboard.progress st' = Dashboard.Hundred
    /\ Dashboard.summary st' = Some (Aggregator.summary report)
    /\ Dashboard.startTime st' = Some now
    /\ Dashboard.errors st'
       = match Aggregator.errors report with
         | Some errs => map Dashboard.OfBatch errs
         | None => []
         end
    /\ (Aggregator.errors report = None ->
        Dashboard.devices st' = Aggregator.devices report
        /\ (Aggregator.delivered final <> [] ->
            Dashboard.successCount st'
            = Some (Aggregator.successfulFetches (Aggregator.summary report))
            /\ Dashboard.onlineCount st'
               = Some (Aggregator.onlineDevices (Aggregator.summary report))
            /\ Dashboard.offlineCount st'
               = Some (Aggregator.offlineDevices (Aggregator.summary report)))).
Proof.
  intros Hidle Hrun. unfold Dashboard.postAggregate, Dashboard.postAggregate_begin.
  rewrite Hidle, Hrun. eexists. split; [reflexivity|].
  unfold Dashboard.during. rewrite firstn_all.
  match goal with
  | |- context [fold_left ?f ?events ?st1] =>
      destruct (onProgress_fold events st1) as (_ & Hdev & Hstart & Hcnt);
      set (mid := fold_left f events st1) in *
  end.
  cbn [Dashboard.postAggregate_end Dashboard.isRunning Dashboard.progress
       Dashboard.summary Dashboard.startTime Dashboard.errors Dashboard.devices
       Dashboard.successCount Dashboard.onlineCount Dashboard.offlineCount].
  split; [reflexivity|]. split; [reflexivity|]. split; [reflexivity|].
  split; [exact Hstart|]. split; [reflexivity|].
  intros Hnone. revert Hrun Hnone. unfold Aggregator.aggregateDeviceData.
  destruct (BatchProcessor.prepareBatches_default cfg) as [plan|]; [|discriminate].
  destruct (loop_anatomy env cfg (Some (fun _ => None))
              (BatchProcessor.totalBatches plan) (BatchProcessor.batches plan)
              0 (Aggregator.start h))
    as (r & errs & events & -> & Herr & Hdel & _ & _ & _ & Hprog).
  intros [= <- <-]. unfold Aggregator.makeReport. cbn in *. rewrite Herr.
  destruct errs; [|discriminate]. intros _.
  destruct Hprog as (Hres & Hlast); [discriminate|reflexivity|].
  rewrite Hdev, Hres, Hdel. split; [reflexivity|].
  intros Hne. rewrite Hdel in Hcnt.
  rewrite (last_map_shown events _ _ _ _ Hne Hlast) in Hcnt.
  injection Hcnt as -> -> ->. repeat split.
Qed.

(** X24: a run in progress cannot be disturbed.  From the moment
    [POST /api/aggregate] has started a run, and after any number of its
    progress events, the dashboard is running; a second
    [POST /api/aggregate] and a [POST /api/reset] are refused with 409 and
    leave the state as it is. *)
Theorem run_in_progress_is_exclusive (now later : Z) (h : ApiClient.History)
    (st : Dashboard.State) (events : list Aggregator.ProgressEvent.t) (k : nat) :
  Dashboard.isRunning st = false ->
  let mid := Dashboard.during events k (snd (Dashboard.postAggregate_begin now st)) in
  Dashboard.isRunning mid = true
  /\ Dashboard.postAggregate env cfg later h mid
     = Some ({| Dashboard.code := 409;
                Dashboard.text := "Aggregation already in progress" |}, mid)
  /\ Dashboard.postReset mid
     = ({| Dashboard.code := 409;
           Dashboard.text := "Cannot reset while aggregation is running" |}, mid).
Proof.
  intros Hidle mid.
  assert (Dashboard.isRunning mid = true) as Hmid.
  { unfold mid, Dashboard.during.
    destruct (onProgress_fold (firstn k events)
                (snd (Dashboard.postAggregate_begin now st))) as (-> & _).
    unfold Dashboard.postAggregate_begin. now rewrite Hidle. }
  split; [exact Hmid|].
  unfold Dashboard.postAggregate, Dashboard.postAggregate_begin, Dashboard.postReset.
  rewrite Hmid. split; reflexivity.
Qed.

End DashboardFacts.

(** ** Further scenarios, worked *)

Section FurtherScenarios.

Import Scenario.

Lemma executions_never_overlap_witness :
  exists s,
    RateLimiter.run queuedBehind (RateLimiter.new_RateLimiter 1100 5000) = Some s
    /\ map RateLimiter.handle (RateLimiter.executionOrder s)
       = RateLimiter.settledHandles s ++ RateLimiter.runningHandle s
    /\ RateLimiter.runningHandle s = [0].
Proof.
  eexists. split; [vm_compute; reflexivity|].
  split; [|reflexivity].
  apply (@executions_never_overlap nat nat 1100 5000 queuedBehind).
  vm_compute. reflexivity.
Defined.

Lemma sleep_is_due_one_interval_after_last_start_witness :
  exists s item,
    RateLimiter.run asleep (RateLimiter.new_RateLimiter 1100 5000) = Some s
    /\ RateLimiter.worker s = RateLimiter.Sleeping item 6100
    /\ 6100%Z = (last (RateLimiter.startTimes s) 0 + 1100)%Z.
Proof.
  eexists. eexists. split; [vm_compute; reflexivity|]. split; [reflexivity|].
  eapply (@sleep_is_due_one_interval_after_last_start nat nat 1100 5000 asleep);
    vm_compute; reflexivity.
Defined.

Lemma worker_drains_the_queue_witness :
  exists s,
    RateLimiter.run queuedBehind (RateLimiter.new_RateLimiter 1100 5000) = Some s
    /\ exists more s',
         Forall RateLimiter.internal more
         /\ RateLimiter.run more s = Some s'
         /\ RateLimiter.atRest s'
         /\ RateLimiter.executionOrder s' = RateLimiter.lineup s.
Proof.
  eexists. split; [vm_compute; reflexivity|].
  destruct (@worker_drains_the_queue nat nat 1100 5000 queuedBehind _
              (fun item => RateLimiter.Resolved (10 * RateLimiter.fn item))
              ltac:(vm_compute; reflexivity))
    as (more & s' & Hint & _ & Hrun & Hrest & Horder & _).
  exists more, s'.
  split; [exact Hint|]. split; [exact Hrun|]. split; [exact Hrest|exact Horder].
Defined.

Lemma awaited_run_witness :
  RateLimiter.atRest (@RateLimiter.new_RateLimiter nat nat 1100 600)
  /\ exists s' t,
       RateLimiter.run
         (RateLimiter.awaited 1 (RateLimiter.Resolved 10) 500
            (RateLimiter.new_RateLimiter 1100 600))
         (RateLimiter.new_RateLimiter 1100 600) = Some s'
       /\ RateLimiter.atRest s'
       /\ RateLimiter.started s'
          = [({| RateLimiter.fn := 1; RateLimiter.handle := 0 |}, t)]
       /\ RateLimiter.settled s' = [(0, RateLimiter.Resolved 10)]
       /\ t = 1100%Z.
Proof.
  assert (RateLimiter.atRest (@RateLimiter.new_RateLimiter nat nat 1100 600)) as Hrest
    by (repeat split).
  split; [exact Hrest|].
  destruct (@awaited_run nat nat 1 (RateLimiter.Resolved 10) 500
              (RateLimiter.new_RateLimiter 1100 600) Hrest)
    as (s' & t & Hrun & Hrest' & Hstart & Hset & Ht & _).
  exists s', t.
  split; [exact Hrun|]. split; [exact Hrest'|]. split; [exact Hstart|].
  split; [exact Hset|exact Ht].
Defined.

Lemma getQueueLength_counts_the_backlog_witness :
  exists s,
    RateLimiter.run queuedBehind (RateLimiter.new_RateLimiter 1100 5000) = Some s
    /\ RateLimiter.getQueueLength s = 1
    /\ List.length (RateLimiter.started s) + List.length (RateLimiter.waiting s)
       + RateLimiter.getQueueLength s
       <= List.length (RateLimiter.submissions queuedBehind).
Proof.
  eexists. split; [vm_compute; reflexivity|]. split; [reflexivity|].
  apply (@getQueueLength_counts_the_backlog nat nat 1100 5000 queuedBehind).
  vm_compute. reflexivity.
Defined.

Lemma fetchDeviceData_retries_until_answered_witness :
  ApiClient.scripted (scriptedBy flaky) flaky
  /\ exists h',
       ApiClient.fetchDeviceData (scriptedBy flaky) config firstBatch 0 []
       = Some (ApiClient.verdict config (flaky 2), h')
       /\ List.length (ApiClient.attempts h') = 3
       /\ ApiClient.delays h' = [1500; 3000]%Z.
Proof.
  assert (ApiClient.scripted (scriptedBy flaky) flaky) as Hscript
    by (intros h req; reflexivity).
  split; [exact Hscript|].
  destruct (fetchDeviceData_retries_until_answered (scriptedBy flaky) config flaky
              firstBatch [] 2 Hscript)
    as (h' & Hrun & Hlen & Hdel).
  - simpl. lia.
  - intros j Hj. destruct j as [|[|j]]; [reflexivity|reflexivity|lia].
  - reflexivity.
  - exists h'. split; [exact Hrun|]. split; [exact Hlen|exact Hdel].
Defined.

Lemma fetchDeviceData_gives_up_witness :
  ApiClient.scripted (answering tooManyRequests)
    (fun _ => ApiClient.FetchResolves tooManyRequests)
  /\ exists h',
       ApiClient.fetchDeviceData (answering tooManyRequests) config firstBatch 0 []
       = Some (Threw (Error_ "Rate limit exceeded after 3 retries"), h')
       /\ List.length (ApiClient.attempts h') = 4
       /\ ApiClient.delays h' = [1500; 3000; 6000]%Z.
Proof.
  assert (ApiClient.scripted (answering tooManyRequests)
            (fun _ => ApiClient.FetchResolves tooManyRequests)) as Hscript
    by (intros h req; reflexivity).
  split; [exact Hscript|].
  destruct (fetchDeviceData_gives_up (answering tooManyRequests) config
              (fun _ => ApiClient.FetchResolves tooManyRequests) firstBatch []
              Hscript (fun j _ => eq_refl))
    as (h' & Hrun & Hlen & Hdel).
  exists h'. split; [exact Hrun|]. split; [exact Hlen|exact Hdel].
Defined.

Lemma fetchDeviceData_401_witness :
  exists e,
    ApiClient.fetchDeviceData (answering invalidSignature) config firstBatch 2 []
    = Some (Threw e,
            [ApiClient.Fetch
               (ApiClient.requestAt (answering invalidSignature) config firstBatch [])])
    /\ e = Error_ "Authentication failed: Invalid Signature".
Proof.
  apply (fetchDeviceData_401 (answering invalidSignature) config firstBatch 2 []
           invalidSignature eq_refl eq_refl).
Defined.

Lemma fetchDeviceData_api_error_witness :
  exists e,
    ApiClient.fetchDeviceData (answering serverError) config firstBatch 0 []
    = Some (Threw e,
            [ApiClient.Fetch
               (ApiClient.requestAt (answering serverError) config firstBatch [])])
    /\ e = Error_ "API Error 500: Internal Server Error".
Proof.
  apply (fetchDeviceData_api_error (answering serverError) config firstBatch 0 []
           serverError eq_refl);
    [discriminate|discriminate|reflexivity].
Defined.

Lemma prepareBatches_count_witness :
  (1 <= 10)%Z
  /\ exists plan,
       BatchProcessor.prepareBatches 25 10 = Some plan
       /\ BatchProcessor.totalBatches plan = 3.
Proof.
  assert (1 <= 10)%Z as Hsize by lia.
  split; [exact Hsize|].
  destruct (prepareBatches_count 25 10 Hsize) as (plan & Hrun & Hcount & _).
  exists plan. split; [exact Hrun|exact Hcount].
Defined.

Lemma prepareBatches_locates_device_witness :
  exists plan batch,
    BatchProcessor.prepareBatches 25 10 = Some plan
    /\ nth_error (BatchProcessor.batches plan) 1 = Some batch
    /\ nth_error batch 7 = Some "SN-017".
Proof.
  apply (prepareBatches_locates_device 25 17 10); lia.
Defined.

Lemma status_counts_add_up_witness :
  exists report final,
    Aggregator.aggregateDeviceData mockApi fleet25 None [] = Some (report, final)
    /\ Aggregator.errors report = None
    /\ (Aggregator.onlineDevices (Aggregator.summary report)
        + Aggregator.offlineDevices (Aggregator.summary report)
        = Aggregator.successfulFetches (Aggregator.summary report))%Z.
Proof.
  eexists. eexists. split; [vm_compute; reflexivity|]. split; [reflexivity|].
  eapply (status_counts_add_up mockApi fleet25 None []);
    [vm_compute; reflexivity|reflexivity].
Defined.

Lemma errors_follow_the_plan_witness :
  exists plan report final,
    BatchProcessor.prepareBatches_default fleet10 = Some plan
    /\ Aggregator.aggregateDeviceData (answering tooManyRequests) fleet10 None []
       = Some (report, final)
    /\ exists errs,
         Subsequence
           (map (fun e => (Aggregator.batch e, Aggregator.serialNumbers e)) errs)
           (combine (seq 1 (List.length (BatchProcessor.batches plan)))
                    (BatchProcessor.batches plan))
         /\ Aggregator.errorsCount (Aggregator.summary report) = List.length errs.
Proof.
  eexists. eexists. eexists.
  split; [vm_compute; reflexivity|]. split; [vm_compute; reflexivity|].
  destruct (errors_follow_the_plan (answering tooManyRequests) fleet10 None []
              _ _ _ eq_refl eq_refl)
    as (errs & Hsub & Hcount & _).
  exists errs. split; [exact Hsub|exact Hcount].
Defined.

Lemma progress_events_carry_the_report_witness :
  exists report final,
    Aggregator.aggregateDeviceData mockApi fleet25 (Some (fun _ => None)) []
    = Some (report, final)
    /\ Aggregator.errors report = None
    /\ List.concat
         (map Aggregator.ProgressEvent.batchResults (Aggregator.delivered final))
       = Aggregator.devices report.
Proof.
  eexists. eexists. split; [vm_compute; reflexivity|]. split; [reflexivity|].
  eapply (progress_events_carry_the_report mockApi fleet25 (Some (fun _ => None))
            (fun _ => None) []);
    [reflexivity|vm_compute; reflexivity|reflexivity].
Defined.

Lemma complete_answers_give_a_complete_report_witness :
  ApiClient.answersAll mockApi
  /\ (1 <= BATCH_SIZE fleet25 <= ApiClient.maxArguments mockApi)%Z
  /\ exists report final,
       Aggregator.aggregateDeviceData mockApi fleet25 None [] = Some (report, final)
       /\ Aggregator.successfulFetches (Aggregator.summary report) = 25%Z
       /\ Aggregator.failedFetches (Aggregator.summary report) = 0%Z.
Proof.
  assert (ApiClient.answersAll mockApi) as Hall.
  { intros h req. eexists. eexists. eexists.
    split; [reflexivity|]. split; [reflexivity|]. split; [reflexivity|].
    split; [reflexivity|]. rewrite map_map. reflexivity. }
  assert (1 <= BATCH_SIZE fleet25 <= ApiClient.maxArguments mockApi)%Z as Hsize
    by (simpl; lia).
  split; [exact Hall|]. split; [exact Hsize|].
  destruct (complete_answers_give_a_complete_report mockApi fleet25 None [] Hall Hsize)
    as (report & final & Hrun & _ & Hsucc & Hfail & _).
  exists report, final. split; [exact Hrun|]. split; [exact Hsucc|exact Hfail].
Defined.

Lemma limiter_pace_is_within_the_window_witness :
  exists s,
    RateLimiter.run twoTasks (RateLimiter.new_RateLimiter 1100 5000) = Some s
    /\ RateLimiter.startTimes s = [5000; 6100]%Z
    /\ MockApi.reaching twoArrivals = [5003; 6240]%Z
    /\ map ApiClient.status (fst (MockApi.serve markedDigest twoArrivals 0))
       = [200; 400]%Z
    /\ MockApi.admitted twoArrivals (fst (MockApi.serve markedDigest twoArrivals 0))
       = MockApi.reaching twoArrivals.
Proof.
  eexists. split; [vm_compute; reflexivity|]. split; [reflexivity|].
  split; [reflexivity|]. split; [vm_compute; reflexivity|].
  eapply (@limiter_pace_is_within_the_window nat nat markedDigest 1100 5000 140 10
            twoTasks _ twoArrivals).
  - vm_compute. reflexivity.
  - lia.
  - lia.
  - repeat constructor; simpl; lia.
  - lia.
  - repeat constructor; simpl; lia.
Defined.

Lemma mock_api_serves_the_client_witness :
  exists data,
    MockApi.handle markedDigest (clockOf []) steady
      (atTheEndpoint (ApiClient.requestAt loopback config firstBatch [])) 0
    = ({| ApiClient.status := 200;
          ApiClient.body := ApiClient.Parsed (JObj [("data", JArr data)]) |},
       clockOf [])
    /\ ApiClient.fetchDeviceData loopback config firstBatch 0 []
       = Some (Returned (JObj [("data", JArr data)]),
               [ApiClient.Fetch (ApiClient.requestAt loopback config firstBatch [])]).
Proof.
  destruct (mock_api_serves_the_client loopback config firstBatch 0 [] (clockOf []) 0
              steady (atTheEndpoint (ApiClient.requestAt loopback config firstBatch [])))
    as (data & Hanswer & _ & Hfetch).
  - reflexivity.
  - reflexivity.
  - intros payload. discriminate.
  - simpl. lia.
  - vm_compute. discriminate.
  - repeat split.
  - reflexivity.
  - exists data. split; [exact Hanswer|exact Hfetch].
Defined.

Lemma oversized_batches_are_refused_witness :
  ApiClient.fetchDeviceData loopback config elevenDevices 0 []
  = Some (Threw (Error_ "API Error 400: Batch size limit exceeded (Max 10)"),
          [ApiClient.Fetch (ApiClient.requestAt loopback config elevenDevices [])]).
Proof.
  apply (oversized_batches_are_refused loopback config elevenDevices 0 []
           (clockOf []) 0 steady
           (atTheEndpoint (ApiClient.requestAt loopback config elevenDevices []))).
  - reflexivity.
  - reflexivity.
  - intros payload. discriminate.
  - simpl. lia.
  - vm_compute. discriminate.
  - repeat split.
  - reflexivity.
Defined.

Lemma backoff_outlasts_the_window_witness :
  ApiClient.backoff config 0 = 1500%Z
  /\ ApiClient.status
       (fst (MockApi.handle markedDigest 6500 steady
               (atTheEndpoint (ApiClient.requestAt loopback config firstBatch []))
               4500))
     <> 429%Z.
Proof.
  split; [reflexivity|].
  apply (backoff_outlasts_the_window loopback config 0 5000 4500 6500 steady).
  - simpl. lia.
  - lia.
  - vm_compute. discriminate.
Defined.

Lemma dashboard_shows_the_report_witness :
  exists report final st',
    Aggregator.aggregateDeviceData mockApi fleet25 (Some (fun _ => None)) []
    = Some (report, final)
    /\ Dashboard.postAggregate mockApi fleet25 1707050690000 [] Dashboard.initial
       = Some ({| Dashboard.code := 200; Dashboard.text := "Aggregation started" |}, st')
    /\ Dashboard.isRunning st' = false
    /\ Dashboard.summary st' = Some (Aggregator.summary report).
Proof.
  eexists. eexists.
  assert (Aggregator.aggregateDeviceData mockApi fleet25 (Some (fun _ => None)) []
          = Some (_, _)) as Hrun by (vm_compute; reflexivity).
  destruct (dashboard_shows_the_report mockApi fleet25 1707050690000 []
              Dashboard.initial _ _ eq_refl Hrun)
    as (st' & Hpost & Hstop & _ & Hsum & _).
  exists st'. split; [exact Hrun|]. split; [exact Hpost|]. split; [exact Hstop|exact Hsum].
Defined.

Lemma run_in_progress_is_exclusive_witness :
  Dashboard.isRunning Dashboard.initial = false
  /\ Dashboard.postReset
       (Dashboard.during [firstProgress] 1
          (snd (Dashboard.postAggregate_begin 1707050690000 Dashboard.initial)))
     = ({| Dashboard.code := 409;
           Dashboard.text := "Cannot reset while aggregation is running" |},
        Dashboard.during [firstProgress] 1
          (snd (Dashboard.postAggregate_begin 1707050690000 Dashboard.initial))).
Proof.
  split; [reflexivity|].
  apply (run_in_progress_is_exclusive mockApi fleet25 1707050690000 1707050691000 []
           Dashboard.initial [firstProgress] 1 eq_refl).
Defined.

End FurtherScenarios.
